(** * Mini Google search engine: the index and the ranker of
      [src/search_engine.py], embedded in Rocq.

    The development follows the class [MiniGoogleSearch]:

    - [preprocess_text] (the normaliser), over the three NLTK components
      the class is configured with (tokenizer, stop-word set, stemmer);
    - [add_document] (ingestion) as a function on the engine state;
    - [bm25_score] and [search] (the ranker) in a small state-and-exception
      monad, so that the [defaultdict] behind [inverted_index] and the
      exceptions Python raises are both visible;
    - [save_index] and [load_index] (persistence) over a model of the two
      files of the snapshot.

    Python strings are modelled by [string], a character being a code point
    below 256.  Python dictionaries are insertion-ordered association lists
    without repeated keys. *)

From Stdlib Require Import String Ascii List ZArith NArith Bool Lia.
From Stdlib Require Import QArith Qreduction Qfield.
From Stdlib Require Import Sorted Permutation.
From Stdlib Require DecimalString DecimalNat.
Import ListNotations.

Local Open Scope string_scope.
Local Open Scope list_scope.
Local Open Scope Z_scope.

Set Implicit Arguments.

(* ================================================================== *)
(** * Python dictionaries *)
(* ================================================================== *)

(** A [dict] with string keys: an association list in insertion order.
    Assigning to a key already present replaces the value in place and keeps
    the key's position; a new key goes to the end (the behaviour of the
    built-in [dict] since Python 3.7). *)

Module PyDict.

Section Dict.
Variable V : Type.

Definition dict := list (string * V).

Fixpoint get (k : string) (d : dict) : option V :=
  match d with
  | [] => None
  | (k', v) :: d' => if String.eqb k k' then Some v else get k d'
  end.

(** [k in d] *)
Definition mem (k : string) (d : dict) : bool :=
  match get k d with Some _ => true | None => false end.

(** [d[k] = v] *)
Fixpoint set (k : string) (v : V) (d : dict) : dict :=
  match d with
  | [] => [(k, v)]
  | (k', v') :: d' =>
      if String.eqb k k' then (k', v) :: d' else (k', v') :: set k v d'
  end.

(** [list(d)], the keys in iteration order *)
Definition keys (d : dict) : list string := map fst d.

(** [len(d)] *)
Definition len (d : dict) : Z := Z.of_nat (length d).

End Dict.

End PyDict.

(* ================================================================== *)
(** * Text: [str.lower], [re.sub], [str.split] *)
(* ================================================================== *)

(** A text is a string of code points below 256.  The texts with other
    characters are outside this development: [str.lower] maps some of them
    to ASCII letters (U+212A, the Kelvin sign, to [k]), and what holds
    below of [lower] is stated of the texts it is defined on. *)
Definition code (c : ascii) : N := N_of_ascii c.

(** [c.lower()] for a code point below 256: the ASCII capitals and the
    Latin-1 capitals (U+00C0..U+00DE but the multiplication sign U+00D7)
    move 32 places up. *)
Definition lower_char (c : ascii) : ascii :=
  let n := code c in
  if ((65 <=? n) && (n <=? 90))%N
     || ((192 <=? n) && (n <=? 222) && negb (n =? 215))%N
  then ascii_of_N (n + 32) else c.

(** [text.lower()] *)
Fixpoint lower (s : string) : string :=
  match s with
  | EmptyString => EmptyString
  | String c s' => String (lower_char c) (lower s')
  end.

(** The class [a-zA-Z] of the regular expression. *)
Definition is_ascii_letter (c : ascii) : bool :=
  let n := code c in
  (((65 <=? n) && (n <=? 90)) || ((97 <=? n) && (n <=? 122)))%N.

(** The class [\s] of a [str] pattern, which is also what [str.split()]
    separates on: the white space of Unicode below 256. *)
Definition is_space (c : ascii) : bool :=
  let n := code c in
  (((9 <=? n) && (n <=? 13)) || ((28 <=? n) && (n <=? 32))
   || (n =? 133) || (n =? 160))%N.

Fixpoint filter_chars (keep : ascii -> bool) (s : string) : string :=
  match s with
  | EmptyString => EmptyString
  | String c s' =>
      if keep c then String c (filter_chars keep s') else filter_chars keep s'
  end.

(** The text holds ASCII characters only. *)
Fixpoint is_ascii_text (s : string) : bool :=
  match s with
  | EmptyString => true
  | String c s' => (code c <? 128)%N && is_ascii_text s'
  end.

(** [re.sub(r'[^a-zA-Z\s]', '', text)]: every character that is neither an
    ASCII letter nor white space is deleted. *)
Definition strip_non_letters (s : string) : string :=
  filter_chars (fun c => is_ascii_letter c || is_space c) s.

(** [text.split()]: the maximal runs of characters that are not white
    space, in order; [cur] is the run being read. *)
Fixpoint split_from (cur : string) (s : string) : list string :=
  match s with
  | EmptyString => match cur with EmptyString => [] | _ => [cur] end
  | String c s' =>
      if is_space c
      then match cur with
           | EmptyString => split_from EmptyString s'
           | _ => cur :: split_from EmptyString s'
           end
      else split_from (cur ++ String c EmptyString) s'
  end.

Definition split (s : string) : list string := split_from EmptyString s.

(** [w in words] for a list or set of strings. *)
Definition str_in (w : string) (words : list string) : bool :=
  existsb (String.eqb w) words.

(* ================================================================== *)
(** * The NLTK components *)
(* ================================================================== *)

(** [preprocess_text] uses three things of the NLTK library, which is not
    part of the repository: the function [word_tokenize], the English
    stop-word corpus ([self.stop_words]) and the Porter stemmer
    ([self.stemmer.stem]).  The engine is stated over any such triple. *)
Class NLTK := {
  word_tokenize : string -> list string;
  stop_words : list string;
  stem : string -> string
}.

(** ** The tokenizer on letters and white space

    [nltk.word_tokenize] cuts the text into sentences and runs the Treebank
    word tokenizer on each.  All of its rules but two families need a
    punctuation character; on a text of lower-case ASCII letters and white
    space what remains is: the contractions of the list [CONTRACTIONS2]
    that have no apostrophe are cut in two wherever they stand as a whole
    word (the rule rewrites [\b(can)(not)\b] to [" can not "], and likewise
    for the others), and the text is then split on white space. *)
Definition CONTRACTIONS2 : list (string * string) :=
  [("can", "not"); ("gim", "me"); ("gon", "na");
   ("got", "ta"); ("lem", "me"); ("wan", "na")].

Fixpoint contraction_of (w : string) (rules : list (string * string))
  : option (string * string) :=
  match rules with
  | [] => None
  | (a, b) :: rules' =>
      if String.eqb w (a ++ b) then Some (a, b) else contraction_of w rules'
  end.

Definition treebank_word (w : string) : list string :=
  match contraction_of w CONTRACTIONS2 with
  | Some (a, b) => [a; b]
  | None => [w]
  end.

Definition treebank_word_tokenize (text : string) : list string :=
  flat_map treebank_word (split text).

(** ** The English stop words ([stopwords.words('english')]) *)
Definition english_stop_words : list string :=
  ["i"; "me"; "my"; "myself"; "we"; "our"; "ours"; "ourselves"; "you";
   "you're"; "you've"; "you'll"; "you'd"; "your"; "yours"; "yourself";
   "yourselves"; "he"; "him"; "his"; "himself"; "she"; "she's"; "her";
   "hers"; "herself"; "it"; "it's"; "its"; "itself"; "they"; "them";
   "their"; "theirs"; "themselves"; "what"; "which"; "who"; "whom"; "this";
   "that"; "that'll"; "these"; "those"; "am"; "is"; "are"; "was"; "were";
   "be"; "been"; "being"; "have"; "has"; "had"; "having"; "do"; "does";
   "did"; "doing"; "a"; "an"; "the"; "and"; "but"; "if"; "or"; "because";
   "as"; "until"; "while"; "of"; "at"; "by"; "for"; "with"; "about";
   "against"; "between"; "into"; "through"; "during"; "before"; "after";
   "above"; "below"; "to"; "from"; "up"; "down"; "in"; "out"; "on"; "off";
   "over"; "under"; "again"; "further"; "then"; "once"; "here"; "there";
   "when"; "where"; "why"; "how"; "all"; "any"; "both"; "each"; "few";
   "more"; "most"; "other"; "some"; "such"; "no"; "nor"; "not"; "only";
   "own"; "same"; "so"; "than"; "too"; "very"; "s"; "t"; "can"; "will";
   "just"; "don"; "don't"; "should"; "should've"; "now"; "d"; "ll"; "m";
   "o"; "re"; "ve"; "y"; "ain"; "aren"; "aren't"; "couldn"; "couldn't";
   "didn"; "didn't"; "doesn"; "doesn't"; "hadn"; "hadn't"; "hasn";
   "hasn't"; "haven"; "haven't"; "isn"; "isn't"; "ma"; "mightn";
   "mightn't"; "mustn"; "mustn't"; "needn"; "needn't"; "shan"; "shan't";
   "shouldn"; "shouldn't"; "wasn"; "wasn't"; "weren"; "weren't"; "won";
   "won't"; "wouldn"; "wouldn't"].

(** NLTK with the tokenizer and the stop words above; the stemmer stays a
    parameter. *)
Definition nltk_english (stemmer : string -> string) : NLTK :=
  {| word_tokenize := treebank_word_tokenize;
     stop_words := english_stop_words;
     stem := stemmer |}.

(* ================================================================== *)
(** * The normaliser *)
(* ================================================================== *)

Section Normalizer.
Context {nltk : NLTK}.

(** The condition of the comprehension:
    [token not in self.stop_words and len(token) > 2]. *)
Definition keep_token (token : string) : bool :=
  negb (str_in token stop_words) && (2 <? String.length token)%nat.

(** [preprocess_text(self, text)] *)
Definition preprocess_text (text : string) : list string :=
  let text := lower text in
  let text := strip_non_letters text in
  let tokens := word_tokenize text in
  map stem (filter keep_token tokens).

(** The pipeline in the words of the specification: lower-case; delete
    what is neither an ASCII letter nor white space; split on white space;
    drop the tokens of length at most 2; drop the stop words; stem what is
    left. *)
Definition normalize_reference (text : string) : list string :=
  let lowered := lower text in
  let letters := strip_non_letters lowered in
  let tokens := split letters in
  let long := filter (fun t => negb (String.length t <=? 2)%nat) tokens in
  let content := filter (fun t => negb (str_in t stop_words)) long in
  map stem content.

End Normalizer.

(* ================================================================== *)
(** * Numbers *)
(* ================================================================== *)

(** Python's [float] is taken through its operations.  [of_Z] is the
    conversion of an [int] that Python performs when an [int] meets a
    [float], for an [int] that is not too large (see [float_of_int]
    below); [lit] is the value of a decimal literal; [flog] is [math.log];
    [fltb] is [<] and [fis_zero] is [== 0].  The laws are those of IEEE-754
    arithmetic that the ranker relies on: [<] is asymmetric; on numbers
    greater than 0 (which excludes the NaN) it is a strict weak order; the
    product commutes; a zero score stays zero; and the argument of
    [math.log] in the line that computes [idf],
    [(total_docs - df + 0.5) / (df + 0.5) + 1.0], which is
    [(total_docs + 1) / (df + 0.5)] in exact arithmetic, is greater than 0
    exactly when [total_docs] is not negative, [df] being the length of a
    dictionary. *)
Class PyFloat := {
  F : Type;
  of_Z : Z -> F;
  lit : Q -> F;
  fadd : F -> F -> F;
  fsub : F -> F -> F;
  fmul : F -> F -> F;
  fdiv : F -> F -> F;
  flog : F -> F;
  fltb : F -> F -> bool;
  fis_zero : F -> bool;
  fltb_asym : forall x y, fltb x y = true -> fltb y x = false;
  fltb_negtrans :
    forall x y z,
      fltb (of_Z 0) x = true -> fltb (of_Z 0) y = true ->
      fltb (of_Z 0) z = true ->
      fltb x y = false -> fltb y z = false -> fltb x z = false;
  fmul_comm : forall x y, fmul x y = fmul y x;
  fmul_zero_lit : forall q, fmul (of_Z 0) (lit q) = of_Z 0;
  fadd_zero_zero : fadd (of_Z 0) (of_Z 0) = of_Z 0;
  idf_argument_sign :
    forall n df : Z,
      0 <= df ->
      fltb (of_Z 0)
           (fadd (fdiv (fadd (of_Z (n - df)) (lit (1 # 2)))
                       (fadd (of_Z df) (lit (1 # 2))))
                 (lit 1))
      = (0 <=? n)
}.

(** ** Exact rationals

    The operations of the instance [QFloat] below: the four operations and
    the comparison are those of [Q] on reduced fractions; the logarithm is
    the partial sum
    [2 * (y + y^3/3 + ... )], [y = (x - 1) / (x + 1)], of the series of
    [ln x]: a rational approximation from below for [x >= 1]. *)
Fixpoint ln_series (n : nat) (k : positive) (y ypow : Q) : Q :=
  match n with
  | O => 0%Q
  | S n' =>
      Qred (ypow / (Zpos k # 1) + ln_series n' (k + 2) y (Qred (ypow * y * y)))%Q
  end.

Definition Qln (x : Q) : Q :=
  let y := Qred ((x - 1) / (x + 1))%Q in
  Qred (2 * ln_series 6 1 y y)%Q.

Definition Qltb (x y : Q) : bool :=
  match (x ?= y)%Q with Lt => true | _ => false end.

(* ================================================================== *)
(** * The engine state and ingestion *)
(* ================================================================== *)

(** The exceptions the ranker's code can raise, and the outcome of a
    call: a value returned or an exception raised. *)
Inductive exn := ZeroDivisionError | ValueError | OverflowError | KeyError.

Inductive result (A : Type) :=
| Ok (a : A)
| Raise (e : exn).
Arguments Ok {A} a.
Arguments Raise {A} e.

Section Engine.
Context {nltk : NLTK} {num : PyFloat}.

(** The value of [self.avg_doc_length]: the [int] that [__init__] stores,
    or a [float]. *)
Inductive number :=
| PyInt (z : Z)
| PyFlt (x : F).

(** A value of [self.documents]: the dictionary with the keys ['title'],
    ['content'], ['url'] and ['tokens']. *)
Record document := {
  title : string;
  content : string;
  url : string;
  tokens : list string
}.

(** The attributes of [MiniGoogleSearch] that ingestion, ranking and
    persistence read or write.  ([doc_lengths] is set to the empty
    dictionary by [__init__] and never used again; [vectorizer],
    [stemmer], [stop_words] and [index_path] are configuration.) *)
Record engine := {
  documents : PyDict.dict document;
  inverted_index : PyDict.dict (PyDict.dict Z);
  avg_doc_length : number;
  total_docs : Z
}.

(** [MiniGoogleSearch()] *)
Definition __init__ : engine :=
  {| documents := [];
     inverted_index := [];
     avg_doc_length := PyInt 0;
     total_docs := 0 |}.

(** [Counter(tokens)]: each element is counted into a dictionary, in the
    order of first occurrence. *)
Definition count_element (c : PyDict.dict Z) (t : string) : PyDict.dict Z :=
  PyDict.set t (match PyDict.get t c with Some n => n | None => 0 end + 1) c.

Definition Counter (tokens : list string) : PyDict.dict Z :=
  fold_left count_element tokens [].

(** [index[token]] on a [defaultdict(dict)]: a missing key is first bound
    to a new empty dictionary. *)
Definition defaultdict_getitem (token : string)
    (index : PyDict.dict (PyDict.dict Z))
  : PyDict.dict Z * PyDict.dict (PyDict.dict Z) :=
  match PyDict.get token index with
  | Some inner => (inner, index)
  | None => ([], PyDict.set token [] index)
  end.

(** [index[token][doc_id] = v]: the inner dictionary is the object stored
    in the outer one, so the assignment shows there. *)
Definition index_setitem (token doc_id : string) (v : Z)
    (index : PyDict.dict (PyDict.dict Z)) : PyDict.dict (PyDict.dict Z) :=
  let (inner, index') := defaultdict_getitem token index in
  PyDict.set token (PyDict.set doc_id v inner) index'.

(** The body of the loop over [token_counts.items()]. *)
Definition index_update (doc_id : string)
    (index : PyDict.dict (PyDict.dict Z)) (item : string * Z)
  : PyDict.dict (PyDict.dict Z) :=
  let (token, count) := item in
  let (inner, index1) := defaultdict_getitem token index in
  let index2 :=
    if PyDict.mem doc_id inner then index1
    else index_setitem token doc_id 0 index1 in
  let (inner2, index3) := defaultdict_getitem token index2 in
  let old := match PyDict.get doc_id inner2 with Some c => c | None => 0 end in
  index_setitem token doc_id (old + count) index3.

(** [add_document(self, doc_id, title, content, url)] *)
Definition add_document (doc_id title_ content_ url_ : string) (s : engine)
  : engine :=
  let full_text := (title_ ++ " " ++ content_)%string in
  let tokens_ := preprocess_text full_text in
  let documents' :=
    PyDict.set doc_id
      {| title := title_;
         content := (substring 0 200 content_ ++ "...")%string;
         url := url_;
         tokens := tokens_ |}
      (documents s) in
  let token_counts := Counter tokens_ in
  let index' :=
    fold_left (index_update doc_id) token_counts (inverted_index s) in
  {| documents := documents';
     inverted_index := index';
     avg_doc_length := avg_doc_length s;
     total_docs := total_docs s + 1 |}.

(** A call of [add_document], and a sequence of calls on an engine. *)
Record call := {
  call_id : string;
  call_title : string;
  call_content : string;
  call_url : string
}.

Definition add_call (s : engine) (c : call) : engine :=
  add_document (call_id c) (call_title c) (call_content c) (call_url c) s.

Definition add_documents (calls : list call) (s : engine) : engine :=
  fold_left add_call calls s.

(* ================================================================ *)
(** * The ranker *)
(* ================================================================ *)

(** A method body: it reads and writes the attributes and returns or
    raises. *)
Definition M (A : Type) := engine -> result A * engine.

Definition ret {A} (a : A) : M A := fun s => (Ok a, s).

Definition raise {A} (e : exn) : M A := fun s => (Raise e, s).

Definition bind {A B} (m : M A) (k : A -> M B) : M B :=
  fun s =>
    match m s with
    | (Ok a, s') => k a s'
    | (Raise e, s') => (Raise e, s')
    end.

Definition get_self : M engine := fun s => (Ok s, s).

Notation "x <- m ;; k" := (bind m (fun x => k))
  (at level 61, m at next level, right associativity).

(** [for x in xs: acc = body(acc, x)] *)
Fixpoint for_each {A B} (xs : list B) (body : A -> B -> M A) (acc : A)
  : M A :=
  match xs with
  | [] => ret acc
  | x :: xs' => acc' <- body acc x ;; for_each xs' body acc'
  end.

(** [self.inverted_index[token]] *)
Definition index_getitem (token : string) : M (PyDict.dict Z) :=
  fun s =>
    let (inner, index') := defaultdict_getitem token (inverted_index s) in
    (Ok inner,
     {| documents := documents s;
        inverted_index := index';
        avg_doc_length := avg_doc_length s;
        total_docs := total_docs s |}).

(** [d[k]] on a plain dictionary. *)
Definition getitem {V} (k : string) (d : PyDict.dict V) : M V :=
  match PyDict.get k d with
  | Some v => ret v
  | None => raise KeyError
  end.

(** [token in self.inverted_index and doc_id in self.inverted_index[token]] *)
Definition posting_hit (token doc_id : string) : M bool :=
  s <- get_self ;;
  if PyDict.mem token (inverted_index s)
  then inner <- index_getitem token ;; ret (PyDict.mem doc_id inner)
  else ret false.

(** [x / y] on floats. *)
Definition truediv (x y : F) : M F :=
  if fis_zero y then raise ZeroDivisionError else ret (fdiv x y).

(** [n / self.avg_doc_length] for an [int] [n]. *)
Definition truediv_number (n : Z) (y : number) : M F :=
  match y with
  | PyInt z =>
      if z =? 0 then raise ZeroDivisionError
      else ret (fdiv (of_Z n) (of_Z z))
  | PyFlt x => truediv (of_Z n) x
  end.

(** [math.log(x)]: [ValueError] (math domain error) unless [x > 0]. *)
Definition math_log (x : F) : M F :=
  if fltb (of_Z 0) x then ret (flog x) else raise ValueError.

(** An [int] that meets a [float] in an operation is converted, and the
    conversion raises [OverflowError] (int too large to convert to float)
    when the nearest double is beyond the greatest one: from
    [2^1024 - 2^970] on, in absolute value.  The lengths of lists and
    dictionaries always fit. *)
Definition float_limit : Z := 2 ^ 1024 - 2 ^ 970.

Definition fits_float (n : Z) : bool := Z.abs n <? float_limit.

Definition float_of_int (n : Z) : M F :=
  if fits_float n then ret (of_Z n) else raise OverflowError.

(** The body of the loop of [bm25_score] over the query tokens.  In the
    line that computes [idf], [total_docs - df] is an [int] that is
    converted when [0.5] is added; the divisor [df + 0.5] is at least 0.5;
    and [math.log] raises [ValueError] when its argument is not greater
    than 0, which is so when [total_docs] is negative ([load_index] takes
    [total_docs], and the counts, from the file as they are).  In the next
    line [tf] is converted for the product.  The two divisions that follow
    raise [ZeroDivisionError] on a zero divisor. *)
Definition bm25_step (doc_id : string) (doc_length : Z) (k1 b : F)
    (score : F) (token : string) : M F :=
  present <- posting_hit token doc_id ;;
  if present then
    inner <- index_getitem token ;;
    tf <- getitem doc_id inner ;;
    inner' <- index_getitem token ;;
    let df := PyDict.len inner' in
    s <- get_self ;;
    rest <- float_of_int (total_docs s - df) ;;
    idf <- math_log
             (fadd (fdiv (fadd rest (lit (1 # 2)))
                         (fadd (of_Z df) (lit (1 # 2))))
                   (lit 1)) ;;
    tf_ <- float_of_int tf ;;
    let numerator := fmul tf_ (fadd k1 (of_Z 1)) in
    ratio <- truediv_number doc_length (avg_doc_length s) ;;
    let denominator :=
      fadd tf_
           (fmul k1 (fadd (fsub (of_Z 1) b) (fmul b ratio))) in
    quotient <- truediv numerator denominator ;;
    ret (fadd score (fmul idf quotient))
  else ret score.

(** [bm25_score(self, query, doc_id, k1, b)] *)
Definition bm25_score_with (query doc_id : string) (k1 b : F) : M F :=
  s <- get_self ;;
  if negb (PyDict.mem doc_id (documents s)) then ret (of_Z 0)
  else
    doc <- getitem doc_id (documents s) ;;
    let doc_tokens := tokens doc in
    let query_tokens := preprocess_text query in
    let doc_length := Z.of_nat (length doc_tokens) in
    for_each query_tokens (bm25_step doc_id doc_length k1 b) (of_Z 0).

(** [bm25_score(self, query, doc_id)] with the default [k1=1.5],
    [b=0.75]. *)
Definition bm25_score (query doc_id : string) : M F :=
  bm25_score_with query doc_id (lit (3 # 2)) (lit (3 # 4)).

(** An element of the list [search] returns. *)
Record hit := {
  hit_doc_id : string;
  hit_score : F;
  hit_title : string;
  hit_snippet : string;
  hit_url : string
}.

(** The body of the inner loop of [search]. *)
Definition tf_step (doc_id : string) (tf_score : Z) (token : string) : M Z :=
  present <- posting_hit token doc_id ;;
  if present then
    inner <- index_getitem token ;;
    tf <- getitem doc_id inner ;;
    ret (tf_score + tf)
  else ret tf_score.

(** The body of the loop of [search] over [self.documents]. *)
Definition search_step (query : string) (query_tokens : list string)
    (results : list hit) (doc_id : string) : M (list hit) :=
  bm25 <- bm25_score query doc_id ;;
  tf_score <- for_each query_tokens (tf_step doc_id) 0 ;;
  tf_score_ <- float_of_int tf_score ;;
  let combined_score :=
    fadd (fmul bm25 (lit (7 # 10))) (fmul tf_score_ (lit (3 # 10))) in
  if fltb (of_Z 0) combined_score then
    s <- get_self ;;
    doc <- getitem doc_id (documents s) ;;
    ret (results ++ [{| hit_doc_id := doc_id;
                        hit_score := combined_score;
                        hit_title := title doc;
                        hit_snippet := content doc;
                        hit_url := url doc |}])
  else ret results.

(** [results.sort(key=lambda x: x['score'], reverse=True)]: the sort is
    stable, so with [reverse=True] an element stays in front of the later
    elements that do not have a strictly greater key. *)
Fixpoint insert_by_score (r : hit) (sorted : list hit) : list hit :=
  match sorted with
  | [] => [r]
  | r' :: rest =>
      if fltb (hit_score r) (hit_score r')
      then r' :: insert_by_score r rest
      else r :: r' :: rest
  end.

Definition sort_by_score_reverse (results : list hit) : list hit :=
  fold_right insert_by_score [] results.

(** [results[:top_k]]: a negative bound counts from the end. *)
Definition slice_to {A} (l : list A) (top_k : Z) : list A :=
  if 0 <=? top_k then firstn (Z.to_nat top_k) l
  else firstn (Z.to_nat (Z.of_nat (length l) + top_k)) l.

(** [search(self, query, top_k)] *)
Definition search (query : string) (top_k : Z) : M (list hit) :=
  s <- get_self ;;
  if total_docs s =? 0 then ret []
  else
    let query_tokens := preprocess_text query in
    results <- for_each (PyDict.keys (documents s))
                        (search_step query query_tokens) [] ;;
    ret (slice_to (sort_by_score_reverse results) top_k).

(* ================================================================ *)
(** * Persistence *)
(* ================================================================ *)

(** [index_data], the dictionary written to [search_index.json].  JSON
    keeps strings, integers, lists and the order of the keys of an
    object, so what [json.load] returns is what [json.dump] was given. *)
Record snapshot := {
  snap_documents : PyDict.dict document;
  snap_inverted_index : PyDict.dict (PyDict.dict Z);
  snap_total_docs : Z
}.

(** The directory [data/index/]: the snapshot, if the file is there, and
    whether [vectorizer.pkl] is there. *)
Record disk := {
  search_index_json : option snapshot;
  vectorizer_pkl : bool
}.

(** [save_index(self)] *)
Definition save_index (s : engine) (d : disk) : disk :=
  let index_data :=
    {| snap_documents := documents s;
       snap_inverted_index := inverted_index s;
       snap_total_docs := total_docs s |} in
  {| search_index_json := Some index_data; vectorizer_pkl := true |}.

(** [load_index(self)]: the value returned and the engine afterwards.  A
    missing file raises [FileNotFoundError], which the method catches. *)
Definition load_index (s : engine) (d : disk) : bool * engine :=
  match search_index_json d with
  | None => (false, s)
  | Some index_data =>
      let s' :=
        {| documents := snap_documents index_data;
           inverted_index := snap_inverted_index index_data;
           avg_doc_length := avg_doc_length s;
           total_docs := snap_total_docs index_data |} in
      if vectorizer_pkl d then (true, s') else (false, s')
  end.

End Engine.

(* ================================================================== *)
(** * What the ranker computes *)
(* ================================================================== *)

Section Ranking.
Context {nltk : NLTK} {num : PyFloat}.

(** The count of the entry [(token, doc_id, count)] of an inverted index, if
    there is one. *)
Definition index_entry (index : PyDict.dict (PyDict.dict Z))
    (token doc_id : string) : option Z :=
  match PyDict.get token index with
  | Some inner => PyDict.get doc_id inner
  | None => None
  end.

Definition posting (s : engine) (token doc_id : string) : option Z :=
  index_entry (inverted_index s) token doc_id.

Definition count_or_zero (c : option Z) : Z :=
  match c with Some n => n | None => 0 end.

(** The number of occurrences of [token] in a token sequence. *)
Definition occurrences (token : string) (tokens : list string) : Z :=
  Z.of_nat (count_occ string_dec tokens token).

(** [df]: the number of documents of the entry of [token]. *)
Definition doc_freq (s : engine) (token : string) : Z :=
  match PyDict.get token (inverted_index s) with
  | Some inner => PyDict.len inner
  | None => 0
  end.

(** [dl]: the number of tokens of the stored document [doc_id]. *)
Definition doc_length_of (s : engine) (doc_id : string) : Z :=
  match PyDict.get doc_id (documents s) with
  | Some doc => Z.of_nat (length (tokens doc))
  | None => 0
  end.

Definition number_value (n : number) : F :=
  match n with
  | PyInt z => of_Z z
  | PyFlt x => x
  end.

(** ** The score in the words of the specification *)

Definition k1 : F := lit (3 # 2).
Definition b : F := lit (3 # 4).

(** The argument of the logarithm of [idf]. *)
Definition idf_argument (s : engine) (token : string) : F :=
  let df := doc_freq s token in
  fadd (fdiv (fadd (of_Z (total_docs s - df)) (lit (1 # 2)))
             (fadd (of_Z df) (lit (1 # 2))))
       (lit 1).

(** [idf = ln((total_docs - df + 0.5) / (df + 0.5) + 1.0)] *)
Definition idf (s : engine) (token : string) : F :=
  let df := doc_freq s token in
  flog (fadd (fdiv (fadd (of_Z (total_docs s - df)) (lit (1 # 2)))
                   (fadd (of_Z df) (lit (1 # 2))))
             (lit 1)).

(** [idf * (tf * (k1 + 1)) / (tf + k1 * (1 - b + b * (dl / avg_doc_length)))],
    the fraction being the quotient that multiplies [idf]. *)
Definition contribution (s : engine) (doc_id token : string) (tf : Z) : F :=
  let dl := doc_length_of s doc_id in
  fmul (idf s token)
       (fdiv (fmul (of_Z tf) (fadd k1 (of_Z 1)))
             (fadd (of_Z tf)
                   (fmul k1
                      (fadd (fsub (of_Z 1) b)
                            (fmul b (fdiv (of_Z dl)
                                          (number_value (avg_doc_length s)))))))).

(** The sum of the contributions of the query terms present in the
    document, in the order of the query. *)
Definition bm25_component (s : engine) (query_tokens : list string)
    (doc_id : string) : F :=
  fold_left
    (fun acc token =>
       match posting s token doc_id with
       | Some tf => fadd acc (contribution s doc_id token tf)
       | None => acc
       end)
    query_tokens (of_Z 0).

(** The sum of [tf] over the query terms present in the document. *)
Definition raw_tf_component (s : engine) (query_tokens : list string)
    (doc_id : string) : Z :=
  fold_left
    (fun acc token =>
       match posting s token doc_id with
       | Some tf => acc + tf
       | None => acc
       end)
    query_tokens 0.

(** [0.7 * bm25_component + 0.3 * raw_tf_component] *)
Definition combined_score (s : engine) (query_tokens : list string)
    (doc_id : string) : F :=
  fadd (fmul (lit (7 # 10)) (bm25_component s query_tokens doc_id))
       (fmul (lit (3 # 10)) (of_Z (raw_tf_component s query_tokens doc_id))).

(** The result for a document: present when its combined score is
    positive. *)
Definition scored_hit (s : engine) (query_tokens : list string)
    (doc_id : string) : list hit :=
  match PyDict.get doc_id (documents s) with
  | Some doc =>
      let score := combined_score s query_tokens doc_id in
      if fltb (of_Z 0) score
      then [{| hit_doc_id := doc_id;
               hit_score := score;
               hit_title := title doc;
               hit_snippet := content doc;
               hit_url := url doc |}]
      else []
  | None => []
  end.

(** The documents with a positive score, sorted by score, the greatest
    first. *)
Definition ranking (s : engine) (query : string) : list hit :=
  sort_by_score_reverse
    (flat_map (scored_hit s (preprocess_text query))
              (PyDict.keys (documents s))).

(** ** The outcome of the ranker's code, without the state *)

Definition truediv_outcome (x y : F) : result F :=
  if fis_zero y then Raise ZeroDivisionError else Ok (fdiv x y).

Definition math_log_outcome (x : F) : result F :=
  if fltb (of_Z 0) x then Ok (flog x) else Raise ValueError.

Definition truediv_number_outcome (n : Z) (y : number) : result F :=
  match y with
  | PyInt z =>
      if z =? 0 then Raise ZeroDivisionError
      else Ok (fdiv (of_Z n) (of_Z z))
  | PyFlt x => truediv_outcome (of_Z n) x
  end.

Fixpoint fold_outcome {A B} (f : A -> B -> result A) (xs : list B) (acc : A)
  : result A :=
  match xs with
  | [] => Ok acc
  | x :: xs' =>
      match f acc x with
      | Ok acc' => fold_outcome f xs' acc'
      | Raise e => Raise e
      end
  end.

Definition bm25_step_outcome (s : engine) (doc_id : string) (doc_length : Z)
    (k1 b : F) (score : F) (token : string) : result F :=
  match posting s token doc_id with
  | Some tf =>
      if negb (fits_float (total_docs s - doc_freq s token))
      then Raise OverflowError
      else
        match math_log_outcome (idf_argument s token) with
        | Ok idf_ =>
            if negb (fits_float tf) then Raise OverflowError
            else
              match truediv_number_outcome doc_length (avg_doc_length s) with
              | Ok ratio =>
                  match truediv_outcome
                          (fmul (of_Z tf) (fadd k1 (of_Z 1)))
                          (fadd (of_Z tf)
                                (fmul k1 (fadd (fsub (of_Z 1) b)
                                               (fmul b ratio))))
                  with
                  | Ok quotient => Ok (fadd score (fmul idf_ quotient))
                  | Raise e => Raise e
                  end
              | Raise e => Raise e
              end
        | Raise e => Raise e
        end
  | None => Ok score
  end.

Definition bm25_outcome (s : engine) (query doc_id : string) (k1 b : F)
  : result F :=
  match PyDict.get doc_id (documents s) with
  | Some doc =>
      fold_outcome
        (bm25_step_outcome s doc_id (Z.of_nat (length (tokens doc))) k1 b)
        (preprocess_text query) (of_Z 0)
  | None => Ok (of_Z 0)
  end.

Definition search_step_outcome (s : engine) (query : string)
    (results : list hit) (doc_id : string) : result (list hit) :=
  match bm25_outcome s query doc_id k1 b with
  | Ok bm25 =>
      let tf_score := raw_tf_component s (preprocess_text query) doc_id in
      if negb (fits_float tf_score) then Raise OverflowError
      else
        let combined :=
          fadd (fmul bm25 (lit (7 # 10)))
               (fmul (of_Z tf_score) (lit (3 # 10))) in
        if fltb (of_Z 0) combined then
          match PyDict.get doc_id (documents s) with
          | Some doc =>
              Ok (results ++ [{| hit_doc_id := doc_id;
                                 hit_score := combined;
                                 hit_title := title doc;
                                 hit_snippet := content doc;
                                 hit_url := url doc |}])
          | None => Raise KeyError
          end
        else Ok results
  | Raise e => Raise e
  end.

Definition search_outcome (s : engine) (query : string) (top_k : Z)
  : result (list hit) :=
  if total_docs s =? 0 then Ok []
  else
    match fold_outcome (search_step_outcome s query)
                       (PyDict.keys (documents s)) [] with
    | Ok results => Ok (slice_to (sort_by_score_reverse results) top_k)
    | Raise e => Raise e
    end.

(** [x] stands before [y] in [l]. *)
Inductive before {A : Type} : list A -> A -> A -> Prop :=
| before_head (x y : A) (l : list A) : In y l -> before (x :: l) x y
| before_tail (z x y : A) (l : list A) : before l x y -> before (z :: l) x y.

(** The results are in descending order of score. *)
Definition descending (rs : list hit) : Prop :=
  StronglySorted (fun r r' => fltb (hit_score r) (hit_score r') = false) rs.

(** Every score is greater than 0. *)
Definition positive_scores (rs : list hit) : Prop :=
  Forall (fun r => fltb (of_Z 0) (hit_score r) = true) rs.

End Ranking.

(* ================================================================== *)
(** * The properties *)
(* ================================================================== *)

Section Properties.
Context {nltk : NLTK} {num : PyFloat}.

(** The sum of the lengths of the token sequences of the stored
    documents. *)
Definition total_doc_length (s : engine) : Z :=
  fold_right (fun kv acc => Z.of_nat (length (tokens (snd kv))) + acc)
             0 (documents s).

(** Their arithmetic mean, and 0 when nothing is stored. *)
Definition mean_doc_length (s : engine) : Q :=
  match documents s with
  | [] => 0%Q
  | _ :: _ =>
      (inject_Z (total_doc_length s)
       / inject_Z (Z.of_nat (length (documents s))))%Q
  end.

(** [avg_doc_length] holds the number [q]. *)
Definition number_equals (n : number) (q : Q) : Prop :=
  match n with
  | PyInt z => (inject_Z z == q)%Q
  | PyFlt x => x = lit q
  end.

(** The number of distinct ids of a sequence of calls. *)
Definition distinct_ids (calls : list call) : nat :=
  length (nodup string_dec (map call_id calls)).

(** The invariant of the inverted index: a term is a key exactly when it
    occurs in the tokens of some stored document, which is exactly when
    some entry of the term has a positive count; and the count of an entry
    is the number of occurrences of the term in the tokens stored for the
    document of the entry, which is a stored document. *)
Definition index_invariant (s : engine) : Prop :=
  (forall t, PyDict.mem t (inverted_index s) = true
             <-> exists d doc, PyDict.get d (documents s) = Some doc
                               /\ 0 < occurrences t (tokens doc))
  /\ (forall t, PyDict.mem t (inverted_index s) = true
                <-> exists d c, posting s t d = Some c /\ 0 < c)
  /\ (forall t d c, posting s t d = Some c ->
        exists doc, PyDict.get d (documents s) = Some doc
                    /\ c = occurrences t (tokens doc)).

(** Some query token has an entry for the document. *)
Definition matches (s : engine) (query_tokens : list string) (doc_id : string)
  : bool :=
  existsb (fun t => match posting s t doc_id with
                    | Some _ => true
                    | None => false
                    end) query_tokens.

(** The first query token with an entry for the document, and the count
    of the entry. *)
Fixpoint first_match (s : engine) (query_tokens : list string)
    (doc_id : string) : option (string * Z) :=
  match query_tokens with
  | [] => None
  | t :: rest =>
      match posting s t doc_id with
      | Some tf => Some (t, tf)
      | None => first_match s rest doc_id
      end
  end.

(** What [bm25_score] raises at a query token [t] with the entry [tf] for
    the document while [avg_doc_length] is the integer 0, line by line:
    [OverflowError] when [total_docs - df] is too large for a [float];
    [ValueError], from the logarithm, when [total_docs] is negative;
    [OverflowError] when [tf] is too large; and at last
    [ZeroDivisionError], from [doc_length / avg_doc_length]. *)
Definition zero_avg_error (s : engine) (t : string) (tf : Z) : exn :=
  if fits_float (total_docs s - doc_freq s t) then
    if 0 <=? total_docs s then
      if fits_float tf then ZeroDivisionError else OverflowError
    else ValueError
  else OverflowError.

(** The exception of [bm25_score] for a document, if a query token has an
    entry for it, and of [search], for the first stored document with such
    a token. *)
Definition bm25_zero_avg (s : engine) (query_tokens : list string)
    (doc_id : string) : option exn :=
  match first_match s query_tokens doc_id with
  | Some (t, tf) => Some (zero_avg_error s t tf)
  | None => None
  end.

Fixpoint search_zero_avg_exn (s : engine) (query_tokens : list string)
    (doc_ids : list string) : option exn :=
  match doc_ids with
  | [] => None
  | d :: rest =>
      match bm25_zero_avg s query_tokens d with
      | Some e => Some e
      | None => search_zero_avg_exn s query_tokens rest
      end
  end.

(** The counts are positive where there is a key. *)
Definition counts_positive (c : PyDict.dict Z) : Prop :=
  forall t n, PyDict.get t c = Some n -> 0 < n.

(** The entry the document store calls for. *)
Definition store_entry (s : engine) (t d : string) : option Z :=
  match PyDict.get d (documents s) with
  | Some doc =>
      if 0 <? occurrences t (tokens doc)
      then Some (occurrences t (tokens doc)) else None
  | None => None
  end.

(** The index holds exactly the entries the document store calls for, and
    no key without an entry. *)
Definition index_matches_store (s : engine) : Prop :=
  (forall t d, posting s t d = store_entry s t d)
  /\ (forall t, PyDict.mem t (inverted_index s) = true ->
                exists d c, posting s t d = Some c).

End Properties.

(* ================================================================== *)
(** * Worked inputs *)
(* ================================================================== *)

(** A stemmer that leaves every word as it is, for the worked inputs. *)
Definition no_stemming (w : string) : string := w.

Definition cats_call : call :=
  {| call_id := "d1"; call_title := "Cats"; call_content := "cats purr";
     call_url := "http://example.org/cats" |}.

Definition dogs_call : call :=
  {| call_id := "d2"; call_title := "Dogs"; call_content := "dogs bark";
     call_url := "http://example.org/dogs" |}.

Definition kittens_call : call :=
  {| call_id := "d3"; call_title := "Cats"; call_content := "cats purr";
     call_url := "http://example.org/kittens" |}.

Definition example_calls : list call := [cats_call; dogs_call; kittens_call].

(** The assignment [engine.avg_doc_length = avg]. *)
Definition with_avg_doc_length {num : PyFloat} (avg : number) (s : engine)
  : engine :=
  {| documents := documents s;
     inverted_index := inverted_index s;
     avg_doc_length := avg;
     total_docs := total_docs s |}.

(** Whether no word of the cleaned text is one of the contractions that
    the tokenizer cuts in two. *)
Definition no_contraction (text : string) : bool :=
  forallb (fun w => match contraction_of w CONTRACTIONS2 with
                    | None => true
                    | Some _ => false
                    end)
          (split (strip_non_letters (lower text))).

(* ================================================================== *)
(** * Calls of [add_document], taken together *)
(* ================================================================== *)

Section Calls.
Context {nltk : NLTK} {num : PyFloat}.

(** The tokens [add_document] computes for a call, and the record it
    stores. *)
Definition call_tokens (c : call) : list string :=
  preprocess_text (call_title c ++ " " ++ call_content c)%string.

Definition call_record (c : call) : document :=
  {| title := call_title c;
     content := (substring 0 200 (call_content c) ++ "...")%string;
     url := call_url c;
     tokens := call_tokens c |}.

(** The occurrences of [t] in the texts of the calls made with the id
    [d], all together. *)
Definition occurrences_under (calls : list call) (t d : string) : Z :=
  fold_right
    (fun c acc =>
       (if String.eqb d (call_id c) then occurrences t (call_tokens c) else 0)
       + acc)
    0 calls.

(** An entry holds a count when the count is positive. *)
Definition positive_count (n : Z) : option Z :=
  if 0 <? n then Some n else None.

(** The last call made with the id [d]. *)
Definition last_call (d : string) (calls : list call) : option call :=
  find (fun c => String.eqb d (call_id c)) (rev calls).

(** The tokens of all the calls. *)
Definition all_tokens (calls : list call) : list string :=
  flat_map call_tokens calls.

(** No key of the index is bound to an empty dictionary. *)
Definition no_empty_entry (s : engine) : Prop :=
  forall t, PyDict.mem t (inverted_index s) = true ->
            exists d c, posting s t d = Some c.

End Calls.

(* ================================================================== *)
(** * The crawler: [crawl] of [src/crawler.py] *)
(* ================================================================== *)

(** [f"doc_{doc_id}"]: the decimal digits of the counter after [doc_]. *)
Definition doc_name (doc_id : nat) : string :=
  ("doc_" ++ DecimalString.NilEmpty.string_of_uint (Nat.to_uint doc_id))%string.

(** [self.visited_urls.add(url)] on the set of visited URLs. *)
Definition set_add (url : string) (visited : list string) : list string :=
  if str_in url visited then visited else visited ++ [url].

(** What the [try] block of one iteration meets, after the request for the
    URL: an exception before anything is extracted ([session.get],
    [raise_for_status], [extract_content]); a response that is not HTML; or
    a page, with the title and the content [extract_content] returns and
    the links [extract_links] returns, or [None] where it raises. *)
Inductive response :=
| Failed
| NotHtml
| Page (title_ content_ : string) (links : option (list string)).

(** The web: what the [n]-th request of a crawl, for a URL, meets. *)
Definition web := nat -> string -> response.

(** The attributes of [WebCrawler] that [crawl] uses: [to_visit] holds the
    pairs [(url, depth)], the next one first. *)
Record crawler := {
  max_pages : Z;
  visited_urls : list string;
  to_visit : list (string * Z)
}.

(** [WebCrawler(max_pages)] *)
Definition WebCrawler (max_pages_ : Z) : crawler :=
  {| max_pages := max_pages_; visited_urls := []; to_visit := [] |}.

Section Crawler.
Context {nltk : NLTK} {num : PyFloat}.

(** The state of the loop of [crawl]: the crawler, the engine, the counter
    [doc_id], and the URLs requested so far (the lines [Crawling: ...] it
    prints), in order. *)
Record crawl_state := {
  crawl_self : crawler;
  crawl_engine : engine;
  crawl_doc_id : nat;
  crawled : list string
}.

(** [while self.to_visit and len(self.visited_urls) < self.max_pages] *)
Definition crawl_continues (st : crawl_state) : bool :=
  match to_visit (crawl_self st) with
  | [] => false
  | _ :: _ =>
      Z.of_nat (length (visited_urls (crawl_self st)))
      <? max_pages (crawl_self st)
  end.

(** The body of the loop. *)
Definition crawl_iteration (w : web) (max_depth : Z) (st : crawl_state)
  : crawl_state :=
  let self := crawl_self st in
  match to_visit self with
  | [] => st
  | (url, depth) :: rest =>
      let popped :=
        {| max_pages := max_pages self;
           visited_urls := visited_urls self;
           to_visit := rest |} in
      if str_in url (visited_urls self) || (max_depth <? depth) then
        {| crawl_self := popped;
           crawl_engine := crawl_engine st;
           crawl_doc_id := crawl_doc_id st;
           crawled := crawled st |}
      else
        let crawled' := crawled st ++ [url] in
        match w (length (crawled st)) url with
        | Failed | NotHtml =>
            {| crawl_self := popped;
               crawl_engine := crawl_engine st;
               crawl_doc_id := crawl_doc_id st;
               crawled := crawled' |}
        | Page title_ content_ links =>
            let visited' := set_add url (visited_urls self) in
            if negb (String.eqb content_ "")
               && (100 <? String.length content_)%nat
            then
              let engine' :=
                add_document (doc_name (crawl_doc_id st)) title_ content_ url
                             (crawl_engine st) in
              let doc_id' := S (crawl_doc_id st) in
              if depth <? max_depth then
                match links with
                | None =>
                    {| crawl_self := popped;
                       crawl_engine := engine';
                       crawl_doc_id := doc_id';
                       crawled := crawled' |}
                | Some new_links =>
                    let fresh :=
                      filter (fun link =>
                                negb (str_in link (visited_urls self)))
                             new_links in
                    {| crawl_self :=
                         {| max_pages := max_pages self;
                            visited_urls := visited';
                            to_visit :=
                              rest ++ map (fun link => (link, depth + 1))
                                          fresh |};
                       crawl_engine := engine';
                       crawl_doc_id := doc_id';
                       crawled := crawled' |}
                end
              else
                {| crawl_self :=
                     {| max_pages := max_pages self;
                        visited_urls := visited';
                        to_visit := rest |};
                   crawl_engine := engine';
                   crawl_doc_id := doc_id';
                   crawled := crawled' |}
            else
              {| crawl_self :=
                   {| max_pages := max_pages self;
                      visited_urls := visited';
                      to_visit := rest |};
                 crawl_engine := crawl_engine st;
                 crawl_doc_id := crawl_doc_id st;
                 crawled := crawled' |}
        end
  end.

(** The loop, for at most [fuel] iterations: [None] when the loop has not
    ended by then. *)
Fixpoint crawl_loop (fuel : nat) (w : web) (max_depth : Z) (st : crawl_state)
  : option crawl_state :=
  match fuel with
  | O => if crawl_continues st then None else Some st
  | S fuel' =>
      if crawl_continues st
      then crawl_loop fuel' w max_depth (crawl_iteration w max_depth st)
      else Some st
  end.

(** [crawl(self, start_urls, search_engine, max_depth)]: the state when
    the loop has ended. *)
Definition crawl (fuel : nat) (w : web) (self : crawler)
    (start_urls : list string) (search_engine : engine) (max_depth : Z)
  : option crawl_state :=
  crawl_loop fuel w max_depth
    {| crawl_self :=
         {| max_pages := max_pages self;
            visited_urls := visited_urls self;
            to_visit := to_visit self ++ map (fun url => (url, 0)) start_urls |};
       crawl_engine := search_engine;
       crawl_doc_id := O;
       crawled := [] |}.

(** The calls [add_document] that index the pages [doc_0], [doc_1], ... *)
Definition numbered_from (first : nat) (calls : list call) : Prop :=
  map call_id calls = map doc_name (seq first (length calls)).

(** The pages that may still be marked visited before the loop stops. *)
Definition pages_left (st : crawl_state) : nat :=
  Z.to_nat (max_pages (crawl_self st)
            - Z.of_nat (length (visited_urls (crawl_self st)))).

(** The pages indexed so far, as calls of [add_document] on the engine
    the crawl started with. *)
Definition indexed_by (e0 : engine) (st : crawl_state) (calls : list call)
  : Prop :=
  crawl_engine st = add_documents calls e0
  /\ length calls = crawl_doc_id st
  /\ numbered_from 0 calls
  /\ Forall (fun c => (100 < String.length (call_content c))%nat) calls
  /\ (length calls <= length (crawled st))%nat.

(** [extract_links] raises on no page. *)
Definition links_never_fail (w : web) : Prop :=
  forall n url title_ content_, w n url <> Page title_ content_ None.

End Crawler.

(* ================================================================== *)
(** * The API: the endpoints of [src/app.py] *)
(* ================================================================== *)

(** [s.lstrip()], [s.rstrip()] and [s.strip()]: the white space at the two
    ends is removed. *)
Fixpoint lstrip (s : string) : string :=
  match s with
  | EmptyString => EmptyString
  | String c s' => if is_space c then lstrip s' else s
  end.

Fixpoint rstrip (s : string) : string :=
  match s with
  | EmptyString => EmptyString
  | String c s' =>
      match rstrip s' with
      | EmptyString => if is_space c then EmptyString else String c EmptyString
      | r => String c r
      end
  end.

Definition strip (s : string) : string := rstrip (lstrip s).

(** The text has no character but white space. *)
Fixpoint all_space (s : string) : bool :=
  match s with
  | EmptyString => true
  | String c s' => is_space c && all_space s'
  end.

(** What a request gets: the body the endpoint returns, the
    [HTTPException] it raises, or an exception it does not catch. *)
Inductive reply (A : Type) :=
| Replied (body : A)
| HTTPException (status_code : Z) (detail : string)
| Unhandled (e : exn).
Arguments Replied {A} body.
Arguments HTTPException {A} status_code detail.
Arguments Unhandled {A} e.

Section Api.
Context {nltk : NLTK} {num : PyFloat}.

(** [SearchResponse], without [search_time], which is read off the
    clock. *)
Record SearchResponse := {
  response_query : string;
  response_results : list hit;
  total_results : Z
}.

(** The endpoint [GET /search], on the engine of the process. *)
Definition search_endpoint (q : string) (limit : Z) (search_engine : engine)
  : reply SearchResponse * engine :=
  match strip q with
  | EmptyString => (HTTPException 400 "Query cannot be empty", search_engine)
  | _ =>
      match search q limit search_engine with
      | (Ok results, search_engine') =>
          (Replied {| response_query := q;
                      response_results := results;
                      total_results := Z.of_nat (length results) |},
           search_engine')
      | (Raise e, search_engine') => (Unhandled e, search_engine')
      end
  end.

(** The body of [GET /stats], without the constant status. *)
Record stats := {
  total_documents : Z;
  index_size : Z
}.

Definition get_stats (search_engine : engine) : stats :=
  {| total_documents := total_docs search_engine;
     index_size := PyDict.len (inverted_index search_engine) |}.

(** [startup_event]: the index on disk is loaded into the new engine of
    the process. *)
Definition startup_event (d : disk) : engine :=
  snd (load_index __init__ d).

(** [crawl_background] of [POST /crawl]: a new crawler crawls from the
    URLs of the request into the engine, with the default depth bound 2,
    and the index is saved. *)
Definition crawl_background (fuel : nat) (w : web) (urls : list string)
    (max_pages_ : Z) (search_engine : engine) (d : disk)
  : option (engine * disk) :=
  match crawl fuel w (WebCrawler max_pages_) urls search_engine 2 with
  | Some st => Some (crawl_engine st, save_index (crawl_engine st) d)
  | None => None
  end.

(** The states of a process that serves requests one at a time: it starts
    by loading whatever the disk holds, and each accepted crawl request (the
    list of URLs is not empty) runs [crawl_background] to its end.
    [GET /search] and [GET /stats] change nothing. *)
Inductive served : engine -> disk -> Prop :=
| served_start (d : disk) : served (startup_event d) d
| served_crawl (e : engine) (d : disk) (fuel : nat) (w : web)
    (urls : list string) (max_pages_ : Z) (e' : engine) (d' : disk) :
    served e d ->
    urls <> [] ->
    crawl_background fuel w urls max_pages_ e d = Some (e', d') ->
    served e' d'.

End Api.

(* ================================================================== *)
(** * Dictionaries: lookup after assignment *)
(* ================================================================== *)

Section DictFacts.
Variable V : Type.
Implicit Types (d : PyDict.dict V) (k : string) (v : V).

Lemma get_set_same k v d : PyDict.get k (PyDict.set k v d) = Some v.
Proof.
  induction d as [|[k' v'] d IH]; simpl.
  - now rewrite String.eqb_refl.
  - destruct (String.eqb k k') eqn:E; simpl; rewrite E; auto.
Qed.

Lemma get_set_other k k' v d :
  k' <> k -> PyDict.get k' (PyDict.set k v d) = PyDict.get k' d.
Proof.
  intros Hne. induction d as [|[k0 v0] d IH]; simpl.
  - destruct (String.eqb k' k) eqn:E; auto.
    apply String.eqb_eq in E. contradiction.
  - destruct (String.eqb k k0) eqn:E; simpl.
    + apply String.eqb_eq in E. subst k0.
      destruct (String.eqb k' k) eqn:E'; auto.
      apply String.eqb_eq in E'. contradiction.
    + now rewrite IH.
Qed.

Lemma get_set k k' v d :
  PyDict.get k' (PyDict.set k v d)
  = if String.eqb k' k then Some v else PyDict.get k' d.
Proof.
  destruct (String.eqb k' k) eqn:E.
  - apply String.eqb_eq in E. subst. apply get_set_same.
  - apply String.eqb_neq in E. now apply get_set_other.
Qed.

Lemma mem_set k k' v d :
  PyDict.mem k' (PyDict.set k v d) = String.eqb k' k || PyDict.mem k' d.
Proof.
  unfold PyDict.mem. rewrite get_set. now destruct (String.eqb k' k).
Qed.

Lemma mem_in_keys k d : PyDict.mem k d = true <-> In k (PyDict.keys d).
Proof.
  unfold PyDict.mem. induction d as [|[k' v'] d IH]; simpl.
  - split; [discriminate | tauto].
  - destruct (String.eqb k k') eqn:E.
    + apply String.eqb_eq in E. subst. tauto.
    + apply String.eqb_neq in E. rewrite IH. split; [tauto|].
      intros [H|H]; [congruence | exact H].
Qed.

Lemma get_none_not_in k d : PyDict.get k d = None <-> ~ In k (PyDict.keys d).
Proof.
  rewrite <- mem_in_keys. unfold PyDict.mem.
  destruct (PyDict.get k d); split; intros; congruence.
Qed.

Lemma in_keys_get k d : In k (PyDict.keys d) -> exists v, PyDict.get k d = Some v.
Proof.
  intros H. destruct (PyDict.get k d) eqn:E; eauto.
  apply get_none_not_in in E. contradiction.
Qed.

Lemma keys_set k v d :
  PyDict.keys (PyDict.set k v d)
  = if PyDict.mem k d then PyDict.keys d else PyDict.keys d ++ [k].
Proof.
  unfold PyDict.mem. induction d as [|[k' v'] d IH]; simpl; auto.
  destruct (String.eqb k k') eqn:E; simpl; auto.
  rewrite IH. now destruct (PyDict.get k d).
Qed.

Lemma keys_set_nodup k v d :
  NoDup (PyDict.keys d) -> NoDup (PyDict.keys (PyDict.set k v d)).
Proof.
  intros H. rewrite keys_set. destruct (PyDict.mem k d) eqn:E; auto.
  apply NoDup_app; auto.
  - repeat constructor. simpl. tauto.
  - intros x Hx [Hk|[]]. subst x.
    apply mem_in_keys in Hx. congruence.
Qed.

End DictFacts.


(* ================================================================== *)
(** * The ranker reads the state and leaves it as it was *)
(* ================================================================== *)

Section RankerRuns.
Context {nltk : NLTK} {num : PyFloat}.

Lemma for_each_run {A B} (body : A -> B -> M A) (f : A -> B -> result A)
    (s : engine) :
  (forall acc x, body acc x s = (f acc x, s)) ->
  forall xs acc, for_each xs body acc s = (fold_outcome f xs acc, s).
Proof.
  intros Hbody. induction xs as [|x xs IH]; intros acc; simpl.
  - reflexivity.
  - unfold bind. rewrite Hbody. destruct (f acc x); auto.
Qed.

Lemma fold_outcome_ok {A B} (g : A -> B -> A) (xs : list B) (acc : A) :
  fold_outcome (fun a x => Ok (g a x)) xs acc = Ok (fold_left g xs acc).
Proof.
  revert acc. induction xs as [|x xs IH]; intros acc; simpl; auto.
Qed.

Lemma index_getitem_run (s : engine) (token : string) (inner : PyDict.dict Z) :
  PyDict.get token (inverted_index s) = Some inner ->
  index_getitem token s = (Ok inner, s).
Proof.
  intros H. destruct s as [ds idx avg n]. simpl in H.
  unfold index_getitem, defaultdict_getitem. simpl. now rewrite H.
Qed.

Lemma posting_hit_run (s : engine) (token doc_id : string) :
  posting_hit token doc_id s
  = (Ok (match posting s token doc_id with Some _ => true | None => false end),
     s).
Proof.
  unfold posting_hit, bind, get_self, posting, index_entry, PyDict.mem.
  destruct (PyDict.get token (inverted_index s)) as [inner|] eqn:E.
  - rewrite (index_getitem_run s token E). reflexivity.
  - reflexivity.
Qed.

Lemma truediv_run (x y : F) (s : engine) :
  truediv x y s = (truediv_outcome x y, s).
Proof.
  unfold truediv, truediv_outcome. now destruct (fis_zero y).
Qed.

Lemma truediv_number_run (n : Z) (y : number) (s : engine) :
  truediv_number n y s = (truediv_number_outcome n y, s).
Proof.
  destruct y as [z|x]; simpl.
  - now destruct (z =? 0).
  - apply truediv_run.
Qed.

Lemma bm25_step_run (s : engine) (doc_id : string) (dl : Z) (k1 b score : F)
    (token : string) :
  bm25_step doc_id dl k1 b score token s
  = (bm25_step_outcome s doc_id dl k1 b score token, s).
Proof.
  unfold bm25_step, bm25_step_outcome, bind.
  rewrite posting_hit_run.
  unfold posting, index_entry, idf_argument, doc_freq.
  destruct (PyDict.get token (inverted_index s)) as [inner|] eqn:E;
    [|reflexivity].
  destruct (PyDict.get doc_id inner) as [tf|] eqn:E'; [|reflexivity].
  rewrite (index_getitem_run s token E).
  unfold getitem. rewrite E'. unfold ret.
  rewrite (index_getitem_run s token E). unfold get_self.
  unfold float_of_int, ret, raise.
  destruct (fits_float (total_docs s - PyDict.len inner)); [|reflexivity].
  cbn [negb]. unfold math_log, math_log_outcome, ret, raise.
  match goal with |- context [fltb ?x ?y] =>
    destruct (fltb x y) end; [|reflexivity].
  destruct (fits_float tf); [|reflexivity].
  cbn [negb]. rewrite truediv_number_run.
  destruct (truediv_number_outcome dl (avg_doc_length s)) as [ratio|e];
    [|reflexivity].
  rewrite truediv_run.
  match goal with |- context [truediv_outcome ?x ?y] =>
    destruct (truediv_outcome x y) end; reflexivity.
Qed.

Lemma bm25_score_with_run (s : engine) (query doc_id : string) (k1 b : F) :
  bm25_score_with query doc_id k1 b s = (bm25_outcome s query doc_id k1 b, s).
Proof.
  unfold bm25_score_with, bm25_outcome, bind, get_self, PyDict.mem, getitem.
  destruct (PyDict.get doc_id (documents s)) as [doc|]; simpl.
  - unfold ret. apply for_each_run. intros acc x. apply bm25_step_run.
  - reflexivity.
Qed.

Lemma tf_step_run (s : engine) (doc_id : string) (tf_score : Z)
    (token : string) :
  tf_step doc_id tf_score token s
  = (Ok (match posting s token doc_id with
         | Some tf => tf_score + tf
         | None => tf_score
         end), s).
Proof.
  unfold tf_step, bind. rewrite posting_hit_run. unfold posting, index_entry.
  destruct (PyDict.get token (inverted_index s)) as [inner|] eqn:E;
    [|reflexivity].
  destruct (PyDict.get doc_id inner) as [tf|] eqn:E'; [|reflexivity].
  rewrite (index_getitem_run s token E). unfold getitem. now rewrite E'.
Qed.

Lemma search_step_run (s : engine) (query : string) (results : list hit)
    (doc_id : string) :
  search_step query (preprocess_text query) results doc_id s
  = (search_step_outcome s query results doc_id, s).
Proof.
  unfold search_step, search_step_outcome, bind, bm25_score.
  rewrite bm25_score_with_run. fold k1 b.
  destruct (bm25_outcome s query doc_id k1 b) as [bm25|e]; [|reflexivity].
  rewrite (for_each_run (tf_step doc_id)
             (fun acc t => Ok (match posting s t doc_id with
                               | Some tf => acc + tf
                               | None => acc
                               end))
             (tf_step_run s doc_id)).
  rewrite fold_outcome_ok.
  fold (raw_tf_component s (preprocess_text query) doc_id).
  unfold float_of_int, ret, raise.
  destruct (fits_float (raw_tf_component s (preprocess_text query) doc_id));
    [|reflexivity].
  cbn [negb].
  match goal with |- context [fltb ?x ?y] => destruct (fltb x y) end;
    [|reflexivity].
  unfold get_self, getitem.
  destruct (PyDict.get doc_id (documents s)); reflexivity.
Qed.

Lemma search_run (s : engine) (query : string) (top_k : Z) :
  search query top_k s = (search_outcome s query top_k, s).
Proof.
  unfold search, search_outcome, bind, get_self.
  destruct (total_docs s =? 0); [reflexivity|].
  rewrite (for_each_run _ (search_step_outcome s query)
             (search_step_run s query)).
  destruct (fold_outcome _ _ _); reflexivity.
Qed.

End RankerRuns.

(* ================================================================== *)
(** * The outcome of [search] when it returns *)
(* ================================================================== *)

Section RankerReturns.
Context {nltk : NLTK} {num : PyFloat}.

Lemma truediv_number_ok (n : Z) (y : number) (ratio : F) :
  truediv_number_outcome n y = Ok ratio ->
  ratio = fdiv (of_Z n) (number_value y).
Proof.
  destruct y as [z|x]; simpl.
  - destruct (z =? 0); congruence.
  - unfold truediv_outcome. destruct (fis_zero x); congruence.
Qed.

Lemma bm25_step_ok (s : engine) (doc_id : string) (score x : F)
    (token : string) :
  bm25_step_outcome s doc_id (doc_length_of s doc_id) k1 b score token = Ok x ->
  x = match posting s token doc_id with
      | Some tf => fadd score (contribution s doc_id token tf)
      | None => score
      end.
Proof.
  unfold bm25_step_outcome, math_log_outcome.
  destruct (posting s token doc_id) as [tf|]; [|congruence].
  destruct (fits_float (total_docs s - doc_freq s token)); [|discriminate].
  cbn [negb].
  destruct (fltb (of_Z 0) (idf_argument s token)); [|discriminate].
  destruct (fits_float tf); [|discriminate]. cbn [negb].
  destruct (truediv_number_outcome _ _) as [ratio|e] eqn:E; [|discriminate].
  apply truediv_number_ok in E. subst ratio.
  unfold truediv_outcome. destruct (fis_zero _); [discriminate|].
  intros H. injection H as <-. reflexivity.
Qed.

Lemma bm25_fold_ok (s : engine) (doc_id : string) (qts : list string) :
  forall (acc x : F),
  fold_outcome (bm25_step_outcome s doc_id (doc_length_of s doc_id) k1 b)
               qts acc = Ok x ->
  x = fold_left
        (fun acc token =>
           match posting s token doc_id with
           | Some tf => fadd acc (contribution s doc_id token tf)
           | None => acc
           end) qts acc.
Proof.
  induction qts as [|t qts IH]; intros acc x; simpl.
  - congruence.
  - destruct (bm25_step_outcome _ _ _ _ _ acc t) as [acc'|e] eqn:E;
      [|discriminate].
    apply bm25_step_ok in E. subst acc'. apply IH.
Qed.

Lemma bm25_outcome_ok (s : engine) (query doc_id : string) (doc : document)
    (x : F) :
  PyDict.get doc_id (documents s) = Some doc ->
  bm25_outcome s query doc_id k1 b = Ok x ->
  x = bm25_component s (preprocess_text query) doc_id.
Proof.
  intros Hdoc. unfold bm25_outcome. rewrite Hdoc.
  replace (Z.of_nat (length (tokens doc))) with (doc_length_of s doc_id)
    by (unfold doc_length_of; now rewrite Hdoc).
  apply bm25_fold_ok.
Qed.

Lemma search_step_ok (s : engine) (query : string) (results rs : list hit)
    (doc_id : string) :
  search_step_outcome s query results doc_id = Ok rs ->
  rs = results ++ scored_hit s (preprocess_text query) doc_id.
Proof.
  unfold search_step_outcome, scored_hit, combined_score.
  destruct (bm25_outcome s query doc_id k1 b) as [bm25|e] eqn:E;
    [|discriminate].
  destruct (fits_float _); [|discriminate]. cbn [negb].
  destruct (PyDict.get doc_id (documents s)) as [doc|] eqn:Hdoc.
  - apply bm25_outcome_ok with (doc := doc) in E; [|exact Hdoc]. subst bm25.
    rewrite (fmul_comm (lit (7 # 10))), (fmul_comm (lit (3 # 10))).
    destruct (fltb _ _); intros H; injection H as <-; auto using app_nil_r.
  - destruct (fltb _ _); [discriminate|].
    intros H; injection H as <-. now rewrite app_nil_r.
Qed.

Lemma search_fold_ok (s : engine) (query : string) (ds : list string) :
  forall acc rs,
  fold_outcome (search_step_outcome s query) ds acc = Ok rs ->
  rs = acc ++ flat_map (scored_hit s (preprocess_text query)) ds.
Proof.
  induction ds as [|d ds IH]; intros acc rs; simpl.
  - intros H; injection H as <-. now rewrite app_nil_r.
  - destruct (search_step_outcome s query acc d) as [acc'|e] eqn:E;
      [|discriminate].
    apply search_step_ok in E. subst acc'. intros H. apply IH in H.
    now rewrite <- app_assoc in H.
Qed.

(** When [search] returns, it returns the first [top_k] elements of the
    ranking (and nothing when [total_docs] is zero). *)
Lemma search_outcome_ok (s : engine) (query : string) (top_k : Z)
    (rs : list hit) :
  search_outcome s query top_k = Ok rs ->
  rs = if total_docs s =? 0 then [] else slice_to (ranking s query) top_k.
Proof.
  unfold search_outcome. destruct (total_docs s =? 0).
  - intros H. now injection H as <-.
  - destruct (fold_outcome _ _ _) as [results|e] eqn:E; [|discriminate].
    apply search_fold_ok in E. simpl in E. subst results.
    intros H. now injection H as <-.
Qed.

(** ** Sorting *)

Lemma insert_by_score_perm (r : hit) (l : list hit) :
  Permutation (insert_by_score r l) (r :: l).
Proof.
  induction l as [|r' l IH]; simpl; auto.
  destruct (fltb (hit_score r) (hit_score r')); auto.
  rewrite IH. apply perm_swap.
Qed.

Lemma sort_by_score_reverse_perm (l : list hit) :
  Permutation (sort_by_score_reverse l) l.
Proof.
  induction l as [|r l IH]; simpl; auto.
  rewrite insert_by_score_perm. now constructor.
Qed.

Lemma insert_by_score_descending (r : hit) (l : list hit) :
  positive_scores (r :: l) ->
  descending l -> descending (insert_by_score r l).
Proof.
  unfold descending, positive_scores.
  induction l as [|r' l IH]; intros Hp Hs; simpl.
  - repeat constructor.
  - inversion Hs as [|? ? Hl Hall]; subst.
    inversion Hp as [|? ? Hr Hp']; subst.
    inversion Hp' as [|? ? Hr' Hpl]; subst.
    destruct (fltb (hit_score r) (hit_score r')) eqn:E.
    + constructor; auto.
      rewrite (insert_by_score_perm r l). constructor; auto.
      now apply fltb_asym.
    + constructor; auto. constructor; auto.
      rewrite Forall_forall in *. intros x Hx.
      apply fltb_negtrans with (y := hit_score r'); auto.
Qed.

Lemma sort_by_score_reverse_positive (l : list hit) :
  positive_scores l -> positive_scores (sort_by_score_reverse l).
Proof.
  unfold positive_scores. intros H.
  now rewrite (sort_by_score_reverse_perm l).
Qed.

Lemma sort_by_score_reverse_descending (l : list hit) :
  positive_scores l -> descending (sort_by_score_reverse l).
Proof.
  induction l as [|r l IH]; intros Hp; simpl.
  - constructor.
  - inversion Hp as [|? ? Hr Hpl]; subst.
    apply insert_by_score_descending; auto.
    constructor; auto. now apply sort_by_score_reverse_positive.
Qed.

Lemma firstn_In {A} (n : nat) (l : list A) (x : A) :
  In x (firstn n l) -> In x l.
Proof.
  revert l. induction n as [|n IH]; intros l; simpl.
  - intros [].
  - destruct l as [|y l]; simpl; [intros []|].
    intros [H|H]; auto.
Qed.

Lemma firstn_descending (n : nat) (l : list hit) :
  descending l -> descending (firstn n l).
Proof.
  unfold descending. revert l. induction n as [|n IH]; intros l Hs; simpl.
  - constructor.
  - destruct l as [|r l]; [constructor|].
    inversion Hs; subst. constructor; auto.
    rewrite Forall_forall in *. intros x Hx. eauto using firstn_In.
Qed.

Lemma slice_to_descending (l : list hit) (top_k : Z) :
  descending l -> descending (slice_to l top_k).
Proof.
  unfold slice_to. destruct (0 <=? top_k); apply firstn_descending.
Qed.

Lemma slice_to_In {A} (l : list A) (top_k : Z) (x : A) :
  In x (slice_to l top_k) -> In x l.
Proof.
  unfold slice_to. destruct (0 <=? top_k); apply firstn_In.
Qed.

(** ** Order of the elements *)

Lemma before_In {A} (l : list A) (x y : A) :
  before l x y -> In x l /\ In y l.
Proof.
  induction 1 as [x y l H|z x y l H IH]; simpl; tauto.
Qed.

Lemma before_firstn {A} (n : nat) (l : list A) (x y : A) :
  before (firstn n l) x y -> before l x y.
Proof.
  revert l. induction n as [|n IH]; intros l; simpl.
  - inversion 1.
  - destruct l as [|z l]; [inversion 1|].
    inversion 1; subst.
    + apply before_head. eauto using firstn_In.
    + apply before_tail. auto.
Qed.

Lemma before_slice_to {A} (l : list A) (top_k : Z) (x y : A) :
  before (slice_to l top_k) x y -> before l x y.
Proof.
  unfold slice_to. destruct (0 <=? top_k); apply before_firstn.
Qed.

Lemma before_app_r {A} (l1 l2 : list A) (x y : A) :
  before l2 x y -> before (l1 ++ l2) x y.
Proof.
  induction l1; simpl; auto using before_tail.
Qed.

Lemma before_app {A} (l1 l2 : list A) (x y : A) :
  before (l1 ++ l2) x y ->
  before l1 x y \/ (In x l1 /\ In y l2) \/ before l2 x y.
Proof.
  induction l1 as [|z l1 IH]; simpl; auto.
  inversion 1 as [? ? ? Hy|? ? ? ? Hb]; subst.
  - apply in_app_or in Hy. destruct Hy.
    + left. now apply before_head.
    + right. left. simpl. tauto.
  - destruct (IH Hb) as [H1|[[H1 H2]|H1]].
    + left. now apply before_tail.
    + right. left. simpl. tauto.
    + tauto.
Qed.

(** In the list with [r] inserted, an element in front of another was
    already in front of it, or it has a strictly greater score than [r],
    which follows it. *)
Lemma insert_by_score_before (r : hit) (l : list hit) (x y : hit) :
  before (insert_by_score r l) x y ->
  before (r :: l) x y
  \/ (y = r /\ In x l /\ fltb (hit_score r) (hit_score x) = true).
Proof.
  induction l as [|r' l IH]; simpl.
  - auto.
  - destruct (fltb (hit_score r) (hit_score r')) eqn:E; [|auto].
    inversion 1 as [? ? ? Hy|? ? ? ? Hb]; subst.
    + apply (Permutation_in _ (insert_by_score_perm r l)) in Hy.
      destruct Hy as [<-|Hy].
      * right. simpl. auto.
      * left. apply before_tail. now apply before_head.
    + destruct (IH Hb) as [H1|(-> & H1 & H2)].
      * left. inversion H1; subst.
        -- apply before_head. simpl. auto.
        -- now do 2 apply before_tail.
      * right. simpl. auto.
Qed.

(** The sort is stable: an element moves in front of an earlier one only
    with a strictly greater score. *)
Lemma sort_by_score_reverse_before (l : list hit) (x y : hit) :
  before (sort_by_score_reverse l) x y ->
  before l x y \/ fltb (hit_score y) (hit_score x) = true.
Proof.
  revert x y. induction l as [|r l IH]; intros x y; simpl.
  - inversion 1.
  - intros H. apply insert_by_score_before in H.
    destruct H as [H|(-> & _ & H)]; [|auto].
    inversion H as [? ? ? Hy|? ? ? ? Hb]; subst.
    + left. apply before_head.
      now apply (Permutation_in _ (sort_by_score_reverse_perm l)).
    + destruct (IH _ _ Hb); auto using before_tail.
Qed.

Lemma scored_hit_id (s : engine) (qts : list string) (d : string) (r : hit) :
  In r (scored_hit s qts d) ->
  hit_doc_id r = d
  /\ hit_score r = combined_score s qts d
  /\ fltb (of_Z 0) (hit_score r) = true
  /\ exists doc, PyDict.get d (documents s) = Some doc
       /\ hit_title r = title doc /\ hit_snippet r = content doc
       /\ hit_url r = url doc.
Proof.
  unfold scored_hit.
  destruct (PyDict.get d (documents s)) as [doc|]; [|inversion 1].
  destruct (fltb _ _) eqn:E; [|inversion 1].
  intros [<-|[]]. simpl. eauto 10.
Qed.

Lemma scored_hit_before (s : engine) (qts : list string) (d : string)
    (x y : hit) :
  ~ before (scored_hit s qts d) x y.
Proof.
  unfold scored_hit.
  destruct (PyDict.get d (documents s)); [|inversion 1].
  destruct (fltb _ _); inversion 1 as [? ? ? Hy|? ? ? ? Hb]; subst.
  - destruct Hy.
  - inversion Hb.
Qed.

Lemma flat_map_scored_hit_before (s : engine) (qts : list string)
    (ds : list string) (x y : hit) :
  before (flat_map (scored_hit s qts) ds) x y ->
  before ds (hit_doc_id x) (hit_doc_id y).
Proof.
  induction ds as [|d ds IH]; simpl.
  - inversion 1.
  - intros H. apply before_app in H. destruct H as [H|[[Hx Hy]|H]].
    + now apply scored_hit_before in H.
    + apply scored_hit_id in Hx. destruct Hx as [-> _].
      apply before_head. apply in_flat_map in Hy.
      destruct Hy as (d' & Hd' & Hy). apply scored_hit_id in Hy.
      destruct Hy as [-> _]. exact Hd'.
    + apply before_tail. auto.
Qed.

(** ** The ranking is sorted, and what is cut off has no greater score *)

Lemma scored_hits_positive (s : engine) (qts : list string)
    (ds : list string) :
  positive_scores (flat_map (scored_hit s qts) ds).
Proof.
  apply Forall_forall. intros r Hr. apply in_flat_map in Hr.
  destruct Hr as (d & _ & Hr). apply scored_hit_id in Hr. tauto.
Qed.

Lemma ranking_descending (s : engine) (query : string) :
  descending (ranking s query).
Proof.
  apply sort_by_score_reverse_descending, scored_hits_positive.
Qed.

(** The hit of a stored document with a positive score is in the
    ranking. *)
Lemma ranking_complete (s : engine) (query : string) (d : string) :
  In d (PyDict.keys (documents s)) ->
  fltb (of_Z 0) (combined_score s (preprocess_text query) d) = true ->
  exists r, In r (ranking s query)
            /\ hit_doc_id r = d
            /\ hit_score r = combined_score s (preprocess_text query) d.
Proof.
  intros Hd Hpos. pose proof Hd as Hdoc. apply in_keys_get in Hdoc.
  destruct Hdoc as [doc Hdoc].
  eexists. split; [|split].
  - unfold ranking.
    apply (Permutation_in _
             (Permutation_sym (sort_by_score_reverse_perm _))).
    apply in_flat_map. exists d. split; [exact Hd|].
    unfold scored_hit. rewrite Hdoc, Hpos. left. reflexivity.
  - reflexivity.
  - reflexivity.
Qed.

Lemma descending_app (l1 l2 : list hit) :
  descending (l1 ++ l2) ->
  forall x y, In x l1 -> In y l2 -> fltb (hit_score x) (hit_score y) = false.
Proof.
  unfold descending. induction l1 as [|z l1 IH]; simpl; intros Hs x y Hx Hy.
  - destruct Hx.
  - inversion Hs as [|? ? Hl Hall]; subst. destruct Hx as [<-|Hx].
    + rewrite Forall_forall in Hall. apply Hall. apply in_or_app. auto.
    + eauto.
Qed.

(** An element of a sorted list is among the first [n], or there are [n]
    of them and none has a smaller score. *)
Lemma firstn_descending_cut {n : nat} {l : list hit} {x : hit} :
  descending l -> In x l ->
  In x (firstn n l)
  \/ (length (firstn n l) = n
      /\ Forall (fun r => fltb (hit_score r) (hit_score x) = false)
                (firstn n l)).
Proof.
  intros Hs Hx.
  assert (Hx' : In x (firstn n l ++ skipn n l))
    by (rewrite firstn_skipn; exact Hx).
  assert (Hs' : descending (firstn n l ++ skipn n l))
    by (rewrite firstn_skipn; exact Hs).
  apply in_app_or in Hx'. destruct Hx' as [Hx'|Hx']; [auto|right]. split.
  - apply firstn_length_le.
    destruct (Nat.le_gt_cases n (length l)) as [Hle|Hgt]; auto.
    rewrite skipn_all2 in Hx' by lia. destruct Hx'.
  - apply Forall_forall. intros r Hr.
    exact (descending_app _ _ Hs' r x Hr Hx').
Qed.

End RankerReturns.

(* ================================================================== *)
(** * Ingestion *)
(* ================================================================== *)

Section IngestionFacts.
Context {nltk : NLTK} {num : PyFloat}.

Lemma defaultdict_getitem_spec (t : string)
    (index index1 : PyDict.dict (PyDict.dict Z)) (inner : PyDict.dict Z) :
  defaultdict_getitem t index = (inner, index1) ->
  (forall d, PyDict.get d inner = index_entry index t d)
  /\ (forall t' d', index_entry index1 t' d' = index_entry index t' d')
  /\ (forall t', PyDict.mem t' index1 = String.eqb t' t || PyDict.mem t' index).
Proof.
  unfold defaultdict_getitem, index_entry.
  destruct (PyDict.get t index) as [inner0|] eqn:Ht; intros H;
    injection H as <- <-.
  - repeat split; auto. intros t'.
    destruct (String.eqb t' t) eqn:E; auto.
    apply String.eqb_eq in E. subst t'. unfold PyDict.mem. now rewrite Ht.
  - repeat split; auto.
    + intros t' d'. rewrite get_set.
      destruct (String.eqb t' t) eqn:E; auto.
      apply String.eqb_eq in E. subst t'. now rewrite Ht.
    + intros t'. apply mem_set.
Qed.

Lemma index_setitem_entry (t d : string) (v : Z)
    (index : PyDict.dict (PyDict.dict Z)) (t' d' : string) :
  index_entry (index_setitem t d v index) t' d'
  = if String.eqb t' t && String.eqb d' d then Some v
    else index_entry index t' d'.
Proof.
  unfold index_setitem.
  destruct (defaultdict_getitem t index) as [inner index1] eqn:E.
  apply defaultdict_getitem_spec in E. destruct E as (Hin & Hout & _).
  unfold index_entry at 1. rewrite get_set.
  destruct (String.eqb t' t) eqn:Et; simpl.
  - apply String.eqb_eq in Et. subst t'. rewrite get_set.
    destruct (String.eqb d' d); auto.
  - apply Hout.
Qed.

Lemma index_setitem_mem (t d : string) (v : Z)
    (index : PyDict.dict (PyDict.dict Z)) (t' : string) :
  PyDict.mem t' (index_setitem t d v index)
  = String.eqb t' t || PyDict.mem t' index.
Proof.
  unfold index_setitem.
  destruct (defaultdict_getitem t index) as [inner index1] eqn:E.
  apply defaultdict_getitem_spec in E. destruct E as (_ & _ & Hmem).
  rewrite mem_set, Hmem. now destruct (String.eqb t' t).
Qed.

(** One step of the loop of [add_document]: the entry of [(t, d)] grows by
    [c], starting from zero when it was absent; no other entry changes. *)
Lemma index_update_entry (d : string) (index : PyDict.dict (PyDict.dict Z))
    (t : string) (c : Z) (t' d' : string) :
  index_entry (index_update d index (t, c)) t' d'
  = if String.eqb t' t && String.eqb d' d
    then Some (count_or_zero (index_entry index t d) + c)
    else index_entry index t' d'.
Proof.
  unfold index_update.
  destruct (defaultdict_getitem t index) as [inner index1] eqn:E1.
  apply defaultdict_getitem_spec in E1. destruct E1 as (Hin1 & Hout1 & _).
  set (index2 := if PyDict.mem d inner then index1
                 else index_setitem t d 0 index1).
  assert (H2 : forall t' d', index_entry index2 t' d'
            = if String.eqb t' t && String.eqb d' d
              then Some (count_or_zero (index_entry index t d))
              else index_entry index t' d').
  { intros t0 d0. subst index2. unfold PyDict.mem. rewrite Hin1.
    destruct (index_entry index t d) as [n|] eqn:En; simpl.
    - rewrite Hout1.
      destruct (String.eqb t0 t) eqn:Et; simpl; auto.
      destruct (String.eqb d0 d) eqn:Ed; simpl; auto.
      apply String.eqb_eq in Et, Ed. now subst.
    - rewrite index_setitem_entry, Hout1. reflexivity. }
  destruct (defaultdict_getitem t index2) as [inner2 index3] eqn:E3.
  apply defaultdict_getitem_spec in E3. destruct E3 as (Hin3 & Hout3 & _).
  rewrite index_setitem_entry, Hout3, Hin3, !H2.
  rewrite !String.eqb_refl. simpl.
  destruct (String.eqb t' t && String.eqb d' d); reflexivity.
Qed.

Lemma index_update_mem (d : string) (index : PyDict.dict (PyDict.dict Z))
    (t : string) (c : Z) (t' : string) :
  PyDict.mem t' (index_update d index (t, c))
  = String.eqb t' t || PyDict.mem t' index.
Proof.
  unfold index_update.
  destruct (defaultdict_getitem t index) as [inner index1] eqn:E1.
  apply defaultdict_getitem_spec in E1. destruct E1 as (_ & _ & Hm1).
  set (index2 := if PyDict.mem d inner then index1
                 else index_setitem t d 0 index1).
  assert (H2 : PyDict.mem t' index2 = String.eqb t' t || PyDict.mem t' index).
  { subst index2. destruct (PyDict.mem d inner); auto.
    rewrite index_setitem_mem, Hm1. now destruct (String.eqb t' t). }
  destruct (defaultdict_getitem t index2) as [inner2 index3] eqn:E3.
  apply defaultdict_getitem_spec in E3. destruct E3 as (_ & _ & Hm3).
  rewrite index_setitem_mem, Hm3, H2. now destruct (String.eqb t' t).
Qed.

(** The whole loop, over items with pairwise distinct tokens. *)
Lemma index_updates_entry (d : string) (items : PyDict.dict Z) :
  NoDup (PyDict.keys items) ->
  forall (index : PyDict.dict (PyDict.dict Z)) (t' d' : string),
  index_entry (fold_left (index_update d) items index) t' d'
  = match PyDict.get t' items with
    | Some c =>
        if String.eqb d' d
        then Some (count_or_zero (index_entry index t' d) + c)
        else index_entry index t' d'
    | None => index_entry index t' d'
    end.
Proof.
  induction items as [|[t c] items IH]; intros Hnd index t' d';
    cbn [fold_left PyDict.get]; auto.
  simpl in Hnd. inversion Hnd as [|? ? Hnotin Hnd']; subst.
  rewrite (IH Hnd'). rewrite !index_update_entry.
  destruct (String.eqb t' t) eqn:Et; simpl.
  - apply String.eqb_eq in Et. subst t'.
    apply get_none_not_in in Hnotin. now rewrite Hnotin.
  - destruct (PyDict.get t' items); reflexivity.
Qed.

Lemma index_updates_mem (d : string) (items : PyDict.dict Z) :
  forall (index : PyDict.dict (PyDict.dict Z)) (t' : string),
  PyDict.mem t' (fold_left (index_update d) items index)
  = PyDict.mem t' items || PyDict.mem t' index.
Proof.
  induction items as [|[t c] items IH]; intros index t';
    cbn [fold_left]; auto.
  rewrite IH, index_update_mem. unfold PyDict.mem at 3. simpl.
  destruct (String.eqb t' t); simpl.
  - apply orb_true_r.
  - reflexivity.
Qed.

(** ** [Counter] *)

Lemma count_element_get (c : PyDict.dict Z) (t t' : string) :
  count_or_zero (PyDict.get t' (count_element c t))
  = count_or_zero (PyDict.get t' c) + (if String.eqb t' t then 1 else 0).
Proof.
  unfold count_element. rewrite get_set.
  destruct (String.eqb t' t) eqn:E; simpl.
  - apply String.eqb_eq in E. subst t'. now destruct (PyDict.get t c).
  - lia.
Qed.

Lemma occurrences_cons (t t' : string) (ts : list string) :
  occurrences t' (t :: ts)
  = (if String.eqb t' t then 1 else 0) + occurrences t' ts.
Proof.
  unfold occurrences. simpl.
  destruct (string_dec t t') as [->|Hne].
  - rewrite String.eqb_refl. lia.
  - destruct (String.eqb t' t) eqn:E; auto.
    apply String.eqb_eq in E. congruence.
Qed.

Lemma occurrences_pos (t : string) (ts : list string) :
  0 < occurrences t ts <-> In t ts.
Proof.
  unfold occurrences. rewrite (count_occ_In string_dec). lia.
Qed.

Lemma occurrences_nonneg (t : string) (ts : list string) :
  0 <= occurrences t ts.
Proof. unfold occurrences. lia. Qed.

Lemma count_elements_spec (ts : list string) :
  forall c : PyDict.dict Z,
  NoDup (PyDict.keys c) -> counts_positive c ->
  let c' := fold_left count_element ts c in
  NoDup (PyDict.keys c') /\ counts_positive c'
  /\ forall t, count_or_zero (PyDict.get t c')
               = count_or_zero (PyDict.get t c) + occurrences t ts.
Proof.
  induction ts as [|t0 ts IH]; intros c Hnd Hpos; simpl.
  - repeat split; auto. intros t. unfold occurrences. simpl. lia.
  - destruct (IH (count_element c t0)) as (H1 & H2 & H3).
    + now apply keys_set_nodup.
    + intros t n. unfold count_element. rewrite get_set.
      destruct (String.eqb t t0).
      * intros H. injection H as <-.
        destruct (PyDict.get t0 c) as [m|] eqn:E; simpl; [|lia].
        apply Hpos in E. lia.
      * apply Hpos.
    + repeat split; auto. intros t. rewrite H3, count_element_get.
      rewrite occurrences_cons. lia.
Qed.

Lemma Counter_nodup (ts : list string) : NoDup (PyDict.keys (Counter ts)).
Proof.
  apply (count_elements_spec ts (c := [])); [constructor|].
  intros t n. discriminate.
Qed.

(** [Counter(tokens)] has a key for each token that occurs, with the number
    of its occurrences. *)
Lemma Counter_get (ts : list string) (t : string) :
  PyDict.get t (Counter ts)
  = if 0 <? occurrences t ts then Some (occurrences t ts) else None.
Proof.
  destruct (count_elements_spec ts (c := [])) as (_ & Hpos & Hget).
  - constructor.
  - intros t' n. discriminate.
  - specialize (Hget t). simpl in Hget. fold (Counter ts) in Hget, Hpos.
    destruct (PyDict.get t (Counter ts)) as [n|] eqn:E; simpl in Hget.
    + apply Hpos in E. subst n.
      destruct (0 <? occurrences t ts) eqn:E'; auto.
      apply Z.ltb_ge in E'. lia.
    + destruct (0 <? occurrences t ts) eqn:E'; auto.
      apply Z.ltb_lt in E'. lia.
Qed.

(** ** [add_document] *)

(** What [add_document] does to the inverted index: the entry of each
    token of the new text for [doc_id] grows by the number of its
    occurrences, from zero when there was none. *)
Lemma add_document_posting (doc_id title_ content_ url_ : string)
    (s : engine) (t d : string) :
  let ts := preprocess_text (title_ ++ " " ++ content_)%string in
  posting (add_document doc_id title_ content_ url_ s) t d
  = if (0 <? occurrences t ts) && String.eqb d doc_id
    then Some (count_or_zero (posting s t doc_id) + occurrences t ts)
    else posting s t d.
Proof.
  intros ts. unfold posting, add_document. cbn [inverted_index]. fold ts.
  rewrite index_updates_entry by apply Counter_nodup.
  rewrite Counter_get.
  destruct (0 <? occurrences t ts); simpl; auto.
Qed.

Lemma add_document_index_mem (doc_id title_ content_ url_ : string)
    (s : engine) (t : string) :
  let ts := preprocess_text (title_ ++ " " ++ content_)%string in
  PyDict.mem t (inverted_index (add_document doc_id title_ content_ url_ s))
  = (0 <? occurrences t ts) || PyDict.mem t (inverted_index s).
Proof.
  intros ts. unfold add_document. cbn [inverted_index]. fold ts.
  rewrite index_updates_mem. unfold PyDict.mem at 1. rewrite Counter_get.
  now destruct (0 <? occurrences t ts).
Qed.

Lemma add_document_get (doc_id title_ content_ url_ : string) (s : engine)
    (d : string) :
  PyDict.get d (documents (add_document doc_id title_ content_ url_ s))
  = if String.eqb d doc_id
    then Some {| title := title_;
                 content := (substring 0 200 content_ ++ "...")%string;
                 url := url_;
                 tokens := preprocess_text (title_ ++ " " ++ content_)%string |}
    else PyDict.get d (documents s).
Proof. unfold add_document. cbn [documents]. apply get_set. Qed.

Lemma add_documents_app (calls1 calls2 : list call) (s : engine) :
  add_documents (calls1 ++ calls2) s
  = add_documents calls2 (add_documents calls1 s).
Proof. apply fold_left_app. Qed.

Lemma add_documents_total_docs (calls : list call) (s : engine) :
  total_docs (add_documents calls s) = total_docs s + Z.of_nat (length calls).
Proof.
  unfold add_documents. revert s.
  induction calls as [|c calls IH]; intros s; cbn [fold_left length].
  - lia.
  - rewrite IH. unfold add_call, add_document. cbn [total_docs]. lia.
Qed.

(** [add_document] never assigns [avg_doc_length]. *)
Lemma add_documents_avg_doc_length (calls : list call) (s : engine) :
  avg_doc_length (add_documents calls s) = avg_doc_length s.
Proof.
  unfold add_documents. revert s.
  induction calls as [|c calls IH]; intros s; cbn [fold_left]; auto.
  now rewrite IH.
Qed.

Lemma add_documents_keys (calls : list call) (s : engine) (d : string) :
  In d (PyDict.keys (documents (add_documents calls s)))
  <-> In d (PyDict.keys (documents s)) \/ In d (map call_id calls).
Proof.
  unfold add_documents. revert s.
  induction calls as [|c calls IH]; intros s; cbn [fold_left map].
  - simpl. tauto.
  - rewrite IH. unfold add_call at 1, add_document at 1. cbn [documents].
    rewrite <- !mem_in_keys, mem_set, orb_true_iff, String.eqb_eq.
    rewrite mem_in_keys. simpl. intuition congruence.
Qed.

(** The keys of the document store are the ids in the order in which each
    was first added: adding an id again leaves it in its place. *)
Lemma add_documents_key_order (calls : list call) (s : engine) :
  PyDict.keys (documents (add_documents calls s))
  = fold_left (fun ks c => if str_in (call_id c) ks then ks
                           else ks ++ [call_id c])
              calls (PyDict.keys (documents s)).
Proof.
  unfold add_documents. revert s.
  induction calls as [|c calls IH]; intros s; cbn [fold_left]; auto.
  rewrite IH. f_equal. unfold add_call, add_document. cbn [documents].
  rewrite keys_set.
  destruct (PyDict.mem (call_id c) (documents s)) eqn:E.
  - replace (str_in (call_id c) (PyDict.keys (documents s))) with true; auto.
    symmetry. apply existsb_exists. exists (call_id c).
    split; [now apply mem_in_keys | apply String.eqb_refl].
  - replace (str_in (call_id c) (PyDict.keys (documents s))) with false; auto.
    symmetry. apply not_true_is_false. intros H.
    apply existsb_exists in H. destruct H as (k & Hk & Heq).
    apply String.eqb_eq in Heq. subst k. apply mem_in_keys in Hk. congruence.
Qed.

(** No id is twice a key of the document store. *)
Lemma add_documents_keys_nodup (calls : list call) (s : engine) :
  NoDup (PyDict.keys (documents s)) ->
  NoDup (PyDict.keys (documents (add_documents calls s))).
Proof.
  unfold add_documents. revert s.
  induction calls as [|c calls IH]; intros s Hs; cbn [fold_left]; auto.
  apply IH. unfold add_call, add_document. cbn [documents].
  now apply keys_set_nodup.
Qed.

End IngestionFacts.

(* ================================================================== *)
(** * The ranker while the average is zero *)
(* ================================================================== *)

Section ZeroAverage.
Context {nltk : NLTK} {num : PyFloat}.

Lemma fltb_irrefl (x : F) : fltb x x = false.
Proof.
  destruct (fltb x x) eqn:E; auto. now rewrite (fltb_asym _ _ E) in E.
Qed.

Lemma raw_tf_fold_no_match (s : engine) (d : string) (qts : list string)
    (acc : Z) :
  matches s qts d = false ->
  fold_left (fun acc token => match posting s token d with
                              | Some tf => acc + tf
                              | None => acc
                              end) qts acc = acc.
Proof.
  unfold matches. revert acc. induction qts as [|t qts IH]; intros acc; simpl.
  - auto.
  - destruct (posting s t d); simpl; [discriminate|]. apply IH.
Qed.

Lemma doc_freq_nonneg (s : engine) (t : string) : 0 <= doc_freq s t.
Proof.
  unfold doc_freq, PyDict.len.
  destruct (PyDict.get t (inverted_index s)); lia.
Qed.

(** The logarithm of [idf] is defined exactly when [total_docs] is not
    negative. *)
Lemma math_log_idf_argument (s : engine) (t : string) :
  math_log_outcome (idf_argument s t)
  = if 0 <=? total_docs s then Ok (idf s t) else Raise ValueError.
Proof.
  unfold math_log_outcome, idf_argument.
  rewrite idf_argument_sign by apply doc_freq_nonneg. reflexivity.
Qed.

Lemma first_match_matches (s : engine) (qts : list string) (d : string) :
  matches s qts d
  = match first_match s qts d with Some _ => true | None => false end.
Proof.
  unfold matches. induction qts as [|t qts IH]; simpl; auto.
  destruct (posting s t d); simpl; auto.
Qed.

Lemma bm25_zero_avg_matches (s : engine) (qts : list string) (d : string) :
  matches s qts d
  = match bm25_zero_avg s qts d with Some _ => true | None => false end.
Proof.
  rewrite first_match_matches. unfold bm25_zero_avg.
  now destruct (first_match s qts d) as [[t tf]|].
Qed.

Lemma search_zero_avg_exn_matches (s : engine) (qts : list string)
    (ds : list string) :
  existsb (matches s qts) ds
  = match search_zero_avg_exn s qts ds with Some _ => true | None => false end.
Proof.
  induction ds as [|d ds IH]; simpl; auto.
  rewrite bm25_zero_avg_matches.
  destruct (bm25_zero_avg s qts d); simpl; auto.
Qed.

(** The exception is one of the three. *)
Lemma zero_avg_error_cases (s : engine) (t : string) (tf : Z) :
  (0 <= total_docs s /\ zero_avg_error s t tf = ZeroDivisionError)
  \/ (total_docs s < 0 /\ zero_avg_error s t tf = ValueError)
  \/ zero_avg_error s t tf = OverflowError.
Proof.
  unfold zero_avg_error. destruct (fits_float _); auto.
  destruct (0 <=? total_docs s) eqn:E.
  - apply Z.leb_le in E. destruct (fits_float tf); auto.
  - apply Z.leb_gt in E. auto.
Qed.

Lemma search_zero_avg_exn_cases (s : engine) (qts : list string)
    (ds : list string) (e : exn) :
  search_zero_avg_exn s qts ds = Some e ->
  (0 <= total_docs s /\ e = ZeroDivisionError)
  \/ (total_docs s < 0 /\ e = ValueError)
  \/ e = OverflowError.
Proof.
  induction ds as [|d ds IH]; simpl; [discriminate|].
  unfold bm25_zero_avg at 1.
  destruct (first_match s qts d) as [[t tf]|]; auto.
  intros H. injection H as <-. apply zero_avg_error_cases.
Qed.

(** With [avg_doc_length] the integer 0, the loop of [bm25_score] raises at
    the first query token that has an entry for the document. *)
Lemma bm25_fold_zero_avg (s : engine) (d : string) (dl : Z) (k1 b : F)
    (qts : list string) (acc : F) :
  avg_doc_length s = PyInt 0 ->
  fold_outcome (bm25_step_outcome s d dl k1 b) qts acc
  = match bm25_zero_avg s qts d with
    | Some e => Raise e
    | None => Ok acc
    end.
Proof.
  intros Havg. unfold bm25_zero_avg. revert acc.
  induction qts as [|t qts IH]; intros acc; simpl; auto.
  unfold bm25_step_outcome at 1. rewrite math_log_idf_argument, Havg.
  destruct (posting s t d) as [tf|]; simpl; auto.
  unfold zero_avg_error.
  destruct (fits_float (total_docs s - doc_freq s t)); simpl; auto.
  destruct (0 <=? total_docs s); simpl; auto.
  destruct (fits_float tf); reflexivity.
Qed.

Lemma fits_float_0 : fits_float 0 = true.
Proof. reflexivity. Qed.

Lemma search_step_zero_avg (s : engine) (query : string) (results : list hit)
    (d : string) :
  avg_doc_length s = PyInt 0 ->
  In d (PyDict.keys (documents s)) ->
  search_step_outcome s query results d
  = match bm25_zero_avg s (preprocess_text query) d with
    | Some e => Raise e
    | None => Ok results
    end.
Proof.
  intros Havg Hd. apply in_keys_get in Hd. destruct Hd as [doc Hdoc].
  unfold search_step_outcome, bm25_outcome. rewrite Hdoc.
  rewrite bm25_fold_zero_avg by exact Havg.
  pose proof (bm25_zero_avg_matches s (preprocess_text query) d) as E.
  destruct (bm25_zero_avg s (preprocess_text query) d); auto.
  unfold raw_tf_component. rewrite raw_tf_fold_no_match by exact E.
  rewrite fits_float_0. cbn [negb].
  rewrite !fmul_zero_lit, fadd_zero_zero, fltb_irrefl. reflexivity.
Qed.

Lemma search_fold_zero_avg (s : engine) (query : string) (ds : list string) :
  avg_doc_length s = PyInt 0 ->
  (forall d, In d ds -> In d (PyDict.keys (documents s))) ->
  forall acc,
  fold_outcome (search_step_outcome s query) ds acc
  = match search_zero_avg_exn s (preprocess_text query) ds with
    | Some e => Raise e
    | None => Ok acc
    end.
Proof.
  intros Havg. induction ds as [|d ds IH]; intros Hds acc; simpl; auto.
  rewrite search_step_zero_avg by (auto; apply Hds; simpl; auto).
  destruct (bm25_zero_avg s (preprocess_text query) d); simpl; auto.
  apply IH. intros d' Hd'. apply Hds. simpl. auto.
Qed.

(** The outcome of [search] while [avg_doc_length] is the integer 0 that
    [__init__] stored: nothing is returned but the empty list, and the call
    raises as soon as a query token has an entry for a stored document. *)
Lemma search_zero_avg (s : engine) (query : string) (top_k : Z) :
  avg_doc_length s = PyInt 0 ->
  search_outcome s query top_k
  = if total_docs s =? 0 then Ok []
    else match search_zero_avg_exn s (preprocess_text query)
                 (PyDict.keys (documents s)) with
         | Some e => Raise e
         | None => Ok []
         end.
Proof.
  intros Havg. unfold search_outcome.
  destruct (total_docs s =? 0); auto.
  rewrite search_fold_zero_avg by auto.
  destruct (search_zero_avg_exn _ _ _); auto.
  unfold slice_to. simpl. destruct (0 <=? top_k); now rewrite firstn_nil.
Qed.

(** After [add_document], every token of the new text has an entry for the
    new id. *)
Lemma add_document_matches (doc_id title_ content_ url_ : string)
    (s : engine) (t : string) :
  In t (preprocess_text (title_ ++ " " ++ content_)%string) ->
  posting (add_document doc_id title_ content_ url_ s) t doc_id <> None.
Proof.
  intros Hin. rewrite add_document_posting.
  apply occurrences_pos in Hin. apply Z.ltb_lt in Hin. rewrite Hin.
  rewrite String.eqb_refl. simpl. discriminate.
Qed.

End ZeroAverage.

(* ================================================================== *)
(** * The properties of the specification *)
(* ================================================================== *)

Section Verified.
Context {nltk : NLTK} {num : PyFloat}.

(** ** Persistence *)

(** C2. For every sequence of [add_document] calls on a new engine,
    [save_index] followed by [load_index] on a new engine returns [True]
    and gives back the engine that was saved; hence [search], for every
    query and every [top_k], has the same outcome on the loaded engine as on
    the original: the same results in the same order, or the same
    exception. *)
Theorem C2_save_load_round_trip (calls : list call) (d : disk)
    (query : string) (top_k : Z) :
  let s := add_documents calls __init__ in
  let loaded := load_index __init__ (save_index s d) in
  fst loaded = true
  /\ snd loaded = s
  /\ fst (search query top_k (snd loaded)) = fst (search query top_k s).
Proof.
  intros s loaded.
  assert (Hs : snd loaded = s).
  { subst loaded. unfold load_index, save_index. simpl.
    assert (Havg : avg_doc_length s = PyInt 0)
      by (subst s; now rewrite add_documents_avg_doc_length).
    destruct s as [ds idx avg n]. simpl in *. now rewrite Havg. }
  repeat split; auto. now rewrite Hs.
Qed.

(** ** The document count *)

Lemma nodup_of_NoDup (l : list string) :
  NoDup l -> nodup string_dec l = l.
Proof. apply nodup_fixed_point. Qed.

Lemma NoDup_firstn {A} (n : nat) (l : list A) : NoDup l -> NoDup (firstn n l).
Proof.
  revert l. induction n as [|n IH]; intros l Hl; simpl.
  - constructor.
  - destruct l as [|x l]; [constructor|].
    inversion Hl; subst. constructor; auto.
    intros Hx. apply firstn_In in Hx. contradiction.
Qed.

(** C3, amended. For every sequence of [add_document] calls on a new
    engine whose ids are pairwise distinct, after each call (after the
    first [n] calls, for every [n]) [total_docs] is the number of distinct
    ids added so far. *)
Theorem C3_total_docs_distinct_ids (calls : list call) (n : nat) :
  NoDup (map call_id calls) ->
  total_docs (add_documents (firstn n calls) __init__)
  = Z.of_nat (distinct_ids (firstn n calls)).
Proof.
  intros Hnd. rewrite add_documents_total_docs. simpl.
  unfold distinct_ids. rewrite nodup_of_NoDup.
  - now rewrite length_map.
  - rewrite <- firstn_map. now apply NoDup_firstn.
Qed.

(** ** The inverted index *)

Lemma init_index_matches_store : index_matches_store __init__.
Proof. split; [reflexivity | discriminate]. Qed.

Lemma add_document_index_matches_store (doc_id title_ content_ url_ : string)
    (s : engine) :
  index_matches_store s ->
  PyDict.get doc_id (documents s) = None ->
  index_matches_store (add_document doc_id title_ content_ url_ s).
Proof.
  intros [J1 J2] Hfresh.
  assert (Hnone : forall t, posting s t doc_id = None).
  { intros t. rewrite J1. unfold store_entry. now rewrite Hfresh. }
  split.
  - intros t d. rewrite add_document_posting, Hnone. simpl.
    unfold store_entry. rewrite add_document_get.
    destruct (String.eqb d doc_id) eqn:E.
    + apply String.eqb_eq in E. subst d. cbn [tokens].
      rewrite andb_true_r. destruct (0 <? _); auto.
    + rewrite andb_false_r. apply J1.
  - intros t. rewrite add_document_index_mem.
    destruct (0 <? occurrences t _) eqn:E; simpl.
    + intros _. exists doc_id. rewrite add_document_posting, E.
      rewrite String.eqb_refl. simpl. eauto.
    + intros Hm. destruct (J2 t Hm) as (d & c & Hp).
      exists d, c. rewrite add_document_posting, E. exact Hp.
Qed.

Lemma add_documents_index_matches_store (calls : list call) :
  forall s : engine,
  index_matches_store s ->
  NoDup (map call_id calls) ->
  (forall c, In c calls -> PyDict.get (call_id c) (documents s) = None) ->
  index_matches_store (add_documents calls s).
Proof.
  unfold add_documents.
  induction calls as [|c calls IH]; intros s Hs Hnd Hfresh;
    cbn [fold_left]; auto.
  simpl in Hnd. inversion Hnd as [|? ? Hnotin Hnd']; subst.
  apply IH; auto.
  - apply add_document_index_matches_store; auto. apply Hfresh. simpl. auto.
  - intros c' Hc'. unfold add_call. rewrite add_document_get.
    destruct (String.eqb (call_id c') (call_id c)) eqn:E.
    + apply String.eqb_eq in E. exfalso. apply Hnotin. rewrite <- E.
      now apply in_map.
    + apply Hfresh. simpl. auto.
Qed.

Lemma posting_mem (s : engine) (t d : string) (c : Z) :
  posting s t d = Some c -> PyDict.mem t (inverted_index s) = true.
Proof.
  unfold posting, index_entry, PyDict.mem.
  destruct (PyDict.get t (inverted_index s)); [auto|discriminate].
Qed.

Lemma index_matches_store_invariant (s : engine) :
  index_matches_store s -> index_invariant s.
Proof.
  intros [J1 J2]. split; [|split].
  - intros t. split.
    + intros Hm. destruct (J2 t Hm) as (d & c & Hp).
      rewrite J1 in Hp. unfold store_entry in Hp.
      destruct (PyDict.get d (documents s)) as [doc|] eqn:Hdoc;
        [|discriminate].
      destruct (0 <? _) eqn:E; [|discriminate].
      exists d, doc. split; auto. now apply Z.ltb_lt.
    + intros (d & doc & Hdoc & Hpos).
      apply posting_mem with (d := d) (c := occurrences t (tokens doc)).
      rewrite J1. unfold store_entry. rewrite Hdoc.
      apply Z.ltb_lt in Hpos. now rewrite Hpos.
  - intros t. split.
    + intros Hm. destruct (J2 t Hm) as (d & c & Hp). exists d, c.
      split; auto. rewrite J1 in Hp. unfold store_entry in Hp.
      destruct (PyDict.get d (documents s)); [|discriminate].
      destruct (0 <? _) eqn:E; [|discriminate].
      injection Hp as <-. now apply Z.ltb_lt.
    + intros (d & c & Hp & _). unfold posting, index_entry in Hp.
      unfold PyDict.mem. destruct (PyDict.get t (inverted_index s)); auto.
      discriminate.
  - intros t d c Hp. rewrite J1 in Hp. unfold store_entry in Hp.
    destruct (PyDict.get d (documents s)) as [doc|]; [|discriminate].
    destruct (0 <? _); [|discriminate]. injection Hp as <-. eauto.
Qed.

(** C4, amended. After every sequence of [add_document] calls on a new
    engine whose ids are pairwise distinct, the inverted index satisfies
    the invariant: a term is a key of the outer mapping iff it occurs in
    the token sequence of some stored document, iff some entry has a
    positive count for it; and for every entry the document is in the
    document store and the count is the number of occurrences of the term
    in the token sequence stored for it.  More: the index holds exactly one
    entry for every term of every stored document. *)
Theorem C4_index_invariant_distinct_ids (calls : list call) :
  NoDup (map call_id calls) ->
  index_invariant (add_documents calls __init__)
  /\ index_matches_store (add_documents calls __init__).
Proof.
  intros Hnd.
  assert (H : index_matches_store (add_documents calls __init__)).
  { apply add_documents_index_matches_store; auto.
    apply init_index_matches_store. }
  split; [now apply index_matches_store_invariant | exact H].
Qed.

(** ** The ranker *)

(** C6. Whenever [search] returns, each result carries the score
    [0.7 * bm25_component + 0.3 * raw_tf_component] of its document, the
    BM25 component being the sum over the query terms present in the
    document of [idf * (tf * (k1 + 1)) / (tf + k1 * (1 - b + b * (dl /
    avg_doc_length)))] with [idf = ln((total_docs - df + 0.5) / (df + 0.5) +
    1.0)], [k1 = 1.5] and [b = 0.75]; the result is that of a stored
    document, its score is greater than 0, and the results are in
    descending order of score.  And the documents with a score greater
    than 0 are returned: when [total_docs] is not 0 and [top_k] is not
    negative, a stored document with a combined score greater than 0 is
    among the results, unless there are [top_k] results none of which has
    a smaller score than it. *)
Theorem C6_search_scores (s : engine) (query : string) (top_k : Z)
    (rs : list hit) :
  fst (search query top_k s) = Ok rs ->
  Forall (fun r =>
            hit_score r
            = combined_score s (preprocess_text query) (hit_doc_id r)
            /\ fltb (of_Z 0) (hit_score r) = true
            /\ In (hit_doc_id r) (PyDict.keys (documents s))) rs
  /\ descending rs
  /\ (total_docs s <> 0 -> 0 <= top_k ->
      forall d,
        In d (PyDict.keys (documents s)) ->
        fltb (of_Z 0) (combined_score s (preprocess_text query) d) = true ->
        (exists r, In r rs /\ hit_doc_id r = d)
        \/ (Z.of_nat (length rs) = top_k
            /\ Forall (fun r =>
                         fltb (hit_score r)
                              (combined_score s (preprocess_text query) d)
                         = false) rs)).
Proof.
  rewrite search_run. simpl. intros H. apply search_outcome_ok in H.
  destruct (total_docs s =? 0) eqn:En.
  - subst rs. split; [constructor|]. split; [constructor|].
    intros Hn. apply Z.eqb_eq in En. contradiction.
  - subst rs. split; [|split].
    + apply Forall_forall. intros r Hr. apply slice_to_In in Hr.
      unfold ranking in Hr.
      apply (Permutation_in _ (sort_by_score_reverse_perm _)) in Hr.
      apply in_flat_map in Hr. destruct Hr as (d & Hd & Hr).
      apply scored_hit_id in Hr. destruct Hr as (-> & Hscore & Hpos & _).
      auto.
    + apply slice_to_descending, ranking_descending.
    + intros _ Hk d Hd Hpos.
      destruct (ranking_complete s query d Hd Hpos) as (r & Hr & Hid & Hsc).
      unfold slice_to. apply Z.leb_le in Hk as Hk'. rewrite Hk'.
      destruct (firstn_descending_cut (n := Z.to_nat top_k)
                  (ranking_descending s query) Hr) as [Hin|[Hlen Hall]].
      * left. eauto.
      * right. split; [rewrite Hlen; now apply Z2Nat.id|].
        now rewrite <- Hsc.
Qed.

(** C9. [search] and [bm25_score] leave the engine as it was: the document
    store, the inverted index with its set of keys, [total_docs] and
    [avg_doc_length] are after the call what they were before it, also when
    the call raises. *)
Theorem C9_search_frame (s : engine) (query doc_id : string) (top_k : Z) :
  snd (search query top_k s) = s
  /\ snd (bm25_score query doc_id s) = s.
Proof.
  split.
  - now rewrite search_run.
  - unfold bm25_score. now rewrite bm25_score_with_run.
Qed.

(** C10. [search] is deterministic for a fixed state: a second call with
    the same query and [top_k] has the outcome of the first; and of two
    results with equal scores the one in front is the one whose document
    comes first in the iteration order of the document store, which is the
    order of insertion. *)
Theorem C10_search_deterministic_stable (s : engine) (query : string)
    (top_k : Z) :
  fst (search query top_k (snd (search query top_k s)))
  = fst (search query top_k s)
  /\ forall rs r1 r2,
       fst (search query top_k s) = Ok rs ->
       before rs r1 r2 ->
       hit_score r1 = hit_score r2 ->
       before (PyDict.keys (documents s)) (hit_doc_id r1) (hit_doc_id r2).
Proof.
  split.
  - now rewrite !search_run.
  - intros rs r1 r2. rewrite search_run. simpl. intros H Hb Heq.
    apply search_outcome_ok in H. destruct (total_docs s =? 0).
    + subst rs. inversion Hb.
    + subst rs. apply before_slice_to in Hb. unfold ranking in Hb.
      apply sort_by_score_reverse_before in Hb. destruct Hb as [Hb|Hlt].
      * eapply flat_map_scored_hit_before; eassumption.
      * rewrite Heq, fltb_irrefl in Hlt. discriminate.
Qed.

End Verified.

(* ================================================================== *)
(** * The rational instance and the worked corpus *)
(* ================================================================== *)

Lemma Qltb_lt (x y : Q) : Qltb x y = true <-> (x < y)%Q.
Proof.
  unfold Qltb. rewrite Qlt_alt. destruct (x ?= y)%Q; split; congruence.
Qed.

Lemma Qltb_ge (x y : Q) : Qltb x y = false <-> (y <= x)%Q.
Proof.
  rewrite <- Bool.not_true_iff_false, Qltb_lt. split.
  - apply Qnot_lt_le.
  - intros H1 H2. exact (Qlt_not_le _ _ H2 H1).
Qed.

Lemma Qred_mul_comm (x y : Q) : Qred (x * y) = Qred (y * x).
Proof. apply Qred_complete, Qmult_comm. Qed.

Lemma Qltb_asym (x y : Q) : Qltb x y = true -> Qltb y x = false.
Proof.
  intros H. apply Qltb_ge. apply Qlt_le_weak. now apply Qltb_lt.
Qed.

Lemma Qltb_negtrans (x y z : Q) :
  Qltb (inject_Z 0) x = true -> Qltb (inject_Z 0) y = true ->
  Qltb (inject_Z 0) z = true ->
  Qltb x y = false -> Qltb y z = false -> Qltb x z = false.
Proof.
  intros _ _ _. rewrite !Qltb_ge. intros H1 H2. eapply Qle_trans; eassumption.
Qed.

Lemma Qred_mul_zero_lit (q : Q) : Qred (inject_Z 0 * Qred q) = inject_Z 0.
Proof.
  change (inject_Z 0) with (Qred 0). apply Qred_complete, Qmult_0_l.
Qed.

Lemma Qhalf_more_pos (df : Z) : 0 <= df -> (0 < inject_Z df + (1 # 2))%Q.
Proof.
  intros Hdf. apply Qlt_le_trans with (y := (1 # 2)%Q); [reflexivity|].
  rewrite <- (Qplus_0_l (1 # 2)) at 1. apply Qplus_le_l.
  change 0%Q with (inject_Z 0). now rewrite <- Zle_Qle.
Qed.

(** The argument of the logarithm of [idf] is [(n + 1) / (df + 1/2)]. *)
Lemma Qidf_argument_exact (n df : Z) :
  0 <= df ->
  (Qred (Qred (Qred (inject_Z (n - df) + Qred (1 # 2))
               / Qred (inject_Z df + Qred (1 # 2)))
         + Qred 1)
   == (inject_Z n + 1) / (inject_Z df + (1 # 2)))%Q.
Proof.
  intros Hdf. rewrite !Qred_correct.
  unfold Zminus. rewrite inject_Z_plus, inject_Z_opp.
  pose proof (Qhalf_more_pos Hdf) as Hd.
  field. intros H. rewrite H in Hd. discriminate Hd.
Qed.

Lemma Qidf_argument_sign (n df : Z) :
  0 <= df ->
  Qltb (inject_Z 0)
       (Qred (Qred (Qred (inject_Z (n - df) + Qred (1 # 2))
                   / Qred (inject_Z df + Qred (1 # 2)))
             + Qred 1))
  = (0 <=? n).
Proof.
  intros Hdf. pose proof (Qhalf_more_pos Hdf) as Hd.
  destruct (0 <=? n) eqn:E.
  - apply Qltb_lt. rewrite Qidf_argument_exact by exact Hdf.
    apply Z.leb_le in E. apply Qlt_shift_div_l; [exact Hd|].
    rewrite Qmult_0_l. change 1%Q with (inject_Z 1).
    rewrite <- inject_Z_plus. change (inject_Z 0) with 0%Q.
    change 0%Q with (inject_Z 0). rewrite <- Zlt_Qlt. lia.
  - apply Qltb_ge. rewrite Qidf_argument_exact by exact Hdf.
    apply Z.leb_gt in E. apply Qle_shift_div_r; [exact Hd|].
    rewrite Qmult_0_l. change 1%Q with (inject_Z 1).
    rewrite <- inject_Z_plus. change (inject_Z 0) with 0%Q.
    change 0%Q with (inject_Z 0). rewrite <- Zle_Qle. lia.
Qed.

#[export] Instance QFloat : PyFloat := {|
  F := Q;
  of_Z := inject_Z;
  lit := Qred;
  fadd := fun x y => Qred (x + y);
  fsub := fun x y => Qred (x - y);
  fmul := fun x y => Qred (x * y);
  fdiv := fun x y => Qred (x / y);
  flog := Qln;
  fltb := Qltb;
  fis_zero := fun x => Qeq_bool x 0;
  fltb_asym := Qltb_asym;
  fltb_negtrans := Qltb_negtrans;
  fmul_comm := Qred_mul_comm;
  fmul_zero_lit := Qred_mul_zero_lit;
  fadd_zero_zero := eq_refl;
  idf_argument_sign := Qidf_argument_sign
|}.

(** Three documents of three tokens each, with the average filled in. *)
Definition example_engine : @engine QFloat :=
  with_avg_doc_length (PyInt 3)
    (@add_documents (nltk_english no_stemming) QFloat example_calls __init__).

(** What the query "cats" is to return on it: the two documents with the
    term, which have the same score, in the order of the store.  The score
    is [0.7 * bm25 + 0.3 * 2] with [bm25 = idf * 5 / (7/2)] and [idf] the
    approximation of [ln 1.6]. *)
Definition example_score : Q := 147656595570207 # 137996350340849.

Definition example_results : list (@hit QFloat) :=
  [ {| hit_doc_id := "d1";
       hit_score := example_score;
       hit_title := "Cats";
       hit_snippet := "cats purr...";
       hit_url := "http://example.org/cats" |};
    {| hit_doc_id := "d3";
       hit_score := example_score;
       hit_title := "Cats";
       hit_snippet := "cats purr...";
       hit_url := "http://example.org/kittens" |} ].

(* ================================================================== *)
(** * The properties on the worked inputs *)
(* ================================================================== *)

Lemma cats_tokens (stemmer : string -> string) :
  @preprocess_text (nltk_english stemmer) ("Cats" ++ " " ++ "cats purr")%string
  = [stemmer "cats"; stemmer "cats"; stemmer "purr"].
Proof. reflexivity. Qed.

Lemma cats_query_tokens (stemmer : string -> string) :
  @preprocess_text (nltk_english stemmer) "cats" = [stemmer "cats"].
Proof. reflexivity. Qed.

(** With no document stored, [avg_doc_length] is 0, the mean by
    convention. *)
Lemma avg_doc_length_empty {nltk : NLTK} {num : PyFloat} :
  number_equals (avg_doc_length __init__) (mean_doc_length __init__).
Proof. reflexivity. Qed.

(** C1. After the very first [add_document] call, of a document of three
    tokens, [avg_doc_length] is still the integer 0 of [__init__], and not
    the mean, which is 3. *)
Theorem C1_avg_doc_length_not_recomputed (stemmer : string -> string)
    (num : PyFloat) :
  let s := @add_document (nltk_english stemmer) num
             "d1" "Cats" "cats purr" "http://example.org/cats" __init__ in
  avg_doc_length s = PyInt 0
  /\ (mean_doc_length s == 3)%Q
  /\ ~ number_equals (avg_doc_length s) (mean_doc_length s).
Proof.
  intros s.
  assert (Hmean : (mean_doc_length s == 3)%Q) by reflexivity.
  repeat split; auto.
  change (avg_doc_length s) with (@PyInt num 0). unfold number_equals.
  rewrite Hmean. discriminate.
Qed.

(** On an empty corpus [search] returns the empty list at once. *)
Lemma search_empty_corpus {nltk : NLTK} {num : PyFloat} (s : engine)
    (query : string) (top_k : Z) :
  total_docs s = 0 -> search query top_k s = (Ok [], s).
Proof.
  intros H. rewrite search_run. unfold search_outcome. now rewrite H.
Qed.

(** After [add_document] calls alone [search] returns nothing but the
    empty list: it returns it when no query token has an entry for a stored
    document, and raises otherwise. *)
Lemma search_after_add_documents {nltk : NLTK} {num : PyFloat}
    (calls : list call) (query : string) (top_k : Z) :
  let s := add_documents calls __init__ in
  fst (search query top_k s)
  = if total_docs s =? 0 then Ok []
    else match search_zero_avg_exn s (preprocess_text query)
                 (PyDict.keys (documents s)) with
         | Some e => Raise e
         | None => Ok []
         end.
Proof.
  intros s. rewrite search_run. simpl.
  apply search_zero_avg. subst s. now rewrite add_documents_avg_doc_length.
Qed.

(** Small numbers fit in a [float]. *)
Lemma float_limit_large : 3 < float_limit.
Proof. reflexivity. Qed.

Lemma fits_float_small (n : Z) : 0 <= n <= 3 -> fits_float n = true.
Proof.
  intros H. unfold fits_float. apply Z.ltb_lt.
  pose proof float_limit_large. lia.
Qed.

(** The index after the first document, whatever the stemmer does to its
    two words. *)
Ltac run_index E E' :=
  repeat (progress
            (unfold index_update, index_setitem, defaultdict_getitem;
             cbn [fold_left PyDict.get PyDict.set PyDict.mem inverted_index
                  __init__ fst snd];
             rewrite ?String.eqb_refl, ?E, ?E')).

Lemma cats_doc_freq (stemmer : string -> string) (num : PyFloat) :
  let s := @add_document (nltk_english stemmer) num
             "d1" "Cats" "cats purr" "http://example.org/cats" __init__ in
  doc_freq s (stemmer "cats") = 1.
Proof.
  intros s. unfold doc_freq, s, add_document. cbn [inverted_index].
  rewrite cats_tokens.
  set (sc := stemmer "cats"). set (sp := stemmer "purr").
  unfold Counter. cbn [fold_left]. unfold count_element.
  assert (E' : String.eqb sc sp = String.eqb sp sc) by apply String.eqb_sym.
  destruct (String.eqb sp sc) eqn:E; run_index E E'; reflexivity.
Qed.

Lemma cats_posting (stemmer : string -> string) (num : PyFloat) :
  let s := @add_document (nltk_english stemmer) num
             "d1" "Cats" "cats purr" "http://example.org/cats" __init__ in
  exists tf, posting s (stemmer "cats") "d1" = Some tf /\ 0 <= tf <= 3.
Proof.
  intros s. unfold posting, index_entry, s, add_document.
  cbn [inverted_index]. rewrite cats_tokens.
  set (sc := stemmer "cats"). set (sp := stemmer "purr").
  unfold Counter. cbn [fold_left]. unfold count_element.
  assert (E' : String.eqb sc sp = String.eqb sp sc) by apply String.eqb_sym.
  destruct (String.eqb sp sc) eqn:E; run_index E E';
    eexists; (split; [reflexivity|lia]).
Qed.

Lemma search_cats_raises (stemmer : string -> string) (num : PyFloat)
    (top_k : Z) :
  let s := @add_document (nltk_english stemmer) num
             "d1" "Cats" "cats purr" "http://example.org/cats" __init__ in
  @search (nltk_english stemmer) num "cats" top_k s
  = (Raise ZeroDivisionError, s).
Proof.
  intros s. rewrite search_run. f_equal.
  rewrite search_zero_avg by reflexivity.
  change (total_docs s =? 0) with false. cbv iota.
  change (PyDict.keys (documents s)) with ["d1"].
  rewrite cats_query_tokens.
  cbn [search_zero_avg_exn]. unfold bm25_zero_avg. cbn [first_match].
  destruct (cats_posting stemmer num) as (tf & Hp & Htf).
  fold s in Hp. rewrite Hp. unfold zero_avg_error.
  pose proof (cats_doc_freq stemmer num) as Hdf. fold s in Hdf.
  rewrite Hdf. change (total_docs s) with 1.
  change (fits_float (1 - 1)) with (fits_float 0). rewrite fits_float_0.
  change (0 <=? 1) with true. cbv iota.
  now rewrite (fits_float_small Htf).
Qed.

(** C5. With one document stored, [total_docs] is 1, so [search] does not
    leave early; for a query with a term of the document it evaluates
    [dl / avg_doc_length] while [avg_doc_length] is 0 and raises
    [ZeroDivisionError]. *)
Theorem C5_search_divides_by_zero (stemmer : string -> string)
    (num : PyFloat) :
  let s := @add_document (nltk_english stemmer) num
             "d1" "Cats" "cats purr" "http://example.org/cats" __init__ in
  total_docs s = 1
  /\ avg_doc_length s = PyInt 0
  /\ @search (nltk_english stemmer) num "cats" 10 s
     = (Raise ZeroDivisionError, s).
Proof.
  intros s. repeat split. apply search_cats_raises.
Qed.

(** C7. With [top_k = 0] and a query with a term of a stored document,
    [search] raises [ZeroDivisionError] instead of returning the empty
    list. *)
Theorem C7_search_top_k_zero_raises (stemmer : string -> string)
    (num : PyFloat) :
  let s := @add_document (nltk_english stemmer) num
             "d1" "Cats" "cats purr" "http://example.org/cats" __init__ in
  fst (@search (nltk_english stemmer) num "cats" 0 s)
  = Raise ZeroDivisionError.
Proof.
  intros s. unfold s. now rewrite search_cats_raises.
Qed.

(** A query no term of which has an entry for a stored document returns
    the empty list, whatever [top_k] is. *)
Lemma search_no_match_returns_empty {nltk : NLTK} {num : PyFloat}
    (calls : list call) (query : string) (top_k : Z) :
  let s := add_documents calls __init__ in
  (forall t d, In t (preprocess_text query) -> posting s t d = None) ->
  search query top_k s = (Ok [], s).
Proof.
  intros s Hno. rewrite search_run. f_equal.
  rewrite search_zero_avg
    by (subst s; now rewrite add_documents_avg_doc_length).
  destruct (total_docs s =? 0); auto.
  pose proof (search_zero_avg_exn_matches s (preprocess_text query)
                (PyDict.keys (documents s))) as Hm.
  destruct (search_zero_avg_exn _ _ _); auto.
  exfalso. apply existsb_exists in Hm.
  destruct Hm as (d & _ & H). unfold matches in H.
  apply existsb_exists in H. destruct H as (t & Ht & H).
  now rewrite (Hno t d Ht) in H.
Qed.

(** ** The normaliser *)

Lemma filter_filter {A} (f g : A -> bool) (l : list A) :
  filter g (filter f l) = filter (fun x => g x && f x) l.
Proof.
  induction l as [|x l IH]; simpl; auto.
  destruct (f x); simpl; rewrite ?andb_true_r, ?andb_false_r.
  - destruct (g x); now rewrite IH.
  - exact IH.
Qed.

(** [preprocess_text] is the pipeline of the specification with
    [word_tokenize] where that one splits on white space. *)
Lemma preprocess_text_pipeline {nltk : NLTK} (text : string) :
  preprocess_text text
  = map stem
      (filter (fun t => negb (str_in t stop_words))
         (filter (fun t => negb (String.length t <=? 2)%nat)
            (word_tokenize (strip_non_letters (lower text))))).
Proof.
  unfold preprocess_text. f_equal. rewrite filter_filter.
  apply filter_ext. intros t. unfold keep_token.
  now rewrite Nat.ltb_antisym.
Qed.

Lemma treebank_words_no_contraction (ws : list string) :
  forallb (fun w => match contraction_of w CONTRACTIONS2 with
                    | None => true
                    | Some _ => false
                    end) ws = true ->
  flat_map treebank_word ws = ws.
Proof.
  induction ws as [|w ws IH]; cbn [forallb flat_map]; auto.
  rewrite andb_true_iff. intros [Hw Hws]. unfold treebank_word at 1.
  destruct (contraction_of w CONTRACTIONS2); [discriminate|].
  cbn [app]. now rewrite IH.
Qed.

(** C8, amended. On every text none of whose words, once the text is in
    lower case and stripped, is one of the contractions that
    [word_tokenize] cuts in two (cannot, gimme, gonna, gotta, lemme, wanna),
    [preprocess_text] is the reference pipeline: lower-case; delete what is
    neither an ASCII letter nor white space; split on white space; drop the
    tokens of length at most 2; drop the stop words; stem what is left, in
    the order of the input and with its duplicates. *)
Theorem C8_preprocess_text_reference (stemmer : string -> string)
    (text : string) :
  no_contraction text = true ->
  @preprocess_text (nltk_english stemmer) text
  = @normalize_reference (nltk_english stemmer) text.
Proof.
  intros H. rewrite preprocess_text_pipeline. unfold normalize_reference.
  cbn [word_tokenize stop_words stem nltk_english].
  unfold treebank_word_tokenize.
  now rewrite (treebank_words_no_contraction _ H).
Qed.

Lemma C8_preprocess_text_reference_witness :
  no_contraction "Cats are small animals that purr" = true
  /\ @preprocess_text (nltk_english no_stemming)
       "Cats are small animals that purr"
     = @normalize_reference (nltk_english no_stemming)
         "Cats are small animals that purr".
Proof.
  split; [reflexivity|].
  apply (C8_preprocess_text_reference no_stemming
           "Cats are small animals that purr").
  reflexivity.
Defined.

(** C8 as stated fails: whatever the stemmer, the tokenizer cuts "cannot"
    in two stop words, and [preprocess_text] returns one token where the
    reference pipeline returns two. *)
Lemma C8_cannot_is_cut_in_two :
  ~ exists stemmer : string -> string,
      @preprocess_text (nltk_english stemmer) "I cannot sleep"
      = @normalize_reference (nltk_english stemmer) "I cannot sleep".
Proof.
  intros [stemmer H].
  change ([stemmer "sleep"] = [stemmer "cannot"; stemmer "sleep"]) in H.
  discriminate.
Qed.

(** The empty text has no tokens. *)
Lemma preprocess_text_empty (stemmer : string -> string) :
  @preprocess_text (nltk_english stemmer) "" = [].
Proof. reflexivity. Qed.

(** ** The document count and the index when an id comes again *)

(** C3 as stated fails: the same id added twice counts twice. *)
Lemma C3_same_id_counted_twice :
  ~ exists stemmer : string -> string,
      total_docs (@add_documents (nltk_english stemmer) QFloat
                    [cats_call; cats_call] __init__)
      = Z.of_nat (distinct_ids [cats_call; cats_call]).
Proof.
  intros [stemmer H]. rewrite add_documents_total_docs in H.
  vm_compute in H. discriminate.
Qed.

Lemma C3_total_docs_distinct_ids_witness :
  NoDup (map call_id example_calls)
  /\ total_docs (@add_documents (nltk_english no_stemming) QFloat
                   (firstn 2 example_calls) __init__)
     = Z.of_nat (distinct_ids (firstn 2 example_calls)).
Proof.
  assert (H : NoDup (map call_id example_calls)).
  { repeat constructor; simpl; intuition discriminate. }
  split; [exact H|].
  exact (@C3_total_docs_distinct_ids (nltk_english no_stemming) QFloat
           example_calls 2%nat H).
Defined.

(** C4 as stated fails: after the same document is added twice under one
    id, the entry of its term is twice the number of occurrences in the
    tokens stored for the id. *)
Lemma C4_same_id_counts_add_up :
  ~ exists stemmer : string -> string,
      index_invariant (@add_documents (nltk_english stemmer) QFloat
                         [cats_call; cats_call] __init__).
Proof.
  intros [stemmer [_ [_ H]]].
  set (s1 := @add_document (nltk_english stemmer) QFloat "d1" "Cats"
               "cats purr" "http://example.org/cats" __init__).
  set (s2 := @add_document (nltk_english stemmer) QFloat "d1" "Cats"
               "cats purr" "http://example.org/cats" s1).
  change (add_documents _ _) with s2 in H.
  set (ts := [stemmer "cats"; stemmer "cats"; stemmer "purr"]).
  assert (Hpos : 0 < occurrences (stemmer "cats") ts)
    by (apply occurrences_pos; simpl; auto).
  assert (H1 : posting s1 (stemmer "cats") "d1"
               = Some (occurrences (stemmer "cats") ts)).
  { unfold s1. rewrite add_document_posting, cats_tokens. fold ts.
    apply Z.ltb_lt in Hpos. rewrite Hpos. reflexivity. }
  assert (H2 : posting s2 (stemmer "cats") "d1"
               = Some (occurrences (stemmer "cats") ts
                       + occurrences (stemmer "cats") ts)).
  { unfold s2. rewrite add_document_posting, cats_tokens. fold ts.
    rewrite H1. apply Z.ltb_lt in Hpos. rewrite Hpos. reflexivity. }
  destruct (H _ _ _ H2) as (doc & Hdoc & Hc).
  unfold s2 in Hdoc. rewrite add_document_get in Hdoc. simpl in Hdoc.
  injection Hdoc as <-. cbn [tokens] in Hc. rewrite cats_tokens in Hc.
  fold ts in Hc. lia.
Qed.

Lemma C4_index_invariant_distinct_ids_witness :
  NoDup (map call_id example_calls)
  /\ index_invariant (@add_documents (nltk_english no_stemming) QFloat
                        example_calls __init__)
  /\ index_matches_store (@add_documents (nltk_english no_stemming) QFloat
                            example_calls __init__).
Proof.
  assert (H : NoDup (map call_id example_calls)).
  { repeat constructor; simpl; intuition discriminate. }
  split; [exact H|].
  exact (@C4_index_invariant_distinct_ids (nltk_english no_stemming) QFloat
           example_calls H).
Defined.

(** ** The ranker on the worked corpus *)

Lemma example_search :
  fst (@search (nltk_english no_stemming) QFloat "cats" 10 example_engine)
  = Ok example_results.
Proof. reflexivity. Qed.

Lemma C6_search_scores_witness :
  fst (@search (nltk_english no_stemming) QFloat "cats" 10 example_engine)
  = Ok example_results
  /\ Forall (fun r =>
               hit_score r
               = @combined_score QFloat
                   example_engine
                   (@preprocess_text (nltk_english no_stemming) "cats")
                   (hit_doc_id r)
               /\ fltb (of_Z 0) (hit_score r) = true
               /\ In (hit_doc_id r) (PyDict.keys (documents example_engine)))
            example_results
  /\ descending example_results
  /\ (total_docs example_engine <> 0 -> 0 <= 10 ->
      forall d,
        In d (PyDict.keys (documents example_engine)) ->
        fltb (of_Z 0)
             (@combined_score QFloat example_engine
                (@preprocess_text (nltk_english no_stemming) "cats") d)
        = true ->
        (exists r, In r example_results /\ hit_doc_id r = d)
        \/ (Z.of_nat (length example_results) = 10
            /\ Forall (fun r =>
                         fltb (hit_score r)
                              (@combined_score QFloat example_engine
                                 (@preprocess_text
                                    (nltk_english no_stemming) "cats") d)
                         = false) example_results)).
Proof.
  split; [exact example_search|].
  exact (@C6_search_scores (nltk_english no_stemming) QFloat example_engine
           "cats" 10 example_results example_search).
Defined.

Lemma before_first_two {A} (l : list A) (d : A) :
  (2 <= length l)%nat -> before l (nth 0 l d) (nth 1 l d).
Proof.
  destruct l as [|x [|y l]]; simpl; try lia.
  intros _. apply before_head. simpl. auto.
Qed.

Lemma C10_search_deterministic_stable_witness :
  let r1 := nth 0 example_results (Build_hit "" (of_Z 0) "" "" "") in
  let r2 := nth 1 example_results (Build_hit "" (of_Z 0) "" "" "") in
  (fst (@search (nltk_english no_stemming) QFloat "cats" 10 example_engine)
   = Ok example_results
   /\ before example_results r1 r2
   /\ hit_score r1 = hit_score r2)
  /\ before (PyDict.keys (documents example_engine))
            (hit_doc_id r1) (hit_doc_id r2).
Proof.
  intros r1 r2.
  assert (H : fst (@search (nltk_english no_stemming) QFloat "cats" 10
                     example_engine) = Ok example_results)
    by reflexivity.
  assert (Hb : before example_results r1 r2).
  { apply before_first_two. apply Nat.eq_le_incl. reflexivity. }
  assert (He : hit_score r1 = hit_score r2) by reflexivity.
  split; [auto|].
  exact (proj2 (@C10_search_deterministic_stable (nltk_english no_stemming)
                  QFloat example_engine "cats" 10)
           example_results r1 r2 H Hb He).
Defined.

(** With the average filled in, a negative [top_k] cuts the results from the
    end: of the two results for "cats", [top_k = -1] leaves the first. *)
Lemma search_negative_top_k :
  length example_results = 2%nat
  /\ fst (@search (nltk_english no_stemming) QFloat "cats" (-1) example_engine)
     = Ok (firstn 1 example_results).
Proof. split; reflexivity. Qed.

(* ================================================================== *)
(** * Further properties of ingestion *)
(* ================================================================== *)

Section IngestionInGeneral.
Context {nltk : NLTK} {num : PyFloat}.

Lemma occurrences_under_nonneg (calls : list call) (t d : string) :
  0 <= occurrences_under calls t d.
Proof.
  induction calls as [|c calls IH]; simpl; [lia|].
  pose proof (occurrences_nonneg t (call_tokens c)).
  destruct (String.eqb d (call_id c)); lia.
Qed.

Lemma add_call_posting (s : engine) (c : call) (t d : string) :
  posting (add_call s c) t d
  = if (0 <? occurrences t (call_tokens c)) && String.eqb d (call_id c)
    then Some (count_or_zero (posting s t (call_id c))
               + occurrences t (call_tokens c))
    else posting s t d.
Proof. unfold add_call, call_tokens. apply add_document_posting. Qed.

Lemma add_documents_posting (calls : list call) :
  forall (s : engine) (t d : string) (n : Z),
  0 <= n ->
  posting s t d = positive_count n ->
  posting (add_documents calls s) t d
  = positive_count (n + occurrences_under calls t d).
Proof.
  unfold add_documents.
  induction calls as [|c calls IH]; intros s t d n Hn Hs;
    cbn [fold_left occurrences_under fold_right].
  - now rewrite Z.add_0_r.
  - fold (occurrences_under calls t d).
    pose proof (occurrences_nonneg t (call_tokens c)) as Hocc.
    rewrite Z.add_assoc. apply IH.
    + destruct (String.eqb d (call_id c)); lia.
    + rewrite add_call_posting.
      destruct (String.eqb d (call_id c)) eqn:E.
      * apply String.eqb_eq in E. subst d. rewrite Hs.
        destruct (0 <? occurrences t (call_tokens c)) eqn:E'; simpl.
        -- apply Z.ltb_lt in E'. unfold positive_count.
           destruct (0 <? n) eqn:En; simpl.
           ++ replace (0 <? n + occurrences t (call_tokens c)) with true; auto.
              symmetry. apply Z.ltb_lt. apply Z.ltb_lt in En. lia.
           ++ apply Z.ltb_ge in En. replace n with 0 by lia. simpl.
              apply Z.ltb_lt in E'. now rewrite E'.
        -- apply Z.ltb_ge in E'.
           replace (occurrences t (call_tokens c)) with 0 by lia.
           now rewrite Z.add_0_r.
      * rewrite andb_false_r, Z.add_0_r. exact Hs.
Qed.

(** X1. For every sequence of [add_document] calls on a new engine, the
    inverted index has an entry for [(token, doc_id)] exactly when the token
    occurs in the text of some call made with that id, and its count is the
    number of occurrences in the texts of all the calls made with that id,
    added up: a document added again adds to the counts of the id. *)
Theorem index_counts_add_up (calls : list call) (t d : string) :
  posting (add_documents calls __init__) t d
  = positive_count (occurrences_under calls t d).
Proof.
  rewrite (add_documents_posting calls __init__ t d (n := 0)).
  - reflexivity.
  - lia.
  - reflexivity.
Qed.

Lemma add_call_no_empty_entry (s : engine) (c : call) :
  no_empty_entry s -> no_empty_entry (add_call s c).
Proof.
  intros Hs t. unfold add_call at 1. rewrite add_document_index_mem.
  fold (call_tokens c).
  destruct (0 <? occurrences t (call_tokens c)) eqn:E; simpl.
  - intros _. exists (call_id c). rewrite add_call_posting, E.
    rewrite String.eqb_refl. simpl. eauto.
  - intros Hm. destruct (Hs t Hm) as (d & n & Hp).
    exists d, n. now rewrite add_call_posting, E.
Qed.

Lemma add_documents_no_empty_entry (calls : list call) (s : engine) :
  no_empty_entry s -> no_empty_entry (add_documents calls s).
Proof.
  unfold add_documents. revert s.
  induction calls as [|c calls IH]; intros s Hs; cbn [fold_left]; auto.
  apply IH. now apply add_call_no_empty_entry.
Qed.

Lemma occurrences_under_pos (calls : list call) (t d : string) :
  0 < occurrences_under calls t d ->
  exists c, In c calls /\ call_id c = d /\ In t (call_tokens c).
Proof.
  induction calls as [|c calls IH]; simpl; [lia|].
  destruct (String.eqb d (call_id c)) eqn:E.
  - apply String.eqb_eq in E.
    destruct (Z.ltb_spec 0 (occurrences t (call_tokens c))) as [Hpos|Hz].
    + intros _. exists c. apply occurrences_pos in Hpos. auto.
    + pose proof (occurrences_nonneg t (call_tokens c)).
      intros H'. destruct IH as (c' & Hc' & Hid & Ht); [lia|].
      exists c'. auto.
  - intros H'. destruct IH as (c' & Hc' & Hid & Ht); [lia|].
    exists c'. auto.
Qed.

Lemma add_documents_index_mem (calls : list call) (s : engine) (t : string) :
  PyDict.mem t (inverted_index (add_documents calls s)) = true
  <-> PyDict.mem t (inverted_index s) = true \/ In t (all_tokens calls).
Proof.
  unfold add_documents, all_tokens. revert s.
  induction calls as [|c calls IH]; intros s; cbn [fold_left flat_map].
  - simpl. tauto.
  - rewrite IH, in_app_iff. unfold add_call at 1.
    rewrite add_document_index_mem. fold (call_tokens c).
    rewrite orb_true_iff, Z.ltb_lt, occurrences_pos. tauto.
Qed.

(** X2. For every sequence of [add_document] calls on a new engine, also
    one that uses an id again: the count of every entry is positive and its
    document id is a key of the document store; no term is bound to an empty
    dictionary; and the terms of the index are exactly the tokens of the
    texts of the calls. *)
Theorem index_entries_sound (calls : list call) :
  let s := add_documents calls __init__ in
  (forall t d c, posting s t d = Some c ->
                 0 < c /\ In d (PyDict.keys (documents s)))
  /\ (forall t, PyDict.mem t (inverted_index s) = true
                <-> exists d c, posting s t d = Some c)
  /\ (forall t, PyDict.mem t (inverted_index s) = true
                <-> In t (all_tokens calls)).
Proof.
  intros s.
  assert (Hentry : forall t d c, posting s t d = Some c ->
            0 < c /\ exists k, In k calls /\ call_id k = d
                               /\ In t (call_tokens k)).
  { intros t d c. unfold s.
    rewrite (add_documents_posting calls __init__ t d (n := 0));
      [|lia|reflexivity].
    rewrite Z.add_0_l. unfold positive_count.
    destruct (0 <? occurrences_under calls t d) eqn:E; [|discriminate].
    intros H. injection H as <-. apply Z.ltb_lt in E. split; auto.
    now apply occurrences_under_pos. }
  assert (Hkey : forall t, PyDict.mem t (inverted_index s) = true
                 <-> exists d c, posting s t d = Some c).
  { intros t. split.
    - apply (add_documents_no_empty_entry calls (s := __init__)).
      intros t'. discriminate.
    - intros (d & c & Hp). unfold posting, index_entry in Hp.
      unfold PyDict.mem. destruct (PyDict.get t (inverted_index s)); auto.
      discriminate. }
  split; [|split]; auto.
  - intros t d c Hp. destruct (Hentry t d c Hp) as (Hc & k & Hk & Hid & _).
    split; auto. unfold s. apply add_documents_keys. right.
    rewrite <- Hid. now apply in_map.
  - intros t. unfold s. rewrite add_documents_index_mem.
    split; [intros [H|H]; [discriminate H | exact H] | auto].
Qed.

Lemma add_call_get (s : engine) (c : call) (d : string) :
  PyDict.get d (documents (add_call s c))
  = if String.eqb d (call_id c) then Some (call_record c)
    else PyDict.get d (documents s).
Proof. unfold add_call. apply add_document_get. Qed.

(** X3. For every sequence of [add_document] calls on a new engine, the
    document stored under an id is the record of the last call made with
    that id (its title, its snippet, its url and its tokens), and an id no
    call was made with is not stored. *)
Theorem document_store_last_write (calls : list call) (d : string) :
  PyDict.get d (documents (add_documents calls __init__))
  = option_map call_record (last_call d calls).
Proof.
  unfold last_call. induction calls as [|c calls IH] using rev_ind.
  - reflexivity.
  - rewrite add_documents_app. cbn [add_documents fold_left].
    rewrite add_call_get, rev_app_distr. cbn [rev app find].
    destruct (String.eqb d (call_id c)); auto.
Qed.

Lemma documents_length_distinct_ids (calls : list call) :
  length (documents (add_documents calls __init__)) = distinct_ids calls.
Proof.
  unfold distinct_ids.
  rewrite <- (length_map fst (documents (add_documents calls __init__))).
  fold (PyDict.keys (documents (add_documents calls __init__))).
  apply Permutation_length. apply NoDup_Permutation.
  - apply add_documents_keys_nodup. constructor.
  - apply NoDup_nodup.
  - intros x. rewrite nodup_In, add_documents_keys. simpl. tauto.
Qed.

Lemma distinct_ids_le_length (calls : list call) :
  (distinct_ids calls <= length calls)%nat.
Proof.
  unfold distinct_ids. rewrite <- (length_map call_id calls).
  apply NoDup_incl_length; [apply NoDup_nodup|].
  intros x. apply nodup_In.
Qed.

(** X4. For every sequence of [add_document] calls on a new engine, the
    document store holds one document per distinct id, while [total_docs]
    is the number of calls: [total_docs] exceeds the number of stored
    documents by the number of calls that used an id again. *)
Theorem document_store_size (calls : list call) :
  let s := add_documents calls __init__ in
  length (documents s) = distinct_ids calls
  /\ total_docs s = Z.of_nat (length calls)
  /\ total_docs s - Z.of_nat (length (documents s))
     = Z.of_nat (length calls - distinct_ids calls).
Proof.
  intros s.
  pose proof (documents_length_distinct_ids calls) as Hlen. fold s in Hlen.
  assert (Htot : total_docs s = Z.of_nat (length calls)).
  { unfold s. rewrite add_documents_total_docs. reflexivity. }
  pose proof (distinct_ids_le_length calls) as Hle.
  repeat split; auto. rewrite Htot, Hlen. lia.
Qed.

End IngestionInGeneral.

Section IngestionDetails.
Context {nltk : NLTK} {num : PyFloat}.

Lemma string_length_append (s1 s2 : string) :
  String.length (s1 ++ s2) = (String.length s1 + String.length s2)%nat.
Proof. induction s1 as [|c s1 IH]; simpl; auto. Qed.

Lemma substring_0_length (n : nat) (s : string) :
  String.length (substring 0 n s) = Nat.min n (String.length s).
Proof.
  revert s. induction n as [|n IH]; intros [|c s]; simpl; auto.
Qed.

Lemma substring_0_all (n : nat) (s : string) :
  (String.length s <= n)%nat -> substring 0 n s = s.
Proof.
  revert s. induction n as [|n IH]; intros [|c s]; simpl; auto.
  - lia.
  - intros H. f_equal. apply IH. lia.
Qed.

(** The first [n] characters of a text are a prefix of it, and all of it
    when it has no more. *)
Lemma substring_0_prefix (n : nat) (s : string) :
  String.prefix (substring 0 n s) s = true.
Proof.
  revert s. induction n as [|n IH]; intros [|c s]; simpl; auto.
  destruct (ascii_dec c c) as [_|Hne]; [apply IH | now elim Hne].
Qed.

(** X5. The snippet [add_document] stores is the first 200 characters of
    the content followed by three dots, whatever the length of the content:
    the characters before the dots are a prefix of the content, of length
    [min(200, len(content))]; so the snippet has [min(200, len(content)) +
    3] characters, and for a content of at most 200 characters it is the
    whole content followed by the dots. *)
Theorem add_document_snippet (doc_id title_ content_ url_ : string)
    (s : engine) :
  exists doc,
    PyDict.get doc_id (documents (add_document doc_id title_ content_ url_ s))
    = Some doc
    /\ content doc = (substring 0 200 content_ ++ "...")%string
    /\ String.prefix (substring 0 200 content_) content_ = true
    /\ String.length (substring 0 200 content_)
       = Nat.min 200 (String.length content_)
    /\ String.length (content doc)
       = (Nat.min 200 (String.length content_) + 3)%nat
    /\ ((String.length content_ <= 200)%nat ->
        content doc = (content_ ++ "...")%string)
    /\ title doc = title_ /\ url doc = url_.
Proof.
  eexists. rewrite add_document_get, String.eqb_refl.
  split; [reflexivity|]. cbn [content title url].
  rewrite string_length_append, substring_0_length.
  repeat split; auto.
  - apply substring_0_prefix.
  - intros H. now rewrite substring_0_all.
Qed.

(** The keys of the index stay pairwise distinct. *)
Lemma defaultdict_getitem_nodup (t : string)
    (index index1 : PyDict.dict (PyDict.dict Z)) (inner : PyDict.dict Z) :
  defaultdict_getitem t index = (inner, index1) ->
  NoDup (PyDict.keys index) -> NoDup (PyDict.keys index1).
Proof.
  unfold defaultdict_getitem.
  destruct (PyDict.get t index); intros H; injection H as <- <-; auto.
  apply keys_set_nodup.
Qed.

Lemma index_setitem_nodup (t d : string) (v : Z)
    (index : PyDict.dict (PyDict.dict Z)) :
  NoDup (PyDict.keys index) -> NoDup (PyDict.keys (index_setitem t d v index)).
Proof.
  intros H. unfold index_setitem.
  destruct (defaultdict_getitem t index) as [inner index1] eqn:E.
  apply keys_set_nodup. eapply defaultdict_getitem_nodup; eauto.
Qed.

Lemma index_update_nodup (d : string) (index : PyDict.dict (PyDict.dict Z))
    (item : string * Z) :
  NoDup (PyDict.keys index) -> NoDup (PyDict.keys (index_update d index item)).
Proof.
  intros H. destruct item as [t c]. unfold index_update.
  destruct (defaultdict_getitem t index) as [inner index1] eqn:E1.
  apply defaultdict_getitem_nodup in E1; auto.
  set (index2 := if PyDict.mem d inner then index1
                 else index_setitem t d 0 index1).
  assert (H2 : NoDup (PyDict.keys index2)).
  { subst index2. destruct (PyDict.mem d inner); auto.
    now apply index_setitem_nodup. }
  destruct (defaultdict_getitem t index2) as [inner2 index3] eqn:E3.
  apply defaultdict_getitem_nodup in E3; auto.
  now apply index_setitem_nodup.
Qed.

Lemma add_documents_index_nodup (calls : list call) (s : engine) :
  NoDup (PyDict.keys (inverted_index s)) ->
  NoDup (PyDict.keys (inverted_index (add_documents calls s))).
Proof.
  unfold add_documents. revert s.
  induction calls as [|c calls IH]; intros s Hs; cbn [fold_left]; auto.
  apply IH. unfold add_call, add_document. cbn [inverted_index].
  generalize (Counter (preprocess_text
                (call_title c ++ " " ++ call_content c)%string)).
  intros items. revert Hs. generalize (inverted_index s).
  induction items as [|item items IHi]; intros index Hi; cbn [fold_left]; auto.
  apply IHi. now apply index_update_nodup.
Qed.

(** X6. For every sequence of [add_document] calls on a new engine, the
    statistics report as [index_size] the number of distinct tokens of the
    texts of all the calls, and as [total_documents] the number of calls
    (not the number of documents stored). *)
Theorem stats_after_add_documents (calls : list call) :
  let s := add_documents calls __init__ in
  index_size (get_stats s)
  = Z.of_nat (length (nodup string_dec (all_tokens calls)))
  /\ total_documents (get_stats s) = Z.of_nat (length calls).
Proof.
  intros s. unfold get_stats, s. cbn [index_size total_documents]. split.
  - unfold PyDict.len. f_equal.
    rewrite <- (length_map fst).
    fold (PyDict.keys (inverted_index (add_documents calls __init__))).
    apply Permutation_length. apply NoDup_Permutation.
    + apply add_documents_index_nodup. constructor.
    + apply NoDup_nodup.
    + intros t. rewrite nodup_In, <- mem_in_keys, add_documents_index_mem.
      split; [intros [H|H]; [discriminate H | exact H] | auto].
  - now rewrite add_documents_total_docs.
Qed.

End IngestionDetails.

(* ================================================================== *)
(** * Further properties of the normaliser *)
(* ================================================================== *)

Lemma lower_char_idempotent (c : ascii) :
  lower_char (lower_char c) = lower_char c.
Proof.
  destruct c as [[] [] [] [] [] [] [] []]; reflexivity.
Qed.

Lemma lower_char_kept (c : ascii) :
  is_ascii_letter (lower_char c) || is_space (lower_char c)
  = is_ascii_letter c || is_space c.
Proof.
  destruct c as [[] [] [] [] [] [] [] []]; reflexivity.
Qed.

Lemma lower_idempotent (text : string) : lower (lower text) = lower text.
Proof.
  induction text as [|c text IH]; simpl; auto.
  now rewrite lower_char_idempotent, IH.
Qed.

Lemma strip_lower_strip (text : string) :
  strip_non_letters (lower (strip_non_letters text))
  = strip_non_letters (lower text).
Proof.
  unfold strip_non_letters.
  induction text as [|c text IH]; simpl; auto.
  destruct (is_ascii_letter c || is_space c) eqn:E; simpl;
    rewrite lower_char_kept, E; now rewrite IH.
Qed.

(** X7. On an ASCII text, [preprocess_text] does not depend on the case
    of the text, nor on its characters that are neither letters nor white
    space: the text in lower case, and the text with those characters
    deleted, have the tokens of the text itself.  A digit or a punctuation
    mark inside a word joins its two sides; it does not separate them.
    (Outside ASCII this fails of [str.lower]: the Kelvin sign becomes the
    letter [k] when the text is lowered, and is deleted when it is not.) *)
Theorem preprocess_text_case_and_symbols {nltk : NLTK} (text : string) :
  is_ascii_text text = true ->
  preprocess_text (lower text) = preprocess_text text
  /\ preprocess_text (strip_non_letters text) = preprocess_text text.
Proof.
  intros _. unfold preprocess_text. split.
  - now rewrite lower_idempotent.
  - now rewrite strip_lower_strip.
Qed.

(* ================================================================== *)
(** * Further properties of the ranker *)
(* ================================================================== *)

Section RankerInGeneral.
Context {nltk : NLTK} {num : PyFloat}.

Lemma search_step_no_tokens (s : engine) (query : string)
    (results : list hit) (d : string) :
  preprocess_text query = [] ->
  search_step_outcome s query results d = Ok results.
Proof.
  intros Hq. unfold search_step_outcome, bm25_outcome, raw_tf_component.
  rewrite Hq.
  destruct (PyDict.get d (documents s)); simpl;
    now rewrite !fmul_zero_lit, fadd_zero_zero, fltb_irrefl.
Qed.

Lemma search_fold_no_tokens (s : engine) (query : string) (ds : list string)
    (acc : list hit) :
  preprocess_text query = [] ->
  fold_outcome (search_step_outcome s query) ds acc = Ok acc.
Proof.
  intros Hq. induction ds as [|d ds IH]; simpl; auto.
  now rewrite search_step_no_tokens.
Qed.

Lemma slice_to_nil {A} (top_k : Z) : slice_to (@nil A) top_k = [].
Proof.
  unfold slice_to. simpl. destruct (0 <=? top_k); apply firstn_nil.
Qed.

(** X8. For every engine state, also one whose [avg_doc_length] is 0, a
    query that normalises to no token (the empty text, or nothing but stop
    words, short words, digits and punctuation) makes [search] return the
    empty list: no score is computed and nothing is raised. *)
Theorem search_no_query_token (s : engine) (query : string) (top_k : Z) :
  preprocess_text query = [] ->
  search query top_k s = (Ok [], s).
Proof.
  intros Hq. rewrite search_run. f_equal. unfold search_outcome.
  destruct (total_docs s =? 0); auto.
  rewrite search_fold_no_tokens by exact Hq.
  simpl. now rewrite slice_to_nil.
Qed.

Lemma scored_hit_length (s : engine) (qts : list string) (d : string) :
  (length (scored_hit s qts d) <= 1)%nat.
Proof.
  unfold scored_hit. destruct (PyDict.get d (documents s)); simpl; auto.
  destruct (fltb _ _); simpl; auto.
Qed.

Lemma ranking_length (s : engine) (query : string) :
  (length (ranking s query) <= length (documents s))%nat.
Proof.
  unfold ranking.
  rewrite (Permutation_length (sort_by_score_reverse_perm _)).
  unfold PyDict.keys. rewrite <- (length_map fst (documents s)).
  induction (map fst (documents s)) as [|d ds IH]; simpl; auto.
  rewrite length_app. pose proof (scored_hit_length s (preprocess_text query) d).
  lia.
Qed.

(** X9. Whenever [search] returns, it returns at most as many results as
    there are stored documents.  When [total_docs] is not 0, the number of
    results is [min(top_k, n)] for [top_k >= 0] and [max(0, n + top_k)] for
    a negative [top_k], where [n] is the length of the ranking: a negative
    [top_k] cuts the last [-top_k] results off, and what is left is not
    empty as soon as the ranking is longer than that. *)
Theorem search_result_count (s : engine) (query : string) (top_k : Z)
    (rs : list hit) :
  fst (search query top_k s) = Ok rs ->
  (length rs <= length (documents s))%nat
  /\ (0 <= top_k -> total_docs s <> 0 ->
      Z.of_nat (length rs)
      = Z.min top_k (Z.of_nat (length (ranking s query))))
  /\ (top_k < 0 -> total_docs s <> 0 ->
      Z.of_nat (length rs)
      = Z.max 0 (Z.of_nat (length (ranking s query)) + top_k)).
Proof.
  rewrite search_run. simpl. intros H. apply search_outcome_ok in H.
  pose proof (ranking_length s query) as Hlen.
  destruct (total_docs s =? 0) eqn:E.
  - subst rs. apply Z.eqb_eq in E. simpl. repeat split; intros; lia.
  - subst rs. unfold slice_to. repeat split.
    + destruct (0 <=? top_k); rewrite length_firstn; lia.
    + intros Hk _. apply Z.leb_le in Hk. rewrite Hk, length_firstn. lia.
    + intros Hk _. apply Z.leb_gt in Hk. rewrite Hk, length_firstn. lia.
Qed.

Lemma scored_hits_ids_nodup (s : engine) (qts : list string)
    (ds : list string) :
  NoDup ds -> NoDup (map hit_doc_id (flat_map (scored_hit s qts) ds)).
Proof.
  induction ds as [|d ds IH]; intros Hnd; simpl; [constructor|].
  inversion Hnd as [|? ? Hnot Hnd']; subst.
  rewrite map_app. apply NoDup_app.
  - unfold scored_hit. destruct (PyDict.get d (documents s)); simpl;
      [|constructor].
    destruct (fltb _ _); simpl; repeat constructor. simpl. tauto.
  - auto.
  - intros x Hx Hx'. apply in_map_iff in Hx. destruct Hx as (r & <- & Hr).
    apply scored_hit_id in Hr. destruct Hr as (Hid & _).
    apply in_map_iff in Hx'. destruct Hx' as (r' & Heq & Hr').
    apply in_flat_map in Hr'. destruct Hr' as (d' & Hd' & Hr').
    apply scored_hit_id in Hr'. destruct Hr' as (Hid' & _).
    apply Hnot. congruence.
Qed.

(** X10. Whenever [search] returns on an engine whose document store has
    no id twice, no document is returned twice, and every result carries
    the title, the snippet and the url stored for its id. *)
Theorem search_results_distinct (s : engine) (query : string) (top_k : Z)
    (rs : list hit) :
  NoDup (PyDict.keys (documents s)) ->
  fst (search query top_k s) = Ok rs ->
  NoDup (map hit_doc_id rs)
  /\ Forall (fun r => exists doc,
               PyDict.get (hit_doc_id r) (documents s) = Some doc
               /\ hit_title r = title doc
               /\ hit_snippet r = content doc
               /\ hit_url r = url doc) rs.
Proof.
  intros Hnd. rewrite search_run. simpl. intros H.
  apply search_outcome_ok in H. destruct (total_docs s =? 0).
  - subst rs. split; constructor.
  - subst rs. split.
    + unfold slice_to.
      destruct (0 <=? top_k); rewrite <- firstn_map; apply NoDup_firstn;
        unfold ranking;
        apply (Permutation_NoDup
                 (Permutation_sym
                    (Permutation_map hit_doc_id
                       (sort_by_score_reverse_perm _))));
        now apply scored_hits_ids_nodup.
    + apply Forall_forall. intros r Hr. apply slice_to_In in Hr.
      unfold ranking in Hr.
      apply (Permutation_in _ (sort_by_score_reverse_perm _)) in Hr.
      apply in_flat_map in Hr. destruct Hr as (d & _ & Hr).
      apply scored_hit_id in Hr.
      destruct Hr as (-> & _ & _ & doc & Hdoc & Ht & Hs & Hu). eauto.
Qed.

(** ** Persistence *)

(** X11. [load_index] returns [True] exactly when both files of the
    snapshot exist.  When [search_index.json] is missing it leaves the
    engine as it was; when only [vectorizer.pkl] is missing it returns
    [False] although it has already replaced the documents, the index and
    [total_docs] by those of the snapshot.  In no case does it assign
    [avg_doc_length]. *)
Theorem load_index_outcome (s : engine) (d : disk) :
  (fst (load_index s d) = true
   <-> search_index_json d <> None /\ vectorizer_pkl d = true)
  /\ (search_index_json d = None -> snd (load_index s d) = s)
  /\ (forall index_data, search_index_json d = Some index_data ->
        documents (snd (load_index s d)) = snap_documents index_data
        /\ inverted_index (snd (load_index s d))
           = snap_inverted_index index_data
        /\ total_docs (snd (load_index s d)) = snap_total_docs index_data)
  /\ avg_doc_length (snd (load_index s d)) = avg_doc_length s.
Proof.
  unfold load_index.
  destruct (search_index_json d) as [index_data|];
    destruct (vectorizer_pkl d); simpl;
    repeat split; try congruence; try tauto;
    try (intros [H _]; congruence);
    try (intros ? H; injection H as <-; auto).
Qed.

End RankerInGeneral.

Section RankerMatches.
Context {nltk : NLTK} {num : PyFloat}.

Lemma bm25_fold_no_match (s : engine) (d : string) (qts : list string)
    (acc : F) :
  matches s qts d = false ->
  fold_left (fun acc token => match posting s token d with
                              | Some tf => fadd acc (contribution s d token tf)
                              | None => acc
                              end) qts acc = acc.
Proof.
  unfold matches. revert acc. induction qts as [|t qts IH]; intros acc; simpl.
  - auto.
  - destruct (posting s t d); simpl; [discriminate|]. apply IH.
Qed.

Lemma scored_hit_no_match (s : engine) (qts : list string) (d : string) :
  matches s qts d = false -> scored_hit s qts d = [].
Proof.
  intros H. unfold scored_hit, combined_score, bm25_component,
    raw_tf_component.
  rewrite bm25_fold_no_match, raw_tf_fold_no_match by exact H.
  rewrite (fmul_comm (lit (7 # 10))), (fmul_comm (lit (3 # 10))).
  rewrite !fmul_zero_lit, fadd_zero_zero, fltb_irrefl.
  now destruct (PyDict.get d (documents s)).
Qed.

(** X22. Whenever [search] returns, every document it returns has, in the
    inverted index, an entry for at least one token of the normalised
    query: a document that matches no query token is never returned,
    whatever its length and whatever the corpus statistics. *)
Theorem search_results_match_query (s : engine) (query : string) (top_k : Z)
    (rs : list hit) :
  fst (search query top_k s) = Ok rs ->
  Forall (fun r => matches s (preprocess_text query) (hit_doc_id r) = true)
         rs.
Proof.
  rewrite search_run. simpl. intros H. apply search_outcome_ok in H.
  destruct (total_docs s =? 0); subst rs; [constructor|].
  apply Forall_forall. intros r Hr. apply slice_to_In in Hr.
  unfold ranking in Hr.
  apply (Permutation_in _ (sort_by_score_reverse_perm _)) in Hr.
  apply in_flat_map in Hr. destruct Hr as (d & _ & Hr).
  destruct (matches s (preprocess_text query) d) eqn:E.
  - apply scored_hit_id in Hr. destruct Hr as (-> & _). exact E.
  - rewrite scored_hit_no_match in Hr by exact E. destruct Hr.
Qed.

(** X23. Whenever [search] returns with [top_k] at least the number of
    stored documents (and [total_docs] not 0), nothing is cut off: every
    stored document whose combined score is greater than 0 is among the
    results. *)
Theorem search_returns_every_match (s : engine) (query : string) (top_k : Z)
    (rs : list hit) :
  fst (search query top_k s) = Ok rs ->
  total_docs s <> 0 ->
  Z.of_nat (length (documents s)) <= top_k ->
  rs = ranking s query
  /\ forall d, In d (PyDict.keys (documents s)) ->
       fltb (of_Z 0) (combined_score s (preprocess_text query) d) = true ->
       exists r, In r rs /\ hit_doc_id r = d.
Proof.
  rewrite search_run. simpl. intros H Hn Hk. apply search_outcome_ok in H.
  apply Z.eqb_neq in Hn. rewrite Hn in H.
  assert (Hall : rs = ranking s query).
  { subst rs. unfold slice_to.
    pose proof (ranking_length s query) as Hlen.
    replace (0 <=? top_k) with true by (symmetry; apply Z.leb_le; lia).
    apply firstn_all2. lia. }
  split; [exact Hall|].
  intros d Hd Hpos. apply in_keys_get in Hd. destruct Hd as [doc Hdoc].
  eexists. split.
  - rewrite Hall. unfold ranking.
    apply (Permutation_in _
             (Permutation_sym (sort_by_score_reverse_perm _))).
    apply in_flat_map. exists d. split.
    + apply mem_in_keys. unfold PyDict.mem. now rewrite Hdoc.
    + unfold scored_hit. rewrite Hdoc, Hpos. left. reflexivity.
  - reflexivity.
Qed.

(** X24. While [avg_doc_length] is the integer 0, [bm25_score] leaves the
    engine as it was; it returns 0 for a document that is not stored or for
    which no query token has an entry; for a stored document it raises at
    the first query token [t] that has an entry [tf] for it: in the order
    of the lines, [OverflowError] when [total_docs - df] is too large for
    a [float], [ValueError], from the logarithm, when [total_docs] is
    negative, [OverflowError] when [tf] is too large, and
    [ZeroDivisionError] otherwise. *)
Theorem bm25_score_zero_avg (s : engine) (query doc_id : string) :
  avg_doc_length s = PyInt 0 ->
  bm25_score query doc_id s
  = (if PyDict.mem doc_id (documents s)
     then match first_match s (preprocess_text query) doc_id with
          | Some (t, tf) =>
              Raise (if fits_float (total_docs s - doc_freq s t) then
                       if 0 <=? total_docs s then
                         if fits_float tf then ZeroDivisionError
                         else OverflowError
                       else ValueError
                     else OverflowError)
          | None => Ok (of_Z 0)
          end
     else Ok (of_Z 0), s).
Proof.
  intros Havg. unfold bm25_score. rewrite bm25_score_with_run. f_equal.
  unfold bm25_outcome, PyDict.mem.
  destruct (PyDict.get doc_id (documents s)); simpl; auto.
  rewrite bm25_fold_zero_avg by exact Havg. unfold bm25_zero_avg.
  now destruct (first_match s (preprocess_text query) doc_id) as [[t tf]|].
Qed.

End RankerMatches.

(* ================================================================== *)
(** * Properties of the crawler *)
(* ================================================================== *)

Lemma doc_name_injective (m n : nat) : doc_name m = doc_name n -> m = n.
Proof.
  unfold doc_name. intros H. injection H as H.
  assert (Hu : Nat.to_uint m = Nat.to_uint n).
  { pose proof (DecimalString.NilEmpty.usu (Nat.to_uint m)) as Hm.
    pose proof (DecimalString.NilEmpty.usu (Nat.to_uint n)) as Hn.
    rewrite H in Hm. congruence. }
  rewrite <- (DecimalNat.Unsigned.of_to m), <- (DecimalNat.Unsigned.of_to n).
  now rewrite Hu.
Qed.

Lemma doc_names_nodup (first n : nat) :
  NoDup (map doc_name (seq first n)).
Proof.
  generalize (seq_NoDup n first).
  induction (seq first n) as [|i l IH]; intros Hnd; simpl; [constructor|].
  inversion Hnd as [|? ? Hnot Hnd']; subst. constructor; auto.
  intros Hin. apply in_map_iff in Hin. destruct Hin as (j & Hj & Hjl).
  apply doc_name_injective in Hj. now subst j.
Qed.

Section CrawlerFacts.
Context {nltk : NLTK} {num : PyFloat}.

Lemma set_add_new (url : string) (visited : list string) :
  str_in url visited = false -> set_add url visited = visited ++ [url].
Proof. unfold set_add. now intros ->. Qed.

(** Every iteration takes a pair from [to_visit]; it adds pairs only when
    it marks a page visited. *)
Lemma crawl_iteration_measure (w : web) (max_depth : Z) (st : crawl_state) :
  crawl_continues st = true ->
  let st' := crawl_iteration w max_depth st in
  (pages_left st' < pages_left st)%nat
  \/ (pages_left st' = pages_left st
      /\ (length (to_visit (crawl_self st'))
          < length (to_visit (crawl_self st)))%nat).
Proof.
  unfold crawl_continues, crawl_iteration, pages_left.
  destruct st as [[mp visited queue] e n log]. cbn [crawl_self to_visit
    visited_urls max_pages crawl_engine crawl_doc_id crawled].
  destruct queue as [|[url depth] rest]; [discriminate|].
  intros Hlt. apply Z.ltb_lt in Hlt.
  destruct (str_in url visited) eqn:Hin; cbn [orb].
  { right. simpl. split; auto. }
  destruct (max_depth <? depth).
  { right. simpl. split; auto. }
  assert (Hgrow : (Z.to_nat (mp - Z.of_nat (length (set_add url visited)))
                   < Z.to_nat (mp - Z.of_nat (length visited)))%nat).
  { rewrite set_add_new by exact Hin. rewrite length_app. simpl. lia. }
  destruct (w (length log) url) as [| |title_ content_ links].
  - right. simpl. split; auto.
  - right. simpl. split; auto.
  - destruct (negb (String.eqb content_ "")
              && (100 <? String.length content_)%nat).
    + destruct (depth <? max_depth).
      * destruct links as [new_links|].
        -- left. exact Hgrow.
        -- right. simpl. split; auto.
      * left. exact Hgrow.
    + left. exact Hgrow.
Qed.

Lemma crawl_loop_terminates (w : web) (max_depth : Z) :
  forall (pages queued : nat) (st : crawl_state),
  (pages_left st <= pages)%nat ->
  (length (to_visit (crawl_self st)) <= queued)%nat ->
  exists fuel st', crawl_loop fuel w max_depth st = Some st'.
Proof.
  induction pages as [pages IHp] using lt_wf_ind.
  induction queued as [queued IHq] using lt_wf_ind.
  intros st Hp Hq.
  destruct (crawl_continues st) eqn:C.
  - destruct (crawl_iteration_measure w max_depth st C) as [Hlt|[Heq Hlt]].
    + destruct (IHp (pages_left (crawl_iteration w max_depth st))
                    ltac:(lia)
                    (length (to_visit
                       (crawl_self (crawl_iteration w max_depth st))))
                    (crawl_iteration w max_depth st))
        as (fuel & st' & H); auto.
      exists (S fuel), st'. simpl. now rewrite C.
    + destruct (IHq (length (to_visit
                       (crawl_self (crawl_iteration w max_depth st))))
                    ltac:(lia)
                    (crawl_iteration w max_depth st))
        as (fuel & st' & H); auto; [lia|].
      exists (S fuel), st'. simpl. now rewrite C.
  - exists O, st. simpl. now rewrite C.
Qed.

Lemma crawl_loop_more_fuel (w : web) (max_depth : Z) (fuel : nat) :
  forall (st st' : crawl_state) (fuel' : nat),
  crawl_loop fuel w max_depth st = Some st' ->
  (fuel <= fuel')%nat ->
  crawl_loop fuel' w max_depth st = Some st'.
Proof.
  induction fuel as [|fuel IH]; intros st st' fuel' H Hle.
  - simpl in H. destruct (crawl_continues st) eqn:C; [discriminate|].
    destruct fuel'; simpl; now rewrite C.
  - destruct fuel' as [|fuel']; [lia|]. simpl in *.
    destruct (crawl_continues st); auto. apply IH; auto. lia.
Qed.

(** What every iteration keeps holds when the loop has ended. *)
Lemma crawl_loop_invariant (P : crawl_state -> Prop) (w : web)
    (max_depth : Z) :
  (forall st, crawl_continues st = true -> P st ->
              P (crawl_iteration w max_depth st)) ->
  forall (fuel : nat) (st st' : crawl_state),
  crawl_loop fuel w max_depth st = Some st' ->
  P st -> P st' /\ crawl_continues st' = false.
Proof.
  intros Hstep. induction fuel as [|fuel IH]; intros st st' H HP; simpl in H.
  - destruct (crawl_continues st) eqn:C; [discriminate|].
    injection H as <-. auto.
  - destruct (crawl_continues st) eqn:C.
    + apply (IH _ _ H). auto.
    + injection H as <-. auto.
Qed.

(** X12. [crawl] terminates, whatever the web answers: for every crawler,
    list of start URLs, engine and depth bound the loop ends after finitely
    many iterations, in a state that no further iteration changes. *)
Theorem crawl_terminates (w : web) (self : crawler) (start_urls : list string)
    (search_engine : engine) (max_depth : Z) :
  exists fuel st',
    crawl fuel w self start_urls search_engine max_depth = Some st'
    /\ crawl_continues st' = false
    /\ forall fuel', (fuel <= fuel')%nat ->
         crawl fuel' w self start_urls search_engine max_depth = Some st'.
Proof.
  unfold crawl.
  match goal with |- context [crawl_loop _ w max_depth ?st] =>
    set (st0 := st) end.
  destruct (@crawl_loop_terminates w max_depth
              (pages_left st0) (length (to_visit (crawl_self st0))) st0)
    as (fuel & st' & H); auto.
  exists fuel, st'. split; [exact H|]. split.
  - apply (crawl_loop_invariant (fun _ => True) w max_depth) in H; tauto.
  - intros fuel' Hle. now apply crawl_loop_more_fuel with (fuel := fuel).
Qed.

Lemma crawl_iteration_indexed (w : web) (max_depth : Z) (e0 : engine)
    (st : crawl_state) :
  (exists calls, indexed_by e0 st calls) ->
  exists calls, indexed_by e0 (crawl_iteration w max_depth st) calls.
Proof.
  intros (calls & He & Hn & Hids & Hlong & Hreq).
  unfold crawl_iteration.
  destruct st as [[mp visited queue] e n log]. cbn [crawl_self to_visit
    visited_urls max_pages crawl_engine crawl_doc_id crawled] in *.
  destruct queue as [|[url depth] rest].
  { exists calls. repeat split; auto. }
  destruct (str_in url visited || (max_depth <? depth)).
  { exists calls. repeat split; auto. }
  assert (Hsame : forall self',
            exists calls0,
              indexed_by e0 {| crawl_self := self'; crawl_engine := e;
                               crawl_doc_id := n;
                               crawled := log ++ [url] |} calls0).
  { intros self'. exists calls. repeat split; auto. cbn [crawled].
    rewrite length_app. simpl. lia. }
  destruct (w (length log) url) as [| |title_ content_ links]; auto.
  destruct (negb (String.eqb content_ "")
            && (100 <? String.length content_)%nat) eqn:Hc; auto.
  apply andb_true_iff in Hc. destruct Hc as [_ Hc]. apply Nat.ltb_lt in Hc.
  set (c := {| call_id := doc_name n; call_title := title_;
               call_content := content_; call_url := url |}).
  assert (Hadd : forall self',
            exists calls0,
              indexed_by e0
                {| crawl_self := self';
                   crawl_engine := add_document (doc_name n) title_ content_
                                                url e;
                   crawl_doc_id := S n;
                   crawled := log ++ [url] |} calls0).
  { intros self'. exists (calls ++ [c]). unfold indexed_by.
    cbn [crawl_engine crawl_doc_id crawled].
    rewrite add_documents_app, <- He, !length_app. simpl.
    repeat split; auto; try lia.
    - unfold numbered_from in *. rewrite map_app, length_app. simpl.
      rewrite Nat.add_1_r, seq_S, map_app, Hids, Hn. reflexivity.
    - apply Forall_app. split; auto. }
  destruct (depth <? max_depth); auto.
  destruct links; auto.
Qed.

Lemma crawl_indexed (fuel : nat) (w : web) (self : crawler)
    (start_urls : list string) (search_engine : engine) (max_depth : Z)
    (st' : crawl_state) :
  crawl fuel w self start_urls search_engine max_depth = Some st' ->
  exists calls, indexed_by search_engine st' calls.
Proof.
  unfold crawl. intros H.
  apply (crawl_loop_invariant
           (fun st => exists calls, indexed_by search_engine st calls))
    in H.
  - tauto.
  - intros st _. apply crawl_iteration_indexed.
  - exists []. repeat split; auto.
Qed.

(** X13. When [crawl] ends, the engine is the engine it started with after
    one [add_document] call per page counted in [doc_id], in order: the ids
    are [doc_0], [doc_1], ..., counted from 0 in every crawl whatever the
    engine already holds; every page indexed has a content of more than
    100 characters; and no more pages are indexed than requests were
    made. *)
Theorem crawl_indexes_numbered_pages (fuel : nat) (w : web) (self : crawler)
    (start_urls : list string) (search_engine : engine) (max_depth : Z)
    (st' : crawl_state) :
  crawl fuel w self start_urls search_engine max_depth = Some st' ->
  exists calls,
    crawl_engine st' = add_documents calls search_engine
    /\ length calls = crawl_doc_id st'
    /\ map call_id calls = map doc_name (seq 0 (crawl_doc_id st'))
    /\ Forall (fun c => (100 < String.length (call_content c))%nat) calls
    /\ (crawl_doc_id st' <= length (crawled st'))%nat.
Proof.
  intros H. apply crawl_indexed in H.
  destruct H as (calls & He & Hn & Hids & Hlong & Hreq).
  exists calls. unfold numbered_from in Hids. rewrite Hn in *. auto.
Qed.

End CrawlerFacts.

Section CrawlerAndEngine.
Context {nltk : NLTK} {num : PyFloat}.

Lemma numbered_distinct_ids (calls : list call) :
  numbered_from 0 calls -> distinct_ids calls = length calls.
Proof.
  unfold numbered_from, distinct_ids. intros ->.
  rewrite nodup_of_NoDup by apply doc_names_nodup.
  now rewrite length_map, length_seq.
Qed.

(** X14. A crawl on a new engine leaves the engine consistent: when it
    ends, [total_docs] and the number of stored documents are both the
    number of pages indexed, and the inverted index holds exactly the
    entries the stored pages call for: for every term and page, the entry
    is the number of occurrences of the term in the tokens stored for the
    page when that is positive, and there is no entry otherwise; no key is
    without an entry.  Hence the invariant of the index: a term is a key
    iff it occurs in the tokens of a stored page, and every count is the
    number of occurrences in the tokens stored for its page. *)
Theorem crawl_new_engine_consistent (fuel : nat) (w : web) (self : crawler)
    (start_urls : list string) (max_depth : Z) (st' : crawl_state) :
  crawl fuel w self start_urls __init__ max_depth = Some st' ->
  total_docs (crawl_engine st') = Z.of_nat (crawl_doc_id st')
  /\ length (documents (crawl_engine st')) = crawl_doc_id st'
  /\ index_matches_store (crawl_engine st')
  /\ index_invariant (crawl_engine st').
Proof.
  intros H. apply crawl_indexed in H.
  destruct H as (calls & He & Hn & Hids & _ & _).
  assert (Hm : index_matches_store (add_documents calls __init__)).
  { apply add_documents_index_matches_store.
    - apply init_index_matches_store.
    - unfold numbered_from in Hids. rewrite Hids. apply doc_names_nodup.
    - intros c _. reflexivity. }
  rewrite He, <- Hn. split; [|split; [|split]].
  - now rewrite add_documents_total_docs.
  - rewrite documents_length_distinct_ids. now apply numbered_distinct_ids.
  - exact Hm.
  - now apply index_matches_store_invariant.
Qed.

Lemma distinct_ids_two_crawls (calls1 calls2 : list call) :
  numbered_from 0 calls1 -> numbered_from 0 calls2 ->
  distinct_ids (calls1 ++ calls2) = Nat.max (length calls1) (length calls2).
Proof.
  unfold numbered_from, distinct_ids. intros H1 H2.
  rewrite map_app, H1, H2.
  set (n1 := length calls1). set (n2 := length calls2).
  rewrite <- (length_seq (Nat.max n1 n2) 0) at 1.
  rewrite <- (length_map doc_name (seq 0 (Nat.max n1 n2))).
  apply Permutation_length. apply NoDup_Permutation.
  - apply NoDup_nodup.
  - apply doc_names_nodup.
  - intros x. rewrite nodup_In, in_app_iff, !in_map_iff. split.
    + intros [(i & <- & Hi)|(i & <- & Hi)]; exists i; split; auto;
        apply in_seq; apply in_seq in Hi; lia.
    + intros (i & <- & Hi). apply in_seq in Hi.
      destruct (Nat.lt_ge_cases i n1).
      * left. exists i. split; auto. apply in_seq. lia.
      * right. exists i. split; auto. apply in_seq. lia.
Qed.

(** X15. A second crawl into the same engine uses the ids of the first
    again.  After a crawl that indexed [n1] pages into a new engine and a
    crawl that indexed [n2] pages into the result, the document store
    holds [max(n1, n2)] documents, while [total_docs] is [n1 + n2]. *)
Theorem crawl_twice_reuses_ids (fuel1 fuel2 : nat) (w1 w2 : web)
    (self1 self2 : crawler) (start1 start2 : list string)
    (depth1 depth2 : Z) (st1 st2 : crawl_state) :
  crawl fuel1 w1 self1 start1 __init__ depth1 = Some st1 ->
  crawl fuel2 w2 self2 start2 (crawl_engine st1) depth2 = Some st2 ->
  length (documents (crawl_engine st2))
  = Nat.max (crawl_doc_id st1) (crawl_doc_id st2)
  /\ total_docs (crawl_engine st2)
     = Z.of_nat (crawl_doc_id st1 + crawl_doc_id st2).
Proof.
  intros H1 H2. apply crawl_indexed in H1, H2.
  destruct H1 as (calls1 & He1 & Hn1 & Hids1 & _ & _).
  destruct H2 as (calls2 & He2 & Hn2 & Hids2 & _ & _).
  rewrite He2, He1, <- add_documents_app, <- Hn1, <- Hn2.
  split.
  - rewrite documents_length_distinct_ids.
    now apply distinct_ids_two_crawls.
  - rewrite add_documents_total_docs, length_app. simpl. lia.
Qed.

(** X16. [crawl] marks at most [max_pages] URLs visited: when it ends, the
    number of visited URLs is at most [max_pages], or what it was when the
    crawl began if that was more; and no URL is marked twice. *)
Theorem crawl_visited_bound (fuel : nat) (w : web) (self : crawler)
    (start_urls : list string) (search_engine : engine) (max_depth : Z)
    (st' : crawl_state) :
  crawl fuel w self start_urls search_engine max_depth = Some st' ->
  Z.of_nat (length (visited_urls (crawl_self st')))
  <= Z.max (max_pages self) (Z.of_nat (length (visited_urls self)))
  /\ max_pages (crawl_self st') = max_pages self
  /\ (NoDup (visited_urls self) -> NoDup (visited_urls (crawl_self st'))).
Proof.
  unfold crawl. intros H.
  apply (crawl_loop_invariant
           (fun st =>
              Z.of_nat (length (visited_urls (crawl_self st)))
              <= Z.max (max_pages self) (Z.of_nat (length (visited_urls self)))
              /\ max_pages (crawl_self st) = max_pages self
              /\ (NoDup (visited_urls self) ->
                  NoDup (visited_urls (crawl_self st))))) in H.
  - tauto.
  - clear. intros st C (Hlen & Hmp & Hnd).
    unfold crawl_continues in C. unfold crawl_iteration.
    destruct st as [[mp visited queue] e n log]. cbn [crawl_self to_visit
      visited_urls max_pages crawl_engine crawl_doc_id crawled] in *.
    destruct queue as [|[url depth] rest]; [discriminate|].
    apply Z.ltb_lt in C.
    destruct (str_in url visited) eqn:Hin; cbn [orb].
    { simpl. auto. }
    destruct (max_depth <? depth).
    { simpl. auto. }
    assert (Hgrow :
              Z.of_nat (length (set_add url visited))
              <= Z.max (max_pages self)
                       (Z.of_nat (length (visited_urls self)))
              /\ (NoDup (visited_urls self) -> NoDup (set_add url visited))).
    { rewrite set_add_new by exact Hin. rewrite length_app. simpl.
      split; [lia|]. intros Hs. apply NoDup_app; auto.
      - repeat constructor. simpl. tauto.
      - intros x Hx [Heq|[]]. subst x.
        assert (str_in url visited = true); [|congruence].
        apply existsb_exists. exists url. split; auto.
        apply String.eqb_refl. }
    destruct (w (length log) url) as [| |title_ content_ links];
      cbn [crawl_self visited_urls max_pages]; auto.
    destruct (negb (String.eqb content_ "")
              && (100 <? String.length content_)%nat);
      cbn [crawl_self visited_urls max_pages]; [|tauto].
    destruct (depth <? max_depth);
      cbn [crawl_self visited_urls max_pages]; [|tauto].
    destruct links; cbn [crawl_self visited_urls max_pages]; tauto.
  - cbn [crawl_self visited_urls max_pages]. repeat split; auto. lia.
Qed.

(** X17. A new crawler that is given no start URL, a page limit that is
    not positive, or a negative depth bound requests nothing and indexes
    nothing: the engine is left as it was. *)
Theorem crawl_nothing_to_do (fuel : nat) (w : web) (max_pages_ : Z)
    (start_urls : list string) (search_engine : engine) (max_depth : Z)
    (st' : crawl_state) :
  start_urls = [] \/ max_pages_ <= 0 \/ max_depth < 0 ->
  crawl fuel w (WebCrawler max_pages_) start_urls search_engine max_depth
  = Some st' ->
  crawl_engine st' = search_engine
  /\ crawl_doc_id st' = O
  /\ crawled st' = []
  /\ visited_urls (crawl_self st') = [].
Proof.
  unfold crawl, WebCrawler. cbn [max_pages visited_urls to_visit app].
  intros Hcase H.
  apply (crawl_loop_invariant
           (fun st =>
              (crawl_engine st = search_engine
               /\ crawl_doc_id st = O
               /\ crawled st = []
               /\ visited_urls (crawl_self st) = [])
              /\ max_pages (crawl_self st) = max_pages_
              /\ (start_urls = [] -> to_visit (crawl_self st) = [])
              /\ (max_depth < 0 ->
                  Forall (fun p => max_depth < snd p)
                         (to_visit (crawl_self st))))) in H.
  - tauto.
  - clear H. intros st C ((He & Hn & Hlog & Hv) & Hmp & Hs & Hq).
    unfold crawl_continues in C. unfold crawl_iteration.
    destruct st as [[mp visited queue] e n log]. cbn [crawl_self to_visit
      visited_urls max_pages crawl_engine crawl_doc_id crawled] in *.
    destruct queue as [|[url depth] rest]; [discriminate|].
    apply Z.ltb_lt in C. rewrite Hv in C. simpl in C.
    destruct Hcase as [Hstart|[Hm|Hd]].
    + specialize (Hs Hstart). discriminate.
    + lia.
    + specialize (Hq Hd). inversion Hq as [|? ? Hhd Htl]; subst.
      cbn [snd] in Hhd. apply Z.ltb_lt in Hhd. rewrite Hhd, orb_true_r.
      cbn [crawl_self crawl_engine crawl_doc_id crawled visited_urls
           max_pages to_visit]. repeat split; auto. intros Hstart.
      specialize (Hs Hstart). discriminate.
  - cbn [crawl_self crawl_engine crawl_doc_id crawled visited_urls
         max_pages to_visit]. repeat split; auto.
    + now intros ->.
    + intros Hd. apply Forall_forall. intros p Hp.
      apply in_map_iff in Hp. destruct Hp as (u & <- & _). exact Hd.
Qed.

End CrawlerAndEngine.

Section CrawlerLimit.
Context {nltk : NLTK} {num : PyFloat}.

(** X18. When [extract_links] never raises, a new crawler indexes at most
    [max_pages] pages: the pages indexed are at most as many as the URLs
    marked visited, and at most [max(0, max_pages)]. *)
Theorem crawl_page_limit (fuel : nat) (w : web) (max_pages_ : Z)
    (start_urls : list string) (search_engine : engine) (max_depth : Z)
    (st' : crawl_state) :
  links_never_fail w ->
  crawl fuel w (WebCrawler max_pages_) start_urls search_engine max_depth
  = Some st' ->
  (crawl_doc_id st' <= length (visited_urls (crawl_self st')))%nat
  /\ Z.of_nat (crawl_doc_id st') <= Z.max 0 max_pages_.
Proof.
  unfold crawl, WebCrawler. cbn [max_pages visited_urls to_visit app].
  intros Hw H.
  apply (crawl_loop_invariant
           (fun st =>
              (crawl_doc_id st <= length (visited_urls (crawl_self st)))%nat
              /\ Z.of_nat (length (visited_urls (crawl_self st)))
                 <= Z.max 0 max_pages_
              /\ max_pages (crawl_self st) = max_pages_)) in H.
  - destruct H as [(H1 & H2 & _) _]. split; auto. lia.
  - clear H. intros st C (Hn & Hlen & Hmp).
    unfold crawl_continues in C. unfold crawl_iteration.
    destruct st as [[mp visited queue] e n log]. cbn [crawl_self to_visit
      visited_urls max_pages crawl_engine crawl_doc_id crawled] in *.
    destruct queue as [|[url depth] rest]; [discriminate|].
    apply Z.ltb_lt in C.
    destruct (str_in url visited) eqn:Hin; cbn [orb].
    { simpl. auto. }
    destruct (max_depth <? depth).
    { simpl. auto. }
    assert (Hgrow : length (set_add url visited) = S (length visited)).
    { rewrite set_add_new by exact Hin. rewrite length_app. simpl. lia. }
    destruct (w (length log) url) as [| |title_ content_ links] eqn:Hresp;
      cbn [crawl_self visited_urls max_pages crawl_doc_id]; auto.
    destruct (negb (String.eqb content_ "")
              && (100 <? String.length content_)%nat);
      cbn [crawl_self visited_urls max_pages crawl_doc_id].
    + destruct (depth <? max_depth);
        cbn [crawl_self visited_urls max_pages crawl_doc_id].
      * destruct links as [new_links|];
          cbn [crawl_self visited_urls max_pages crawl_doc_id].
        -- rewrite Hgrow. repeat split; auto; lia.
        -- exfalso. exact (Hw _ _ _ _ Hresp).
      * rewrite Hgrow. repeat split; auto; lia.
    + rewrite Hgrow. repeat split; auto; lia.
  - cbn [crawl_self visited_urls max_pages crawl_doc_id]. simpl.
    repeat split; auto; lia.
Qed.

End CrawlerLimit.

(* ================================================================== *)
(** * Properties of the API *)
(* ================================================================== *)

Lemma lstrip_empty (s : string) : lstrip s = "" <-> all_space s = true.
Proof.
  induction s as [|c s IH]; simpl.
  - tauto.
  - destruct (is_space c); simpl; [exact IH|].
    split; discriminate.
Qed.

Lemma rstrip_empty (s : string) : rstrip s = "" <-> all_space s = true.
Proof.
  induction s as [|c s IH]; simpl.
  - tauto.
  - destruct (rstrip s) eqn:E.
    + destruct (is_space c); simpl.
      * tauto.
      * split; discriminate.
    + split; [discriminate|]. intros H. apply andb_true_iff in H.
      destruct H as [_ H]. apply IH in H. discriminate.
Qed.

Lemma lstrip_all_space (s : string) :
  all_space (lstrip s) = true -> all_space s = true.
Proof.
  induction s as [|c s IH]; simpl; auto.
  destruct (is_space c) eqn:E; simpl; auto.
  rewrite E. discriminate.
Qed.

Lemma strip_empty (s : string) : strip s = "" <-> all_space s = true.
Proof.
  unfold strip. rewrite rstrip_empty. split.
  - apply lstrip_all_space.
  - intros H. apply lstrip_empty in H. now rewrite H.
Qed.

Section ApiFacts.
Context {nltk : NLTK} {num : PyFloat}.

(** X19. [GET /search] answers with the error 400 exactly for a query that
    has no character but white space (the empty query is one), and then it
    does not call [search]; for every other query its reply is the outcome
    of [search(q, limit)], with [total_results] the number of results.  In
    both cases the engine is left as it was. *)
Theorem search_endpoint_blank_query (q : string) (limit : Z)
    (search_engine : engine) :
  (all_space q = true ->
   search_endpoint q limit search_engine
   = (HTTPException 400 "Query cannot be empty", search_engine))
  /\ (all_space q = false ->
      search_endpoint q limit search_engine
      = (match fst (search q limit search_engine) with
         | Ok results =>
             Replied {| response_query := q;
                        response_results := results;
                        total_results := Z.of_nat (length results) |}
         | Raise e => Unhandled e
         end, search_engine)).
Proof.
  unfold search_endpoint. split.
  - intros H. apply strip_empty in H. now rewrite H.
  - intros H. destruct (strip q) eqn:E.
    + apply strip_empty in E. congruence.
    + rewrite search_run. simpl. destruct (search_outcome _ _ _); reflexivity.
Qed.

Lemma crawl_background_engine (fuel : nat) (w : web) (urls : list string)
    (max_pages_ : Z) (e : engine) (d : disk) (e' : engine) (d' : disk) :
  crawl_background fuel w urls max_pages_ e d = Some (e', d') ->
  (exists calls, e' = add_documents calls e) /\ d' = save_index e' d.
Proof.
  unfold crawl_background.
  destruct (crawl fuel w (WebCrawler max_pages_) urls e 2) as [st|] eqn:E;
    [|discriminate].
  intros H. injection H as <- <-. split; auto.
  apply crawl_indexed in E. destruct E as (calls & He & _). eauto.
Qed.

Lemma served_avg_doc_length (e : engine) (d : disk) :
  served e d -> avg_doc_length e = PyInt 0.
Proof.
  induction 1 as [d|e d fuel w urls mp e' d' _ IH _ Hc].
  - unfold startup_event, load_index.
    destruct (search_index_json d); [destruct (vectorizer_pkl d)|];
      reflexivity.
  - apply crawl_background_engine in Hc. destruct Hc as [(calls & ->) _].
    now rewrite add_documents_avg_doc_length.
Qed.

(** X20. In a process that serves its requests one at a time, whatever the
    disk held at the start and whatever was crawled, [GET /search] never
    answers with a result: its reply is the error 400, a response with no
    result, or an exception that [search] raises and nothing catches,
    because no operation assigns [avg_doc_length]: [ZeroDivisionError];
    [ValueError], when the [total_docs] read from the disk is negative; or
    [OverflowError], when a number read from the disk is too large for a
    [float]. *)
Theorem search_endpoint_never_returns_a_hit (e : engine) (d : disk)
    (q : string) (limit : Z) :
  served e d ->
  let r := fst (search_endpoint q limit e) in
  r = HTTPException 400 "Query cannot be empty"
  \/ r = Replied {| response_query := q;
                    response_results := [];
                    total_results := 0 |}
  \/ (0 <= total_docs e /\ r = Unhandled ZeroDivisionError)
  \/ (total_docs e < 0 /\ r = Unhandled ValueError)
  \/ r = Unhandled OverflowError.
Proof.
  intros Hs. apply served_avg_doc_length in Hs.
  unfold search_endpoint. destruct (strip q); [simpl; auto|].
  rewrite search_run, (search_zero_avg e _ _ Hs).
  destruct (total_docs e =? 0); [simpl; auto|].
  destruct (search_zero_avg_exn _ _ _) as [x|] eqn:E; simpl; auto.
  apply search_zero_avg_exn_cases in E.
  destruct E as [[Hn ->]|[[Hn ->]| ->]]; auto 6.
Qed.

(** X21. After a crawl request has run to its end, the snapshot on the
    disk is the index of the process: a process started on that disk loads
    an engine equal to the one that was saved, and [load_index] returns
    [True]. *)
Theorem crawl_background_then_restart (e : engine) (d : disk) (fuel : nat)
    (w : web) (urls : list string) (max_pages_ : Z) (e' : engine)
    (d' : disk) :
  served e d ->
  crawl_background fuel w urls max_pages_ e d = Some (e', d') ->
  load_index __init__ d' = (true, e') /\ startup_event d' = e'.
Proof.
  intros Hs Hc.
  assert (Havg : avg_doc_length e' = PyInt 0).
  { apply crawl_background_engine in Hc as Hc'.
    destruct Hc' as [(calls & ->) _].
    rewrite add_documents_avg_doc_length.
    now apply served_avg_doc_length with (d := d). }
  apply crawl_background_engine in Hc. destruct Hc as [_ ->].
  unfold startup_event, load_index, save_index. simpl.
  destruct e' as [ds idx avg n]. simpl in Havg. subst avg. auto.
Qed.

End ApiFacts.

(* ================================================================== *)
(** * Worked crawls *)
(* ================================================================== *)

(** [n] copies of a text, one after the other. *)
Fixpoint copies (n : nat) (text : string) : string :=
  match n with
  | O => EmptyString
  | S n' => (text ++ copies n' text)%string
  end.

(** A web of two pages: the first links to the second and to itself. *)
Definition example_web : web :=
  fun _ url =>
    if String.eqb url "http://a.example/"
    then Page "Cats" (copies 12 "cats purr ")
              (Some ["http://a.example/dogs"; "http://a.example/"])
    else if String.eqb url "http://a.example/dogs"
    then Page "Dogs" (copies 12 "dogs bark ") (Some [])
    else Failed.

Definition empty_disk : disk :=
  {| search_index_json := None; vectorizer_pkl := false |}.

Definition idle_crawl : @crawl_state QFloat :=
  {| crawl_self := WebCrawler 0;
     crawl_engine := __init__;
     crawl_doc_id := O;
     crawled := [] |}.

(** The crawl of that web from its first page, into a new engine, and a
    second crawl from its second page into the engine of the first. *)
Definition example_crawl : @crawl_state QFloat :=
  match @crawl (nltk_english no_stemming) QFloat 5 example_web
               (WebCrawler 50) ["http://a.example/"] __init__ 2 with
  | Some st => st
  | None => idle_crawl
  end.

Definition example_second_crawl : @crawl_state QFloat :=
  match @crawl (nltk_english no_stemming) QFloat 5 example_web
               (WebCrawler 50) ["http://a.example/dogs"]
               (crawl_engine example_crawl) 2 with
  | Some st => st
  | None => idle_crawl
  end.

Lemma example_crawl_ends :
  @crawl (nltk_english no_stemming) QFloat 5 example_web
         (WebCrawler 50) ["http://a.example/"] __init__ 2
  = Some example_crawl.
Proof. reflexivity. Qed.

Lemma example_second_crawl_ends :
  @crawl (nltk_english no_stemming) QFloat 5 example_web
         (WebCrawler 50) ["http://a.example/dogs"]
         (crawl_engine example_crawl) 2
  = Some example_second_crawl.
Proof. reflexivity. Qed.

Lemma example_web_links : links_never_fail example_web.
Proof.
  intros n url title_ content_. unfold example_web.
  destruct (String.eqb url "http://a.example/"); [discriminate|].
  destruct (String.eqb url "http://a.example/dogs"); discriminate.
Qed.

Lemma example_crawl_counts :
  crawl_doc_id example_crawl = 2%nat
  /\ crawl_doc_id example_second_crawl = 1%nat
  /\ crawled example_crawl = ["http://a.example/"; "http://a.example/dogs"].
Proof. repeat split; reflexivity. Qed.

(* ================================================================== *)
(** * The further properties on worked inputs *)
(* ================================================================== *)

Lemma search_no_query_token_witness :
  @preprocess_text (nltk_english no_stemming) "the and of it" = []
  /\ @search (nltk_english no_stemming) QFloat "the and of it" 10
             example_engine
     = (Ok [], example_engine).
Proof.
  assert (H : @preprocess_text (nltk_english no_stemming) "the and of it"
              = []) by reflexivity.
  split; [exact H|].
  exact (@search_no_query_token (nltk_english no_stemming) QFloat
           example_engine "the and of it" 10 H).
Defined.

Lemma search_result_count_witness :
  fst (@search (nltk_english no_stemming) QFloat "cats" 10 example_engine)
  = Ok example_results
  /\ (length example_results <= length (documents example_engine))%nat.
Proof.
  assert (H : fst (@search (nltk_english no_stemming) QFloat "cats" 10
                     example_engine) = Ok example_results)
    by reflexivity.
  split; [exact H|].
  exact (proj1 (@search_result_count (nltk_english no_stemming) QFloat
                  example_engine "cats" 10 example_results H)).
Defined.

Lemma example_engine_keys :
  PyDict.keys (documents example_engine) = ["d1"; "d2"; "d3"].
Proof. reflexivity. Qed.

Lemma search_results_distinct_witness :
  (NoDup (PyDict.keys (documents example_engine))
   /\ fst (@search (nltk_english no_stemming) QFloat "cats" 10
             example_engine) = Ok example_results)
  /\ NoDup (map hit_doc_id example_results).
Proof.
  assert (Hk : NoDup (PyDict.keys (documents example_engine))).
  { rewrite example_engine_keys.
    repeat constructor; simpl; intuition discriminate. }
  assert (H : fst (@search (nltk_english no_stemming) QFloat "cats" 10
                     example_engine) = Ok example_results)
    by reflexivity.
  split; [auto|].
  exact (proj1 (@search_results_distinct (nltk_english no_stemming) QFloat
                  example_engine "cats" 10 example_results Hk H)).
Defined.

Lemma crawl_indexes_numbered_pages_witness :
  @crawl (nltk_english no_stemming) QFloat 5 example_web
         (WebCrawler 50) ["http://a.example/"] __init__ 2
  = Some example_crawl
  /\ exists calls,
       crawl_engine example_crawl
       = @add_documents (nltk_english no_stemming) QFloat calls __init__
       /\ length calls = crawl_doc_id example_crawl
       /\ map call_id calls
          = map doc_name (seq 0 (crawl_doc_id example_crawl))
       /\ Forall (fun c => (100 < String.length (call_content c))%nat) calls
       /\ (crawl_doc_id example_crawl <= length (crawled example_crawl))%nat.
Proof.
  split; [exact example_crawl_ends|].
  exact (@crawl_indexes_numbered_pages (nltk_english no_stemming) QFloat
           5 example_web (WebCrawler 50) ["http://a.example/"] __init__ 2
           example_crawl example_crawl_ends).
Defined.

Lemma crawl_new_engine_consistent_witness :
  @crawl (nltk_english no_stemming) QFloat 5 example_web
         (WebCrawler 50) ["http://a.example/"] __init__ 2
  = Some example_crawl
  /\ (total_docs (crawl_engine example_crawl)
      = Z.of_nat (crawl_doc_id example_crawl)
      /\ length (documents (crawl_engine example_crawl))
         = crawl_doc_id example_crawl
      /\ @index_matches_store QFloat (crawl_engine example_crawl)
      /\ @index_invariant QFloat (crawl_engine example_crawl)).
Proof.
  split; [exact example_crawl_ends|].
  exact (@crawl_new_engine_consistent (nltk_english no_stemming) QFloat
           5 example_web (WebCrawler 50) ["http://a.example/"] 2
           example_crawl example_crawl_ends).
Defined.

Lemma crawl_twice_reuses_ids_witness :
  (@crawl (nltk_english no_stemming) QFloat 5 example_web
          (WebCrawler 50) ["http://a.example/"] __init__ 2
   = Some example_crawl
   /\ @crawl (nltk_english no_stemming) QFloat 5 example_web
             (WebCrawler 50) ["http://a.example/dogs"]
             (crawl_engine example_crawl) 2
      = Some example_second_crawl)
  /\ (length (documents (crawl_engine example_second_crawl))
      = Nat.max (crawl_doc_id example_crawl)
                (crawl_doc_id example_second_crawl)
      /\ total_docs (crawl_engine example_second_crawl)
         = Z.of_nat (crawl_doc_id example_crawl
                     + crawl_doc_id example_second_crawl)).
Proof.
  split; [split; [exact example_crawl_ends | exact example_second_crawl_ends]|].
  exact (@crawl_twice_reuses_ids (nltk_english no_stemming) QFloat
           5 5 example_web example_web (WebCrawler 50) (WebCrawler 50)
           ["http://a.example/"] ["http://a.example/dogs"] 2 2
           example_crawl example_second_crawl
           example_crawl_ends example_second_crawl_ends).
Defined.

Lemma crawl_visited_bound_witness :
  @crawl (nltk_english no_stemming) QFloat 5 example_web
         (WebCrawler 50) ["http://a.example/"] __init__ 2
  = Some example_crawl
  /\ Z.of_nat (length (visited_urls (crawl_self example_crawl))) <= 50.
Proof.
  split; [exact example_crawl_ends|].
  exact (proj1 (@crawl_visited_bound (nltk_english no_stemming) QFloat
                  5 example_web (WebCrawler 50) ["http://a.example/"]
                  __init__ 2 example_crawl example_crawl_ends)).
Defined.

Lemma crawl_nothing_to_do_witness :
  let st := {| crawl_self := WebCrawler 50;
               crawl_engine := @__init__ QFloat;
               crawl_doc_id := O;
               crawled := [] |} in
  ((([] : list string) = [] \/ 50 <= 0 \/ 2 < 0)
   /\ @crawl (nltk_english no_stemming) QFloat 0 example_web
             (WebCrawler 50) [] __init__ 2 = Some st)
  /\ (crawl_engine st = __init__
      /\ crawl_doc_id st = O
      /\ crawled st = []
      /\ visited_urls (crawl_self st) = []).
Proof.
  intros st.
  assert (Hcase : ([] : list string) = [] \/ 50 <= 0 \/ 2 < 0)
    by (left; reflexivity).
  assert (H : @crawl (nltk_english no_stemming) QFloat 0 example_web
                (WebCrawler 50) [] __init__ 2 = Some st) by reflexivity.
  split; [auto|].
  exact (@crawl_nothing_to_do (nltk_english no_stemming) QFloat
           0 example_web 50 [] __init__ 2 st Hcase H).
Defined.

Lemma crawl_page_limit_witness :
  (links_never_fail example_web
   /\ @crawl (nltk_english no_stemming) QFloat 5 example_web
             (WebCrawler 50) ["http://a.example/"] __init__ 2
      = Some example_crawl)
  /\ Z.of_nat (crawl_doc_id example_crawl) <= Z.max 0 50.
Proof.
  split; [split; [exact example_web_links | exact example_crawl_ends]|].
  exact (proj2 (@crawl_page_limit (nltk_english no_stemming) QFloat
                  5 example_web 50 ["http://a.example/"] __init__ 2
                  example_crawl example_web_links example_crawl_ends)).
Defined.

(** The process that started on the empty directory and has crawled the
    two pages. *)
Lemma example_served :
  @served (nltk_english no_stemming) QFloat (crawl_engine example_crawl)
          (save_index (crawl_engine example_crawl) empty_disk).
Proof.
  apply (@served_crawl (nltk_english no_stemming) QFloat
           (startup_event empty_disk) empty_disk 5 example_web
           ["http://a.example/"] 50).
  - apply served_start.
  - discriminate.
  - reflexivity.
Qed.

(** In that process the query "cats" is answered by the exception. *)
Lemma example_served_search :
  fst (@search_endpoint (nltk_english no_stemming) QFloat "cats" 10
         (crawl_engine example_crawl))
  = Unhandled ZeroDivisionError.
Proof. reflexivity. Qed.

Lemma search_endpoint_never_returns_a_hit_witness :
  let e := crawl_engine example_crawl in
  @served (nltk_english no_stemming) QFloat e (save_index e empty_disk)
  /\ (let r := fst (@search_endpoint (nltk_english no_stemming) QFloat
                      "cats" 10 e) in
      r = HTTPException 400 "Query cannot be empty"
      \/ r = Replied {| response_query := "cats";
                        response_results := [];
                        total_results := 0 |}
      \/ (0 <= total_docs e /\ r = Unhandled ZeroDivisionError)
      \/ (total_docs e < 0 /\ r = Unhandled ValueError)
      \/ r = Unhandled OverflowError).
Proof.
  intros e. split; [exact example_served|].
  exact (@search_endpoint_never_returns_a_hit (nltk_english no_stemming)
           QFloat e (save_index e empty_disk) "cats" 10 example_served).
Defined.

Lemma crawl_background_then_restart_witness :
  let e' := crawl_engine example_crawl in
  let d' := save_index e' empty_disk in
  (@served (nltk_english no_stemming) QFloat (startup_event empty_disk)
           empty_disk
   /\ @crawl_background (nltk_english no_stemming) QFloat 5 example_web
        ["http://a.example/"] 50 (startup_event empty_disk) empty_disk
      = Some (e', d'))
  /\ (load_index __init__ d' = (true, e') /\ startup_event d' = e').
Proof.
  intros e' d'.
  assert (H : @served (nltk_english no_stemming) QFloat
                (startup_event empty_disk) empty_disk)
    by apply served_start.
  assert (Hc : @crawl_background (nltk_english no_stemming) QFloat 5
                 example_web ["http://a.example/"] 50
                 (startup_event empty_disk) empty_disk
               = Some (e', d')) by reflexivity.
  split; [auto|].
  exact (@crawl_background_then_restart (nltk_english no_stemming) QFloat
           (startup_event empty_disk) empty_disk 5 example_web
           ["http://a.example/"] 50 e' d' H Hc).
Defined.

Lemma search_results_match_query_witness :
  fst (@search (nltk_english no_stemming) QFloat "cats" 10 example_engine)
  = Ok example_results
  /\ Forall (fun r =>
               matches example_engine
                       (@preprocess_text (nltk_english no_stemming) "cats")
                       (hit_doc_id r) = true)
            example_results.
Proof.
  assert (H : fst (@search (nltk_english no_stemming) QFloat "cats" 10
                     example_engine) = Ok example_results)
    by reflexivity.
  split; [exact H|].
  exact (@search_results_match_query (nltk_english no_stemming) QFloat
           example_engine "cats" 10 example_results H).
Defined.

Lemma search_returns_every_match_witness :
  (fst (@search (nltk_english no_stemming) QFloat "cats" 10 example_engine)
   = Ok example_results
   /\ total_docs example_engine <> 0
   /\ Z.of_nat (length (documents example_engine)) <= 10)
  /\ example_results
     = @ranking (nltk_english no_stemming) QFloat example_engine "cats".
Proof.
  assert (H : fst (@search (nltk_english no_stemming) QFloat "cats" 10
                     example_engine) = Ok example_results)
    by reflexivity.
  assert (Hn : total_docs example_engine <> 0) by discriminate.
  assert (Hk : Z.of_nat (length (documents example_engine)) <= 10)
    by (intros Hgt; discriminate Hgt).
  split; [auto|].
  exact (proj1 (@search_returns_every_match (nltk_english no_stemming)
                  QFloat example_engine "cats" 10 example_results
                  H Hn Hk)).
Defined.

(** A directory whose [search_index.json] holds the three documents and
    their index with a [total_docs] of -5, and the engine of a process
    started on it. *)
Definition negative_disk : disk :=
  let s := @add_documents (nltk_english no_stemming) QFloat example_calls
             __init__ in
  {| search_index_json :=
       Some {| snap_documents := documents s;
               snap_inverted_index := inverted_index s;
               snap_total_docs := -5 |};
     vectorizer_pkl := true |}.

Definition negative_engine : @engine QFloat :=
  @startup_event QFloat negative_disk.

(** The same with a [total_docs] of [2^1024]. *)
Definition huge_disk : disk :=
  let s := @add_documents (nltk_english no_stemming) QFloat example_calls
             __init__ in
  {| search_index_json :=
       Some {| snap_documents := documents s;
               snap_inverted_index := inverted_index s;
               snap_total_docs := 2 ^ 1024 |};
     vectorizer_pkl := true |}.

Definition huge_engine : @engine QFloat :=
  @startup_event QFloat huge_disk.

(** The cases on worked inputs: the document about cats raises
    [ZeroDivisionError] for the query "cats"; the document about dogs
    scores 0; with a negative [total_docs] the logarithm raises first; and
    with a [total_docs] of [2^1024] the conversion before it. *)
Lemma bm25_score_zero_avg_witness :
  let s := @add_documents (nltk_english no_stemming) QFloat example_calls
             __init__ in
  (avg_doc_length s = PyInt 0
   /\ @bm25_score (nltk_english no_stemming) QFloat "cats" "d1" s
      = (Raise ZeroDivisionError, s))
  /\ (avg_doc_length s = PyInt 0
      /\ @bm25_score (nltk_english no_stemming) QFloat "cats" "d2" s
         = (Ok (of_Z 0), s))
  /\ (avg_doc_length negative_engine = PyInt 0
      /\ @bm25_score (nltk_english no_stemming) QFloat "cats" "d1"
           negative_engine
         = (Raise ValueError, negative_engine))
  /\ (avg_doc_length huge_engine = PyInt 0
      /\ @bm25_score (nltk_english no_stemming) QFloat "cats" "d1"
           huge_engine
         = (Raise OverflowError, huge_engine)).
Proof.
  intros s.
  assert (H : avg_doc_length s = PyInt 0) by reflexivity.
  assert (H' : avg_doc_length negative_engine = PyInt 0) by reflexivity.
  assert (H'' : avg_doc_length huge_engine = PyInt 0) by reflexivity.
  split; [|split; [|split]]; (split; [assumption|]).
  - exact (@bm25_score_zero_avg (nltk_english no_stemming) QFloat s
             "cats" "d1" H).
  - exact (@bm25_score_zero_avg (nltk_english no_stemming) QFloat s
             "cats" "d2" H).
  - exact (@bm25_score_zero_avg (nltk_english no_stemming) QFloat
             negative_engine "cats" "d1" H').
  - exact (@bm25_score_zero_avg (nltk_english no_stemming) QFloat
             huge_engine "cats" "d1" H'').
Defined.

Lemma preprocess_text_case_and_symbols_witness :
  is_ascii_text "Cats2Dogs, RUN!" = true
  /\ (@preprocess_text (nltk_english no_stemming) (lower "Cats2Dogs, RUN!")
      = @preprocess_text (nltk_english no_stemming) "Cats2Dogs, RUN!"
      /\ @preprocess_text (nltk_english no_stemming)
           (strip_non_letters "Cats2Dogs, RUN!")
         = @preprocess_text (nltk_english no_stemming) "Cats2Dogs, RUN!").
Proof.
  assert (H : is_ascii_text "Cats2Dogs, RUN!" = true) by reflexivity.
  split; [exact H|].
  exact (@preprocess_text_case_and_symbols (nltk_english no_stemming)
           "Cats2Dogs, RUN!" H).
Defined.
